(** * Transaction execution orchestrator (transact step)

    A shallow embedding of the script block of the transact-step component
    ([executeTransactions], [handleEoaTransactions],
    [handleSafeAppTransactions], [recalculateTimelineStatuses],
    [retryFailedTransaction], [updateTransactionTimelineStatus],
    [initTransactionsTimelineItems], [getGasBuffer], [toggleErrorDetails])
    and of the two template expressions that drive the "Try again" and
    "Back" buttons.

    The component is single-threaded asynchronous code.  Every [await] on an
    external collaborator (payload hooks, the simulation endpoint, the wallet
    signer, the Safe SDK) is modelled as a call to an oracle held in [Env];
    the call is logged, together with the component state visible while the
    call is pending, in the trace of the run.  Module-level [let] variables
    of the component are the fields of [State].

    The [transactions] hooks of two flows that hand a payload to the
    component (delete-stream and edit-project-splits) are embedded as well,
    to state what the component does with the batches they build. *)

From Stdlib Require Import List String Ascii Bool ZArith QArith Qround Qabs Qpower Lia.
From Stdlib Require Import DecimalString.
Import ListNotations.

Local Open Scope string_scope.
Local Open Scope Z_scope.

(** ** Strings *)

(** [String.prototype.toLowerCase], on the ASCII range. *)
Definition lowerAscii (c : ascii) : ascii :=
  let n := nat_of_ascii c in
  if andb (Nat.leb 65 n) (Nat.leb n 90) then ascii_of_nat (n + 32) else c.

Fixpoint toLowerCase (s : string) : string :=
  match s with
  | EmptyString => EmptyString
  | String c r => String (lowerAscii c) (toLowerCase r)
  end.

(** [hay.includes(needle)]. *)
Fixpoint includes (needle hay : string) : bool :=
  if String.prefix needle hay then true
  else match hay with
       | EmptyString => false
       | String _ r => includes needle r
       end.

(** The decimal digits of an integer: [String(n)] for a safe integer [n]
    (below [2 ^ 53] in absolute value), and so for every array index. *)
Definition stringOfZ (z : Z) : string := NilZero.string_of_int (Z.to_int z).

(** ** JavaScript values and numbers *)

(** Values obtained from a parsed JSON body and from property reads on it.
    A number is given by its exact value, a rational; the infinities that a
    JSON literal beyond the range of doubles parses to are not among the
    values. *)
#[local] Unset Elimination Schemes.
Inductive JsValue :=
| JsUndefined
| JsNull
| JsBool (b : bool)
| JsNumber (q : Q)
| JsString (s : string)
| JsArray (elements : list JsValue)
| JsObject (props : list (string * JsValue)).
#[local] Set Elimination Schemes.

(** The results of arithmetic on doubles.  The sign of a zero is not kept. *)
Inductive number :=
| Finite (q : Q)
| Infinite (negative : bool)
| NaN.

(** What flows through the component's [try]/[catch] blocks: a caught value
    is of type [unknown].  The helpers [$lib/utils/assert] and
    [$lib/utils/unreachable] are not among the sources: each is taken to throw
    an error of its own, whose message does not contain the rejection phrase;
    so is a [TypeError] raised by the engine. *)
Inductive Error :=
| Thrown (message : string)          (* a value with that string as [message]:
                                        [new Error(message)], also from collaborators *)
| ThrownValue                        (* a value whose [message] is not a string:
                                        [undefined], [null], a string, a number,
                                        an object without one *)
| TypeError                          (* raised by the engine, as on a property read
                                        on [undefined] or [null] *)
| Unreachable                        (* [$lib/utils/unreachable] *)
| AssertionFailed (message : option string).  (* [$lib/utils/assert] *)

Inductive Outcome (A : Type) :=
| Returned (a : A)
| Threw (e : Error).
Arguments Returned {A} a.
Arguments Threw {A} e.

Fixpoint lookupProp (key : string) (props : list (string * JsValue)) : JsValue :=
  match props with
  | [] => JsUndefined
  | (k, v) :: rest => if String.eqb k key then v else lookupProp key rest
  end.

(** [const { key } = v] for a key that is neither an index nor [length]. *)
Definition getProperty (v : JsValue) (key : string) : Outcome JsValue :=
  match v with
  | JsUndefined | JsNull => Threw TypeError
  | JsObject props => Returned (lookupProp key props)
  | _ => Returned JsUndefined
  end.

(** [v[i]] for an array index [i]. *)
Definition getIndex (v : JsValue) (i : nat) : Outcome JsValue :=
  match v with
  | JsUndefined | JsNull => Threw TypeError
  | JsArray l => Returned (nth i l JsUndefined)
  | JsObject props => Returned (lookupProp (stringOfZ (Z.of_nat i)) props)
  | JsString s => Returned (match String.get i s with
                            | Some c => JsString (String c EmptyString)
                            | None => JsUndefined
                            end)
  | _ => Returned JsUndefined
  end.

(** The largest [e] with [2 ^ e <= q], for a positive [q]. *)
Definition ilog2 (q : Q) : Z :=
  let e := Z.log2 (Qnum q) - Z.log2 (Zpos (Qden q)) in
  if Qle_bool (2 ^ e) q then e else e - 1.

(** The integer nearest to [q], the even one of the two when [q] lies half
    way between them. *)
Definition roundHalfEven (q : Q) : Z :=
  let f := Qfloor q in
  match (q - inject_Z f ?= 1 # 2)%Q with
  | Lt => f
  | Gt => f + 1
  | Eq => if Z.even f then f else f + 1
  end.

(** The double nearest to the real number [q] (binary64, round to nearest,
    ties to even): 53 significant bits, the smallest unit being [2 ^ -1074];
    from [2 ^ 1024] on the result is infinite. *)
Definition roundToDouble (q : Q) : number :=
  match (q ?= 0)%Q with
  | Eq => Finite 0
  | c =>
      let a := Qabs q in
      let e := Z.max (ilog2 a - 52) (-1074) in
      let m := roundHalfEven (a / 2 ^ e) in
      let negative := match c with Lt => true | _ => false end in
      if Qle_bool (2 ^ 1024) (inject_Z m * 2 ^ e) then Infinite negative
      else Finite (if negative then - (inject_Z m * 2 ^ e) else inject_Z m * 2 ^ e)
  end.

Definition Math_ceil (x : number) : number :=
  match x with
  | Finite q => Finite (inject_Z (Qceiling q))
  | Infinite negative => Infinite negative
  | NaN => NaN
  end.

(** [x * y] on doubles: the exact product, rounded. *)
Definition times (x y : number) : number :=
  match x, y with
  | Finite a, Finite b => roundToDouble (a * b)
  | Finite a, Infinite negative | Infinite negative, Finite a =>
      match (a ?= 0)%Q with
      | Eq => NaN
      | Lt => Infinite (negb negative)
      | Gt => Infinite negative
      end
  | Infinite n1, Infinite n2 => Infinite (xorb n1 n2)
  | _, _ => NaN
  end.

(** ** Data model *)

(** The [status] of a timeline item; the [null] that the TypeScript type
    also admits is never assigned. *)
Inductive Status :=
| awaitingPrevious
| awaitingSignature
| submittedToSafe
| pending
| confirmed
| failed
| cancelled
| rejected
| retrying
| finalizing.

Definition Status_eqb (a b : Status) : bool :=
  match a, b with
  | awaitingPrevious, awaitingPrevious
  | awaitingSignature, awaitingSignature
  | submittedToSafe, submittedToSafe
  | pending, pending
  | confirmed, confirmed
  | failed, failed
  | cancelled, cancelled
  | rejected, rejected
  | retrying, retrying
  | finalizing, finalizing => true
  | _, _ => false
  end.

Record TransactionTimelineItem := {
  title : string;
  estimatedGas : string;
  message : string;
  etherscanUrl : option string;
  status : Status
}.

(** The [Partial<TransactionTimelineItem>] literals passed to
    [updateTransactionTimelineStatus]: [status] and [message] are always
    present, [etherscanUrl] only sometimes. *)
Record Updates := {
  upd_status : Status;
  upd_message : string;
  upd_etherscanUrl : option string
}.

Record Transaction := {
  to : option string;
  data : option string;
  tx_gasLimit : option number
}.

Record TransactionWrapper := {
  w_title : string;
  transaction : Transaction;
  applyGasBuffer : bool
}.

Record TransactionWrapperWithGasLimit := {
  wrapper : TransactionWrapper;
  gasLimit : option number
}.

Record SimulationRequest := {
  network_id : string;
  from : string;
  sim_to : option string;
  input : option string
}.

Record TransactionRequest := {
  req_to : option string;
  req_data : option string;
  req_gasLimit : option number
}.

Record ContractReceipt := { transactionHash : string }.

Record TransactionResponse := {
  hash : string;
  wait : Outcome ContractReceipt
}.

Record SafeTx := { safe_to : string; safe_data : string; safe_value : string }.

Record SendTransactionsResponse := { safeTxHash : string }.

(** The value produced by the [before] hook is opaque to the component. *)
Definition BeforeResult := nat.

(** ** Component state *)

Record State := {
  isRetrying : bool;
  failedTxIndex : Z;
  isExecutionCompleted : bool;
  isErrorDetailsVisible : bool;
  error : option Error;
  transactionsTimeline : list TransactionTimelineItem
}.

Definition initialState : State :=
  {| isRetrying := false;
     failedTxIndex := -1;
     isExecutionCompleted := false;
     isErrorDetailsVisible := false;
     error := None;
     transactionsTimeline := [] |}.

Definition set_isRetrying (b : bool) (s : State) : State :=
  {| isRetrying := b;
     failedTxIndex := failedTxIndex s;
     isExecutionCompleted := isExecutionCompleted s;
     isErrorDetailsVisible := isErrorDetailsVisible s;
     error := error s;
     transactionsTimeline := transactionsTimeline s |}.

Definition set_failedTxIndex (i : Z) (s : State) : State :=
  {| isRetrying := isRetrying s;
     failedTxIndex := i;
     isExecutionCompleted := isExecutionCompleted s;
     isErrorDetailsVisible := isErrorDetailsVisible s;
     error := error s;
     transactionsTimeline := transactionsTimeline s |}.

Definition set_isExecutionCompleted (b : bool) (s : State) : State :=
  {| isRetrying := isRetrying s;
     failedTxIndex := failedTxIndex s;
     isExecutionCompleted := b;
     isErrorDetailsVisible := isErrorDetailsVisible s;
     error := error s;
     transactionsTimeline := transactionsTimeline s |}.

Definition set_isErrorDetailsVisible (b : bool) (s : State) : State :=
  {| isRetrying := isRetrying s;
     failedTxIndex := failedTxIndex s;
     isExecutionCompleted := isExecutionCompleted s;
     isErrorDetailsVisible := b;
     error := error s;
     transactionsTimeline := transactionsTimeline s |}.

Definition set_error (e : option Error) (s : State) : State :=
  {| isRetrying := isRetrying s;
     failedTxIndex := failedTxIndex s;
     isExecutionCompleted := isExecutionCompleted s;
     isErrorDetailsVisible := isErrorDetailsVisible s;
     error := e;
     transactionsTimeline := transactionsTimeline s |}.

Definition set_transactionsTimeline (t : list TransactionTimelineItem) (s : State) : State :=
  {| isRetrying := isRetrying s;
     failedTxIndex := failedTxIndex s;
     isExecutionCompleted := isExecutionCompleted s;
     isErrorDetailsVisible := isErrorDetailsVisible s;
     error := error s;
     transactionsTimeline := t |}.

(** ** The environment of one execution attempt *)

Inductive Event :=
| CallBefore
| CallTransactions (beforeResult : option BeforeResult)
| FetchSimulate (simulations : list SimulationRequest)
| SendTransaction (index : nat) (request : TransactionRequest)
| WaitReceipt (index : nat) (txHash : string)
| SafeSend (txs : list SafeTx) (safeTxGas : number)
| CallAfter (receipts : list ContractReceipt) (beforeResult : option BeforeResult)
| CallAfterSafe (response : SendTransactionsResponse) (beforeResult : option BeforeResult)
| DispatchResult (success : bool) (err : option Error).

Record Env := {
  (* [$lib/utils/is-test] and [$lib/utils/etherscan-link] *)
  isTest : bool;
  etherscanLink : string -> string -> string;
  (* ECMAScript ToNumber on strings, arrays and objects *)
  coerceToNumber : JsValue -> number;
  (* [String(n)] for an integer beyond the safe range: the shortest digits
     that identify the double, in exponent form from [10 ^ 21] on *)
  numberToString : Z -> string;
  (* [`${e}`] on a caught value: it depends on the class of an error and, for
     an error raised by the engine, on the engine's wording *)
  errorToString : Error -> string;
  (* [get(walletStore)] *)
  safe : bool;
  signer : bool;
  chainId : Z;
  network_name : string;
  address : option string;
  (* the resolved payload *)
  before : option (Outcome BeforeResult);
  transactionsBuilder : option BeforeResult -> Outcome (list TransactionWrapper);
  after : option (list ContractReceipt -> option BeforeResult -> Outcome unit);
  afterSafe : option (SendTransactionsResponse -> option BeforeResult -> Outcome unit);
  duringAfter : option string;
  (* [fetch('/api/tenderly/simulate', ...)] followed by [.json()] *)
  simulate : list SimulationRequest -> Outcome JsValue;
  (* [signer.sendTransaction], for the wrapper at the given batch index *)
  sendTransaction : nat -> TransactionRequest -> Outcome TransactionResponse;
  (* [safeAppsSdk.txs.send] *)
  safeSend : list SafeTx -> number -> Outcome SendTransactionsResponse
}.

(** ** A monad for state, exceptions and the trace of external calls *)

Record Run (A : Type) := {
  outcome : Outcome A;
  final : State;
  trace : list (Event * State)
}.
Arguments outcome {A} r.
Arguments final {A} r.
Arguments trace {A} r.

Definition M (A : Type) := State -> Run A.

Definition ret {A} (a : A) : M A :=
  fun s => {| outcome := Returned a; final := s; trace := [] |}.

Definition throw {A} (e : Error) : M A :=
  fun s => {| outcome := Threw e; final := s; trace := [] |}.

Definition bind {A B} (m : M A) (f : A -> M B) : M B :=
  fun s =>
    match m s with
    | {| outcome := Returned a; final := s1; trace := t1 |} =>
        match f a s1 with
        | {| outcome := o; final := s2; trace := t2 |} =>
            {| outcome := o; final := s2; trace := t1 ++ t2 |}
        end
    | {| outcome := Threw e; final := s1; trace := t1 |} =>
        {| outcome := Threw e; final := s1; trace := t1 |}
    end.

Definition tryCatch {A} (m : M A) (handler : Error -> M A) : M A :=
  fun s =>
    match m s with
    | {| outcome := Returned a; final := s1; trace := t1 |} =>
        {| outcome := Returned a; final := s1; trace := t1 |}
    | {| outcome := Threw e; final := s1; trace := t1 |} =>
        match handler e s1 with
        | {| outcome := o; final := s2; trace := t2 |} =>
            {| outcome := o; final := s2; trace := t1 ++ t2 |}
        end
    end.

Definition get : M State :=
  fun s => {| outcome := Returned s; final := s; trace := [] |}.

Definition modify (f : State -> State) : M unit :=
  fun s => {| outcome := Returned tt; final := f s; trace := [] |}.

(** An awaited call to a collaborator: logged with the state that is visible
    while the call is pending. *)
Definition call {A} (ev : Event) (o : Outcome A) : M A :=
  fun s => {| outcome := o; final := s; trace := [(ev, s)] |}.

Definition lift {A} (o : Outcome A) : M A :=
  fun s => {| outcome := o; final := s; trace := [] |}.

(** Modelled from the spec: [$lib/utils/assert] is not among the sources;
    a falsy condition is a fatal invariant violation that throws. *)
Definition assert (cond : bool) (msg : option string) : M unit :=
  if cond then ret tt else throw (AssertionFailed msg).

Declare Scope m_scope.
Delimit Scope m_scope with M.
Notation "x <- c ;; k" := (bind c (fun x => k))
  (at level 61, c at next level, right associativity) : m_scope.
Notation "c ;; k" := (bind c (fun _ => k))
  (at level 61, right associativity) : m_scope.
Local Open Scope m_scope.

(** ** The component *)

(** [(e as Error).message] is a string: [.toLowerCase()] can be called on
    it.  On any other caught value the expression throws a [TypeError]. *)
Definition hasMessage (e : Error) : bool :=
  match e with
  | ThrownValue => false
  | _ => true
  end.

(** [(e as Error).message.toLowerCase().includes('user rejected transaction')],
    where it has a value. *)
Definition isRejection (e : Error) : bool :=
  match e with
  | Thrown m => includes "user rejected transaction" (toLowerCase m)
  | _ => false
  end.

Section Component.

Variable env : Env.

Definition toNumber (v : JsValue) : number :=
  match v with
  | JsUndefined => NaN
  | JsNull => Finite 0
  | JsBool b => Finite (if b then 1 else 0)
  | JsNumber q => Finite q
  | _ => coerceToNumber env v
  end.

Definition getGasBuffer (gasLimit : JsValue) : number :=
  Math_ceil (times (toNumber gasLimit) (Finite 1.25)).

Definition applyUpdates (item : TransactionTimelineItem) (updates : Updates)
  : TransactionTimelineItem :=
  {| title := title item;
     estimatedGas := estimatedGas item;
     message := upd_message updates;
     etherscanUrl := match upd_etherscanUrl updates with
                     | Some u => Some u
                     | None => etherscanUrl item
                     end;
     status := upd_status updates |}.

Definition updateTimeline (t : string) (updates : Updates)
  (tl : list TransactionTimelineItem) : list TransactionTimelineItem :=
  map (fun item => if String.eqb (title item) t then applyUpdates item updates else item) tl.

(** [txWrapper] is [None] when the caller read past the wrapper array; the
    read of [txWrapper.title] then throws as soon as the mapping function is
    called, that is, when the timeline is not empty. *)
Definition updateTransactionTimelineStatus (txWrapper : option TransactionWrapper)
  (updates : Updates) : M unit :=
  match txWrapper with
  | Some w =>
      modify (fun s =>
        set_transactionsTimeline (updateTimeline (w_title w) updates (transactionsTimeline s)) s)
  | None =>
      s <- get ;;
      match transactionsTimeline s with
      | [] => ret tt
      | _ :: _ => throw TypeError
      end
  end.

Definition initItem (isSafe : bool) (index : nat) (tx : TransactionWrapper)
  : TransactionTimelineItem :=
  {| title := w_title tx;
     estimatedGas := "Unknown gas";
     message := match index with
                | O => if isSafe
                       then "Waiting for you to submit the transaction in your Safe"
                       else "Waiting for you to confirm the transaction in your wallet"
                | S _ => "Waiting on previous transaction"
                end;
     etherscanUrl := None;
     status := match index with O => awaitingSignature | S _ => awaitingPrevious end |}.

Fixpoint mapi {A B} (f : nat -> A -> B) (index : nat) (l : list A) : list B :=
  match l with
  | [] => []
  | x :: r => f index x :: mapi f (S index) r
  end.

Definition initTransactionsTimelineItems (transactionWrappers : list TransactionWrapper)
  (isSafe : bool) : M unit :=
  modify (set_transactionsTimeline (mapi (initItem isSafe) 0 transactionWrappers)).

Definition recalculateItem (retryIndex : Z) (index : nat) (item : TransactionTimelineItem)
  : TransactionTimelineItem :=
  if Status_eqb (status item) confirmed then item
  else if Z.of_nat index =? retryIndex then
    {| title := title item; estimatedGas := estimatedGas item;
       message := "Preparing to retry...";
       etherscanUrl := etherscanUrl item;
       status := retrying |}
  else
    {| title := title item; estimatedGas := estimatedGas item;
       message := "Waiting on previous transaction";
       etherscanUrl := etherscanUrl item;
       status := awaitingPrevious |}.

Definition recalculateTimelineStatuses (retryIndex : Z) (s : State) : State :=
  {| isRetrying := false;
     failedTxIndex := -1;
     isExecutionCompleted := isExecutionCompleted s;
     isErrorDetailsVisible := false;
     error := None;
     transactionsTimeline := mapi (recalculateItem retryIndex) 0 (transactionsTimeline s) |}.

Definition toggleErrorDetails (index : nat) (s : State) : State :=
  set_isErrorDetailsVisible (negb (isErrorDetailsVisible s))
    (set_failedTxIndex (Z.of_nat index) s).

(** [String(network.chainId)]. *)
Definition stringOfNumber (n : Z) : string :=
  if Z.abs n <? 2 ^ 53 then stringOfZ n else numberToString env n.

Definition simulationRequest (addr : string) (tx : Transaction) : SimulationRequest :=
  {| network_id := stringOfNumber (chainId env);
     from := addr;
     sim_to := to tx;
     input := data tx |}.

(** The [forEach] that copies buffered estimates into the wrappers. *)
Fixpoint assignGasLimits (simulationRes : JsValue) (i : nat)
  (txs : list TransactionWrapperWithGasLimit)
  : Outcome (list TransactionWrapperWithGasLimit) :=
  match txs with
  | [] => Returned []
  | txWrapper :: rest =>
      if negb (applyGasBuffer (wrapper txWrapper)) then
        match assignGasLimits simulationRes (S i) rest with
        | Returned rest' => Returned (txWrapper :: rest')
        | Threw e => Threw e
        end
      else
        match getIndex simulationRes i with
        | Threw e => Threw e
        | Returned entry =>
            match getProperty entry "estimatedGas" with
            | Threw e => Threw e
            | Returned (JsNumber g) =>
                if negb (Qle_bool g 0) then
                  match assignGasLimits simulationRes (S i) rest with
                  | Returned rest' =>
                      Returned ({| wrapper := wrapper txWrapper;
                                   gasLimit := Some (getGasBuffer (JsNumber g)) |} :: rest')
                  | Threw e => Threw e
                  end
                else Threw (AssertionFailed None)
            | Returned _ => Threw (AssertionFailed None)
            end
        end
  end.

Definition transactionRequest (executingTx : TransactionWrapperWithGasLimit)
  : TransactionRequest :=
  {| req_to := to (transaction (wrapper executingTx));
     req_data := data (transaction (wrapper executingTx));
     req_gasLimit := match gasLimit executingTx with
                     | Some g => Some g
                     | None => tx_gasLimit (transaction (wrapper executingTx))
                     end |}.

(** The body of the [try] block of one loop iteration. *)
Definition submitAndConfirm (i : nat) (executingTx : TransactionWrapperWithGasLimit)
  : M ContractReceipt :=
  updateTransactionTimelineStatus (Some (wrapper executingTx))
    {| upd_status := awaitingSignature;
       upd_message := "Waiting for you to confirm in your wallet";
       upd_etherscanUrl := None |} ;;
  txResponse <- (if signer env
                 then call (SendTransaction i (transactionRequest executingTx))
                        (sendTransaction env i (transactionRequest executingTx))
                 else throw Unreachable) ;;
  updateTransactionTimelineStatus (Some (wrapper executingTx))
    {| upd_status := pending;
       upd_message := "Waiting for confirmation";
       upd_etherscanUrl := Some (etherscanLink env (network_name env) (hash txResponse)) |} ;;
  receipt <- call (WaitReceipt i (hash txResponse)) (wait txResponse) ;;
  updateTransactionTimelineStatus (Some (wrapper executingTx))
    {| upd_status := confirmed;
       upd_message := "Transaction confirmed";
       upd_etherscanUrl :=
         Some (etherscanLink env (network_name env) (transactionHash receipt)) |} ;;
  ret receipt.

(** The [catch] block of one loop iteration, up to the [break]: it throws
    in turn when the caught value has no message to classify. *)
Definition recordFailure (i : Z) (executingTx : option TransactionWrapper) (e : Error)
  : M unit :=
  (if hasMessage e then ret tt else throw TypeError) ;;
  (if isRejection e then
     updateTransactionTimelineStatus executingTx
       {| upd_status := rejected;
          upd_message := "You rejected the transaction";
          upd_etherscanUrl := None |}
   else
     updateTransactionTimelineStatus executingTx
       {| upd_status := failed;
          upd_message := "Transaction failed";
          upd_etherscanUrl := None |} ;;
     modify (set_error (Some e))) ;;
  modify (set_failedTxIndex i).

(** The [for] loop from index [i] over the remaining wrappers; the result is
    the [contractReceipts] array. *)
Fixpoint eoaLoop (i : nat) (txs : list TransactionWrapperWithGasLimit)
  (contractReceipts : list ContractReceipt) : M (list ContractReceipt) :=
  match txs with
  | [] => ret contractReceipts
  | executingTx :: rest =>
      r <- tryCatch
             (receipt <- submitAndConfirm i executingTx ;; ret (Some receipt))
             (fun e =>
                recordFailure (Z.of_nat i) (Some (wrapper executingTx)) e ;; ret None) ;;
      match r with
      | Some receipt => eoaLoop (S i) rest (contractReceipts ++ [receipt])
      | None => ret contractReceipts
      end
  end.

Definition needToSimulate (txWrappersWithGas : list TransactionWrapperWithGasLimit) : bool :=
  if isTest env then false
  else existsb (fun tx => applyGasBuffer (wrapper tx)) txWrappersWithGas.

Definition handleEoaTransactions (addr : string)
  (transactionWrappers : list TransactionWrapper) (startIndex : Z)
  : M (list ContractReceipt) :=
  let txWrappersWithGas :=
    map (fun tx => {| wrapper := tx; gasLimit := None |}) transactionWrappers in
  txs <- (if needToSimulate txWrappersWithGas then
            tryCatch
              (simulationRes <-
                 call (FetchSimulate
                         (map (fun tx => simulationRequest addr (transaction (wrapper tx)))
                              txWrappersWithGas))
                      (simulate env
                         (map (fun tx => simulationRequest addr (transaction (wrapper tx)))
                              txWrappersWithGas)) ;;
               lift (assignGasLimits simulationRes 0 txWrappersWithGas))
              (fun e =>
                 throw (Thrown ("Unable to estimate gas for transactions: "
                                ++ errorToString env e)))
          else ret txWrappersWithGas) ;;
  if startIndex <? 0 then
    (* [txWrappersWithGas[startIndex]] is [undefined]: the [try] block throws
       on the first read of a property of it (or in [unreachable()] when the
       timeline is empty and there is no signer), and the [catch] block runs
       with no wrapper *)
    s <- get ;;
    recordFailure startIndex None
      (match transactionsTimeline s with
       | [] => if signer env then TypeError else Unreachable
       | _ :: _ => TypeError
       end) ;;
    ret []
  else
    eoaLoop (Z.to_nat startIndex) (skipn (Z.to_nat startIndex) txs) [].

(** [tx.to ?? unreachable()] and [tx.data ?? unreachable()] for each wrapper. *)
Fixpoint safeTxs (transactionWrappers : list TransactionWrapper) : Outcome (list SafeTx) :=
  match transactionWrappers with
  | [] => Returned []
  | w :: rest =>
      match to (transaction w), data (transaction w) with
      | Some t, Some d =>
          match safeTxs rest with
          | Returned txs =>
              Returned ({| safe_to := t; safe_data := d; safe_value := "0" |} :: txs)
          | Threw e => Threw e
          end
      | _, _ => Threw Unreachable
      end
  end.

Definition handleSafeAppTransactions (transactionWrappers : list TransactionWrapper)
  (addr : string) : M (option SendTransactionsResponse) :=
  estimatedGasWithBuffer <-
    tryCatch
      (simulationRes <-
         call (FetchSimulate
                 (map (fun tx => simulationRequest addr (transaction tx)) transactionWrappers))
              (simulate env
                 (map (fun tx => simulationRequest addr (transaction tx)) transactionWrappers)) ;;
       estimatedGas <- lift (getProperty simulationRes "estimatedGas") ;;
       ret (getGasBuffer estimatedGas))
      (fun _ => throw (Thrown "Unable to estimate gas for Safe Batch operation.")) ;;
  assert (Nat.eqb (List.length transactionWrappers) 1)
    (Some "Expected only one transaction in Safe mode.") ;;
  let safeTx := nth_error transactionWrappers 0 in
  txs <- lift (safeTxs transactionWrappers) ;;
  tryCatch
    (response <- call (SafeSend txs estimatedGasWithBuffer)
                   (safeSend env txs estimatedGasWithBuffer) ;;
     updateTransactionTimelineStatus safeTx
       {| upd_status := submittedToSafe;
          upd_message := "Transaction submitted to Safe";
          upd_etherscanUrl := None |} ;;
     ret (Some response))
    (fun e =>
       (if hasMessage e then ret tt else throw TypeError) ;;
       (if isRejection e then
          updateTransactionTimelineStatus safeTx
            {| upd_status := rejected;
               upd_message := "You rejected the transaction";
               upd_etherscanUrl := None |}
        else
          updateTransactionTimelineStatus safeTx
            {| upd_status := failed;
               upd_message := "Transaction failed";
               upd_etherscanUrl := None |} ;;
          modify (set_error (Some e)) ;;
          modify (set_failedTxIndex 0)) ;;
       ret None).

Definition needsRetry (item : TransactionTimelineItem) : bool :=
  Status_eqb (status item) failed
  || Status_eqb (status item) rejected
  || Status_eqb (status item) retrying.

Definition truthyString (o : option string) : bool :=
  match o with
  | Some (String _ _) => true
  | _ => false
  end.

(** [transactionWrappers[transactionsTimeline.length - 1]]. *)
Definition lastWrapper (transactionWrappers : list TransactionWrapper) (s : State)
  : option TransactionWrapper :=
  match List.length (transactionsTimeline s) with
  | O => None
  | S n => nth_error transactionWrappers n
  end.

Definition finalizeEoa (transactionWrappers : list TransactionWrapper)
  (contractReceipts : list ContractReceipt) (beforeResult : option BeforeResult) : M unit :=
  tryCatch
    (s <- get ;;
     updateTransactionTimelineStatus (lastWrapper transactionWrappers s)
       {| upd_status := finalizing;
          upd_message := "Transaction confirmed. "
                         ++ match duringAfter env with
                            | Some m => m
                            | None => "Wrapping up..."
                            end;
          upd_etherscanUrl := None |} ;;
     match after env with
     | Some hook => call (CallAfter contractReceipts beforeResult)
                      (hook contractReceipts beforeResult)
     | None => ret tt
     end ;;
     s' <- get ;;
     updateTransactionTimelineStatus (lastWrapper transactionWrappers s')
       {| upd_status := confirmed;
          upd_message := "Transaction confirmed";
          upd_etherscanUrl := None |})
    (fun e => call (DispatchResult false (Some e)) (Returned tt)).

Definition finalizeSafe (safeSendTransactionResponse : option SendTransactionsResponse)
  (beforeResult : option BeforeResult) : M unit :=
  match afterSafe env with
  | Some hook =>
      match safeSendTransactionResponse with
      | None =>
          throw (AssertionFailed (Some "Expected SafeSendTransactionResponse to be defined."))
      | Some response =>
          tryCatch
            (call (CallAfterSafe response beforeResult) (hook response beforeResult))
            (fun e => call (DispatchResult false (Some e)) (Returned tt))
      end
  | None => ret tt
  end.

Definition executeTransactions (retryIndex : Z) : M unit :=
  s0 <- get ;;
  (if negb (failedTxIndex s0 =? -1)
   then modify (recalculateTimelineStatuses retryIndex)
   else ret tt) ;;
  assert (truthyString (address env)) None ;;
  let addr := match address env with Some a => a | None => "" end in
  let safeAppMode := safe env in
  beforeResult <- match before env with
                  | Some hook => r <- call CallBefore hook ;; ret (Some r)
                  | None => ret None
                  end ;;
  transactionWrappers <- call (CallTransactions beforeResult)
                           (transactionsBuilder env beforeResult) ;;
  s1 <- get ;;
  match transactionsTimeline s1 with
  | [] => initTransactionsTimelineItems transactionWrappers safeAppMode
  | _ :: _ => ret tt
  end ;;
  r <- (if safeAppMode then
          response <- handleSafeAppTransactions transactionWrappers addr ;;
          ret (response, [])
        else
          contractReceipts <- handleEoaTransactions addr transactionWrappers retryIndex ;;
          ret (None, contractReceipts)) ;;
  s2 <- get ;;
  if existsb needsRetry (transactionsTimeline s2) then ret tt
  else
    (if negb safeAppMode
     then finalizeEoa transactionWrappers (snd r) beforeResult
     else finalizeSafe (fst r) beforeResult) ;;
    modify (set_isRetrying false) ;;
    modify (set_isExecutionCompleted true).

Definition retryFailedTransaction : M unit :=
  modify (set_isRetrying true) ;;
  s <- get ;;
  executeTransactions (failedTxIndex s).

(** ** Template expressions *)

(** The condition under which a row renders its "Try again" button. *)
Definition showsTryAgain (s : State) (index : nat) (item : TransactionTimelineItem) : bool :=
  Status_eqb (status item) failed
  || Status_eqb (status item) rejected
  || (Status_eqb (status item) retrying && (Z.of_nat index =? failedTxIndex s)).

Fixpoint existsbi {A} (f : nat -> A -> bool) (index : nat) (l : list A) : bool :=
  match l with
  | [] => false
  | x :: r => f index x || existsbi f (S index) r
  end.

(** Some row offers a "Try again" button that is not [disabled]. *)
Definition retryAvailable (s : State) : bool :=
  existsbi (showsTryAgain s) 0 (transactionsTimeline s) && negb (isRetrying s).

(** [disabled={!!failedTxIndex}] on the "Back" button. *)
Definition backDisabled (s : State) : bool := negb (failedTxIndex s =? 0).

(** [disabled={!isExecutionCompleted}] on the "Continue" button. *)
Definition continueDisabled (s : State) : bool := negb (isExecutionCompleted s).

End Component.

(** ** The flows that hand a payload to the component *)

(** The [transactions] hook of the delete-stream flow:
    [callerClient.populateCallBatchedTx(batch)] on the client and the batch
    that the [before] hook returned. *)
Definition deleteStreamTransactions
  (populateCallBatchedTx : BeforeResult -> Outcome Transaction)
  (beforeResult : option BeforeResult) : Outcome (list TransactionWrapper) :=
  match beforeResult with
  | None => Threw TypeError
  | Some context =>
      match populateCallBatchedTx context with
      | Returned tx =>
          Returned [{| w_title := "Delete the stream";
                       transaction := tx;
                       applyGasBuffer := true |}]
      | Threw e => Threw e
      end
  end.

(** The [transactions] hook of the edit-project-splits flow: the transaction
    that the [before] hook populated. *)
Definition updateSplitsTransactions (tx : BeforeResult -> Transaction)
  (beforeResult : option BeforeResult) : Outcome (list TransactionWrapper) :=
  match beforeResult with
  | None => Threw TypeError
  | Some context =>
      Returned [{| w_title := "Update project splits";
                   transaction := tx context;
                   applyGasBuffer := false |}]
  end.

(** ** Specification vocabulary *)

(** The states an iteration of the signing loop goes through, for the
    wrapper titled [t]. *)
Definition onTimeline (f : list TransactionTimelineItem -> list TransactionTimelineItem)
  (s : State) : State :=
  set_transactionsTimeline (f (transactionsTimeline s)) s.

Definition stAwaiting (t : string) : State -> State :=
  onTimeline (updateTimeline t
    {| upd_status := awaitingSignature;
       upd_message := "Waiting for you to confirm in your wallet";
       upd_etherscanUrl := None |}).

Definition stPending (env : Env) (t : string) (txHash : string) : State -> State :=
  onTimeline (updateTimeline t
    {| upd_status := pending;
       upd_message := "Waiting for confirmation";
       upd_etherscanUrl := Some (etherscanLink env (network_name env) txHash) |}).

Definition stConfirmed (env : Env) (t : string) (receiptHash : string) : State -> State :=
  onTimeline (updateTimeline t
    {| upd_status := confirmed;
       upd_message := "Transaction confirmed";
       upd_etherscanUrl := Some (etherscanLink env (network_name env) receiptHash) |}).

Definition stFailure (i : Z) (t : string) (e : Error) (s : State) : State :=
  set_failedTxIndex i
    (if isRejection e then
       onTimeline (updateTimeline t
         {| upd_status := rejected;
            upd_message := "You rejected the transaction";
            upd_etherscanUrl := None |}) s
     else
       set_error (Some e)
         (onTimeline (updateTimeline t
            {| upd_status := failed;
               upd_message := "Transaction failed";
               upd_etherscanUrl := None |}) s)).

(** How a [catch] block that classifies the caught value [e] ends, from the
    state [s]: with the failure on record, or by throwing in turn. *)
Definition catchEnds {A} (Q : Outcome A -> State -> Prop) (recorded : A) (e : Error)
  (onRecord s : State) : Prop :=
  if hasMessage e then Q (Returned recorded) onRecord else Q (Threw TypeError) s.

(** One iteration of the loop, as a case analysis on what the signer does
    and on whether the [catch] block can classify what it caught. *)
Definition iteration (env : Env) (i : nat) (executingTx : TransactionWrapperWithGasLimit)
  (s : State) : Run (option ContractReceipt) :=
  let t := w_title (wrapper executingTx) in
  let req := transactionRequest executingTx in
  let s1 := stAwaiting t s in
  if signer env then
    match sendTransaction env i req with
    | Returned txResponse =>
        let s2 := stPending env t (hash txResponse) s1 in
        match wait txResponse with
        | Returned receipt =>
            {| outcome := Returned (Some receipt);
               final := stConfirmed env t (transactionHash receipt) s2;
               trace := [(SendTransaction i req, s1); (WaitReceipt i (hash txResponse), s2)] |}
        | Threw e =>
            if hasMessage e then
              {| outcome := Returned None;
                 final := stFailure (Z.of_nat i) t e s2;
                 trace := [(SendTransaction i req, s1);
                           (WaitReceipt i (hash txResponse), s2)] |}
            else
              {| outcome := Threw TypeError;
                 final := s2;
                 trace := [(SendTransaction i req, s1);
                           (WaitReceipt i (hash txResponse), s2)] |}
        end
    | Threw e =>
        if hasMessage e then
          {| outcome := Returned None;
             final := stFailure (Z.of_nat i) t e s1;
             trace := [(SendTransaction i req, s1)] |}
        else
          {| outcome := Threw TypeError;
             final := s1;
             trace := [(SendTransaction i req, s1)] |}
    end
  else
    {| outcome := Returned None;
       final := stFailure (Z.of_nat i) t Unreachable s1;
       trace := [] |}.

(** The state after the guarded reset at the top of [executeTransactions]. *)
Definition resetState (retryIndex : Z) (s : State) : State :=
  if negb (failedTxIndex s =? -1) then recalculateTimelineStatuses retryIndex s else s.

(** The state after the guarded initialization of the timeline. *)
Definition initState (env : Env) (ws : list TransactionWrapper) (s : State) : State :=
  match transactionsTimeline s with
  | [] => set_transactionsTimeline (mapi (initItem (safe env)) 0 ws) s
  | _ :: _ => s
  end.

Definition simulationRequests (env : Env) (addr : string) (ws : list TransactionWrapper)
  : list SimulationRequest :=
  map (fun tx => simulationRequest env addr (transaction tx)) ws.

Definition withoutGas (ws : list TransactionWrapper) : list TransactionWrapperWithGasLimit :=
  map (fun tx => {| wrapper := tx; gasLimit := None |}) ws.

(** The wrappers with their resolved gas limits, or the error that aborts
    the direct-signing path before its loop. *)
Definition resolveGas (env : Env) (addr : string) (ws : list TransactionWrapper)
  : Outcome (list TransactionWrapperWithGasLimit) :=
  if needToSimulate env (withoutGas ws) then
    match simulate env (simulationRequests env addr ws) with
    | Returned simulationRes =>
        match assignGasLimits env simulationRes 0 (withoutGas ws) with
        | Returned txs => Returned txs
        | Threw e =>
            Threw (Thrown ("Unable to estimate gas for transactions: " ++ errorToString env e))
        end
    | Threw e =>
        Threw (Thrown ("Unable to estimate gas for transactions: " ++ errorToString env e))
    end
  else Returned (withoutGas ws).

(** The buffered estimate of the Safe path, or the error that aborts it. *)
Definition safeGas (env : Env) (addr : string) (ws : list TransactionWrapper)
  : Outcome number :=
  match simulate env (simulationRequests env addr ws) with
  | Returned simulationRes =>
      match getProperty simulationRes "estimatedGas" with
      | Returned g => Returned (getGasBuffer env g)
      | Threw _ => Threw (Thrown "Unable to estimate gas for Safe Batch operation.")
      end
  | Threw _ => Threw (Thrown "Unable to estimate gas for Safe Batch operation.")
  end.

Definition stSubmitted (t : string) : State -> State :=
  onTimeline (updateTimeline t
    {| upd_status := submittedToSafe;
       upd_message := "Transaction submitted to Safe";
       upd_etherscanUrl := None |}).

Definition stSafeFailure (t : string) (e : Error) (s : State) : State :=
  if isRejection e then
    onTimeline (updateTimeline t
      {| upd_status := rejected;
         upd_message := "You rejected the transaction";
         upd_etherscanUrl := None |}) s
  else
    set_failedTxIndex 0
      (set_error (Some e)
         (onTimeline (updateTimeline t
            {| upd_status := failed;
               upd_message := "Transaction failed";
               upd_etherscanUrl := None |}) s)).

Definition stFinalizing (env : Env) (t : string) : State -> State :=
  onTimeline (updateTimeline t
    {| upd_status := finalizing;
       upd_message := "Transaction confirmed. "
                      ++ match duringAfter env with
                         | Some m => m
                         | None => "Wrapping up..."
                         end;
       upd_etherscanUrl := None |}).

Definition stFinalized (t : string) : State -> State :=
  onTimeline (updateTimeline t
    {| upd_status := confirmed;
       upd_message := "Transaction confirmed";
       upd_etherscanUrl := None |}).

(** The dispatch to one of the two executors, and what follows it when no
    row needs a retry. *)
Definition runExecutor (env : Env) (ws : list TransactionWrapper) (retryIndex : Z)
  : M (option SendTransactionsResponse * list ContractReceipt) :=
  let addr := match address env with Some a => a | None => "" end in
  if safe env then
    (response <- handleSafeAppTransactions env ws addr ;;
     ret (response, []))%M
  else
    (contractReceipts <- handleEoaTransactions env addr ws retryIndex ;;
     ret (None, contractReceipts))%M.

Definition finish (env : Env) (ws : list TransactionWrapper)
  (r : option SendTransactionsResponse * list ContractReceipt)
  (beforeResult : option BeforeResult) : M unit :=
  ((if negb (safe env)
    then finalizeEoa env ws (snd r) beforeResult
    else finalizeSafe env (fst r) beforeResult) ;;
   modify (set_isRetrying false) ;;
   modify (set_isExecutionCompleted true))%M.

(** The two states of the finalization of the direct-signing path. *)
Definition finalizingState (env : Env) (ws : list TransactionWrapper) (s : State) : State :=
  match lastWrapper ws s with
  | Some w => stFinalizing env (w_title w) s
  | None => s
  end.

Definition finalizedState (ws : list TransactionWrapper) (s : State) : State :=
  match lastWrapper ws s with
  | Some w => stFinalized (w_title w) s
  | None => s
  end.

(** [transactionWrappers[transactionsTimeline.length - 1]] is [undefined]
    while the timeline has rows: the first update of the finalization
    throws. *)
Definition finalizeBlocked (ws : list TransactionWrapper) (s : State) : bool :=
  match lastWrapper ws s, transactionsTimeline s with
  | None, _ :: _ => true
  | _, _ => false
  end.

Definition completed (s : State) : State :=
  set_isExecutionCompleted true (set_isRetrying false s).

(** What the direct-signing path requires of the estimate for wrapper [i]. *)
Definition validEstimate (simulationRes : JsValue) (i : nat) : bool :=
  match getIndex simulationRes i with
  | Returned entry =>
      match getProperty entry "estimatedGas" with
      | Returned (JsNumber g) => negb (Qle_bool g 0)
      | _ => false
      end
  | Threw _ => false
  end.

Definition estimateUnusable (env : Env) (addr : string) (ws : list TransactionWrapper)
  (i : nat) : Prop :=
  match simulate env (simulationRequests env addr ws) with
  | Returned simulationRes => validEstimate simulationRes i = false
  | Threw _ => True
  end.

(** The direct-signing path gets the estimates it needs: none, or a usable
    one for every flagged wrapper. *)
Definition estimatesUsable (env : Env) (addr : string) (ws : list TransactionWrapper)
  : Prop :=
  needToSimulate env (withoutGas ws) = false \/
  exists simulationRes,
    simulate env (simulationRequests env addr ws) = Returned simulationRes /\
    forall i w,
      nth_error ws i = Some w -> applyGasBuffer w = true ->
      validEstimate simulationRes i = true.

Definition isSend (ev : Event) : bool :=
  match ev with
  | SendTransaction _ _ => true
  | _ => false
  end.

(** [n] is the ceiling of [x]. *)
Definition isCeilingOf (x : Q) (n : Z) : Prop :=
  (x <= inject_Z n)%Q /\ (inject_Z n - 1 < x)%Q.

(** A run keeps [I] at every logged call and ends in [Q]. *)
Definition holds {A} (m : M A) (s : State) (I : Event -> State -> Prop)
  (Q : Outcome A -> State -> Prop) : Prop :=
  (forall ev st, In (ev, st) (trace (m s)) -> I ev st) /\ Q (outcome (m s)) (final (m s)).

(** The wrappers built by the hooks of this attempt ([[]] when a hook throws). *)
Definition beforeValue (env : Env) : option BeforeResult :=
  match before env with
  | Some (Returned b) => Some b
  | _ => None
  end.

Definition attemptWrappers (env : Env) : list TransactionWrapper :=
  match before env with
  | Some (Threw _) => []
  | _ => match transactionsBuilder env (beforeValue env) with
         | Returned ws => ws
         | Threw _ => []
         end
  end.

Definition walletAddress (env : Env) : string :=
  match address env with Some a => a | None => "" end.

(** The timeline has one row per wrapper of [ws], in order, joined by title. *)
Definition aligned (ws : list TransactionWrapper) (s : State) : Prop :=
  map title (transactionsTimeline s) = map w_title ws.

Definition confirmedBelow (i : nat) (s : State) : Prop :=
  forall j item,
    (j < i)%nat -> nth_error (transactionsTimeline s) j = Some item ->
    status item = confirmed.

Definition allConfirmed (s : State) : Prop :=
  Forall (fun item => status item = confirmed) (transactionsTimeline s).

(** The signer accepts and confirms whatever it is asked to submit. *)
Definition signerAccepts (env : Env) : Prop :=
  signer env = true /\
  forall i req, exists txResponse receipt,
    sendTransaction env i req = Returned txResponse /\
    wait txResponse = Returned receipt.

(** Every hook of the attempt returns. *)
Definition hooksSucceed (env : Env) : Prop :=
  truthyString (address env) = true /\
  (forall e, before env <> Some (Threw e)) /\
  (exists ws, transactionsBuilder env (beforeValue env) = Returned ws) /\
  (forall hook receipts, after env = Some hook ->
     hook receipts (beforeValue env) = Returned tt) /\
  (forall hook response, afterSafe env = Some hook ->
     hook response (beforeValue env) = Returned tt).

(** Nothing fails on the direct-signing path: the estimates (when some are
    needed) are usable and the signer accepts. *)
Definition eoaSucceeds (env : Env) : Prop :=
  signerAccepts env /\
  exists txs, resolveGas env (walletAddress env) (attemptWrappers env) = Returned txs.

(** Nothing fails on the Safe path, which is handed a single wrapper. *)
Definition safeSucceeds (env : Env) : Prop :=
  List.length (attemptWrappers env) = 1%nat /\
  (exists gas, safeGas env (walletAddress env) (attemptWrappers env) = Returned gas) /\
  (exists txs, safeTxs (attemptWrappers env) = Returned txs) /\
  (forall txs gas, exists response, safeSend env txs gas = Returned response).

Definition attemptSucceeds (env : Env) : Prop :=
  hooksSucceed env /\ if safe env then safeSucceeds env else eoaSucceeds env.

(** The timeline an attempt entered at index [k] may start from: not yet
    initialized on a first attempt, or matching the wrappers, with every row
    below [k] confirmed, on a retry. *)
Definition retryReady (ws : list TransactionWrapper) (k : Z) (s : State) : Prop :=
  (transactionsTimeline s = [] /\ k = 0) \/
  (transactionsTimeline s <> [] /\ aligned ws s /\ 0 <= k /\
   confirmedBelow (Z.to_nat k) s).

Definition afterThrows (env : Env) : Prop :=
  exists hook receipts e,
    after env = Some hook /\ hook receipts (beforeValue env) = Threw e.

Definition settledStatuses (env : Env) (s : State) : Prop :=
  if safe env then
    exists item, transactionsTimeline s = [item] /\ status item = submittedToSafe
  else
    allConfirmed s \/
    (afterThrows env /\
     Forall (fun item => status item = confirmed \/ status item = finalizing)
       (transactionsTimeline s)).


Definition isHookCall (ev : Event) : bool :=
  match ev with
  | CallBefore | CallTransactions _ => true
  | _ => false
  end.

(** No failure is on display: nothing is recorded and no row is [failed] or
    [rejected]. *)
Definition calm (s : State) : Prop :=
  failedTxIndex s = -1 /\
  Forall (fun item => status item <> failed /\ status item <> rejected)
    (transactionsTimeline s).

(** The retry action cannot be taken while the state is shown. *)
Definition guarded (s : State) : Prop := isRetrying s = true \/ calm s.

(** ** Vocabulary of the further properties *)

(** What the signer does with the wrapper at index [j]. *)
Inductive Submission :=
| Confirmed (txHash : string) (receipt : ContractReceipt)
| Failed (e : Error) (link : option string).

Definition submit (env : Env) (j : nat) (tx : TransactionWrapperWithGasLimit) : Submission :=
  if signer env then
    match sendTransaction env j (transactionRequest tx) with
    | Returned txResponse =>
        match wait txResponse with
        | Returned receipt => Confirmed (hash txResponse) receipt
        | Threw e =>
            Failed e (Some (etherscanLink env (network_name env) (hash txResponse)))
        end
    | Threw e => Failed e None
    end
  else Failed Unreachable None.

Definition confirmedRow (env : Env) (receipt : ContractReceipt)
  (item : TransactionTimelineItem) : TransactionTimelineItem :=
  {| title := title item;
     estimatedGas := estimatedGas item;
     message := "Transaction confirmed";
     etherscanUrl := Some (etherscanLink env (network_name env) (transactionHash receipt));
     status := confirmed |}.

Definition failedRow (e : Error) (link : option string)
  (item : TransactionTimelineItem) : TransactionTimelineItem :=
  {| title := title item;
     estimatedGas := estimatedGas item;
     message := if isRejection e then "You rejected the transaction"
                else "Transaction failed";
     etherscanUrl := match link with Some l => Some l | None => etherscanUrl item end;
     status := if isRejection e then rejected else failed |}.

(** The row of the wrapper being submitted, as the [try] block leaves it
    when it is interrupted: awaiting the signature, or pending under the
    explorer link of the submission. *)
Definition stalledRow (link : option string) (item : TransactionTimelineItem)
  : TransactionTimelineItem :=
  {| title := title item;
     estimatedGas := estimatedGas item;
     message := match link with
                | Some _ => "Waiting for confirmation"
                | None => "Waiting for you to confirm in your wallet"
                end;
     etherscanUrl := match link with Some l => Some l | None => etherscanUrl item end;
     status := match link with Some _ => pending | None => awaitingSignature end |}.

(** The row of a wrapper that was not confirmed, after the [catch] block:
    marked, or left as it was when the caught value cannot be classified. *)
Definition rowAfterFailure (e : Error) (link : option string)
  (item : TransactionTimelineItem) : TransactionTimelineItem :=
  if hasMessage e then failedRow e link item else stalledRow link item.

Definition confirmedAt (env : Env) (all : list TransactionWrapperWithGasLimit) (m : nat)
  : Prop :=
  exists tx txHash receipt,
    nth_error all m = Some tx /\ submit env m tx = Confirmed txHash receipt.

(** A call made by the loop entered at [i]: it concerns a wrapper at or
    after [i], and every wrapper from [i] up to it has been confirmed. *)
Definition orderly (env : Env) (all : list TransactionWrapperWithGasLimit) (i : nat)
  (ev : Event) : Prop :=
  match ev with
  | SendTransaction j req =>
      (i <= j)%nat /\
      (exists tx, nth_error all j = Some tx /\ req = transactionRequest tx) /\
      forall m, (i <= m < j)%nat -> confirmedAt env all m
  | WaitReceipt j txHash =>
      (i <= j)%nat /\
      (exists tx txResponse,
         nth_error all j = Some tx /\
         sendTransaction env j (transactionRequest tx) = Returned txResponse /\
         txHash = hash txResponse) /\
      forall m, (i <= m < j)%nat -> confirmedAt env all m
  | _ => False
  end.

(** The timeline has one row per wrapper of [all], under distinct titles. *)
Definition keyed (all : list TransactionWrapperWithGasLimit) (s : State) : Prop :=
  NoDup (map title (transactionsTimeline s)) /\
  map (fun tx => w_title (wrapper tx)) all = map title (transactionsTimeline s).

(** How the loop stops at index [j], having collected [receipts]: the batch
    is exhausted; or the wrapper at [j] was not confirmed and the failure is
    on record; or it was not confirmed and the [catch] block threw in turn,
    leaving nothing on record. *)
Definition loopStop (env : Env) (all : list TransactionWrapperWithGasLimit) (j : nat)
  (s : State) (receipts : list ContractReceipt)
  (o : Outcome (list ContractReceipt)) (s' : State) : Prop :=
  (nth_error all j = None /\
   o = Returned receipts /\
   failedTxIndex s' = failedTxIndex s /\ error s' = error s) \/
  (exists tx e link,
     nth_error all j = Some tx /\
     submit env j tx = Failed e link /\
     if hasMessage e
     then o = Returned receipts /\
          failedTxIndex s' = Z.of_nat j /\
          error s' = (if isRejection e then error s else Some e)
     else o = Threw TypeError /\
          failedTxIndex s' = failedTxIndex s /\ error s' = error s).

(** The wrappers from [i] on whose receipts are [confirmedReceipts] were
    confirmed by the signer, in order. *)
Definition confirmedFrom (env : Env) (all : list TransactionWrapperWithGasLimit) (i : nat)
  (confirmedReceipts : list ContractReceipt) : Prop :=
  forall m receipt,
    nth_error confirmedReceipts m = Some receipt ->
    exists tx txHash,
      nth_error all (i + m) = Some tx /\
      submit env (i + m)%nat tx = Confirmed txHash receipt.

(** The rows after the loop entered at [i] has confirmed [confirmedReceipts]
    and stopped: those of the confirmed wrappers, that of the wrapper it
    stopped at, and the others. *)
Definition rowsAfterLoop (env : Env) (all : list TransactionWrapperWithGasLimit) (i : nat)
  (confirmedReceipts : list ContractReceipt) (s s' : State) : Prop :=
  let n := List.length confirmedReceipts in
  (forall m receipt item,
     nth_error confirmedReceipts m = Some receipt ->
     nth_error (transactionsTimeline s) (i + m) = Some item ->
     nth_error (transactionsTimeline s') (i + m) = Some (confirmedRow env receipt item)) /\
  (forall tx e link item,
     nth_error all (i + n) = Some tx ->
     submit env (i + n)%nat tx = Failed e link ->
     nth_error (transactionsTimeline s) (i + n) = Some item ->
     nth_error (transactionsTimeline s') (i + n) = Some (rowAfterFailure e link item)) /\
  (forall j item,
     (j < i \/ i + n < j)%nat ->
     nth_error (transactionsTimeline s) j = Some item ->
     nth_error (transactionsTimeline s') j = Some item).

(** What the loop entered at [i] with receipts [rs] leaves. *)
Definition loopOutcome (env : Env) (all : list TransactionWrapperWithGasLimit) (i : nat)
  (s : State) (rs : list ContractReceipt)
  (o : Outcome (list ContractReceipt)) (s' : State) : Prop :=
  exists confirmedReceipts,
    map title (transactionsTimeline s') = map title (transactionsTimeline s) /\
    isRetrying s' = isRetrying s /\
    isExecutionCompleted s' = isExecutionCompleted s /\
    isErrorDetailsVisible s' = isErrorDetailsVisible s /\
    confirmedFrom env all i confirmedReceipts /\
    loopStop env all (i + List.length confirmedReceipts) s
      (rs ++ confirmedReceipts)%list o s' /\
    (keyed all s -> rowsAfterLoop env all i confirmedReceipts s s').

(** A failure is recorded at row [j], which shows it, and the attempt can be
    retried from there. *)
Definition failedAt (ws : list TransactionWrapper) (j : nat) (s : State) : Prop :=
  isExecutionCompleted s = false /\
  failedTxIndex s = Z.of_nat j /\
  (exists item,
     nth_error (transactionsTimeline s) j = Some item /\
     (status item = failed \/ status item = rejected)) /\
  retryReady ws (Z.of_nat j) s.

(** The attempt was interrupted at row [j], whose [catch] block threw in
    turn: nothing is on record, the row still shows the submission in
    progress, and the rows after it are those of [s0]. *)
Definition stalledAt (ws : list TransactionWrapper) (j : nat) (s0 s : State) : Prop :=
  isExecutionCompleted s = false /\
  failedTxIndex s = -1 /\
  (exists item,
     nth_error (transactionsTimeline s) j = Some item /\
     (status item = awaitingSignature \/ status item = pending)) /\
  aligned ws s /\
  confirmedBelow j s /\
  forall i item,
    (j < i)%nat ->
    nth_error (transactionsTimeline s0) i = Some item ->
    nth_error (transactionsTimeline s) i = Some item.

(** The signer does not confirm the wrapper at [j], and what it throws has
    no message. *)
Definition silentFailureAt (env : Env) (all : list TransactionWrapperWithGasLimit) (j : nat)
  : Prop :=
  exists tx e link,
    nth_error all j = Some tx /\
    submit env j tx = Failed e link /\
    hasMessage e = false.

(** The entry state records a failure exactly when some row awaits a retry. *)
Definition failureOnRecord (s : State) : Prop :=
  failedTxIndex s <> -1 <-> existsb needsRetry (transactionsTimeline s) = true.

(** [rs] are the receipts of the wrappers of [all] from index [k] on, each
    confirmed by the signer. *)
Definition receiptsOf (env : Env) (all : list TransactionWrapperWithGasLimit) (k : nat)
  (rs : list ContractReceipt) : Prop :=
  List.length rs = (List.length all - k)%nat /\
  forall m receipt,
    nth_error rs m = Some receipt ->
    exists tx txHash,
      nth_error all (k + m) = Some tx /\
      submit env (k + m)%nat tx = Confirmed txHash receipt.

(** What the [after] hook is given and shown. *)
Definition afterCalledWith (env : Env) (all : list TransactionWrapperWithGasLimit) (k : nat)
  (ev : Event) (st : State) : Prop :=
  forall rs b,
    ev = CallAfter rs b ->
    b = beforeValue env /\
    receiptsOf env all k rs /\
    isExecutionCompleted st = false /\
    Forall (fun item => status item = confirmed \/ status item = finalizing)
      (transactionsTimeline st).

(** The calls an attempt may make, by signing path; a result is only ever
    dispatched as a failure that carries its error. *)
Definition ownCall (isSafe : bool) (ev : Event) : bool :=
  match ev with
  | SendTransaction _ _ | WaitReceipt _ _ | CallAfter _ _ => negb isSafe
  | SafeSend _ _ | CallAfterSafe _ _ => isSafe
  | DispatchResult success (Some _) => negb success
  | DispatchResult _ None => false
  | CallBefore | CallTransactions _ | FetchSimulate _ => true
  end.

(** [st] is shown at some point of the run [r]: while a call is pending, or
    at its end. *)
Definition shownIn {A} (r : Run A) (st : State) : Prop :=
  st = final r \/ exists ev, In (ev, st) (trace r).

(** The titles of the rows of [st], as an attempt entered in [s] may show
    them. *)
Definition sameRows (env : Env) (s st : State) : Prop :=
  map title (transactionsTimeline st) = map title (transactionsTimeline s) \/
  (transactionsTimeline s = [] /\
   exists ws, transactionsBuilder env (beforeValue env) = Returned ws /\
              map title (transactionsTimeline st) = map w_title ws).

(** The flags an attempt moves in one direction only. *)
Definition flagsKept (s st : State) : Prop :=
  (isExecutionCompleted s = true -> isExecutionCompleted st = true) /\
  (isRetrying st = true -> isRetrying s = true) /\
  (isErrorDetailsVisible st = true -> isErrorDetailsVisible s = true).

(** The calls of the hooks that prepare an attempt, with the state [s] that
    is visible while they are pending. *)
Definition hookCalls (env : Env) (s : State) : list (Event * State) :=
  (match before env with
   | Some _ => [(CallBefore, s)]
   | None => []
   end ++ [(CallTransactions (beforeValue env), s)])%list.

(** What the steps before the timeline is initialized produce: the wrappers
    of the attempt, or the error of the first of them that throws. *)
Definition preparation (env : Env) : Outcome (list TransactionWrapper) :=
  if truthyString (address env) then
    match before env with
    | Some (Threw e) => Threw e
    | _ => transactionsBuilder env (beforeValue env)
    end
  else Threw (AssertionFailed None).

(** What an attempt on the direct-signing path asks of the simulation service
    and of the signer. *)
Definition eoaRequest (env : Env) (ev : Event) : Prop :=
  match ev with
  | FetchSimulate simulations =>
      exists ws,
        transactionsBuilder env (beforeValue env) = Returned ws /\
        needToSimulate env (withoutGas ws) = true /\
        simulations = simulationRequests env (walletAddress env) ws
  | SendTransaction j req =>
      exists ws all tx,
        transactionsBuilder env (beforeValue env) = Returned ws /\
        resolveGas env (walletAddress env) ws = Returned all /\
        nth_error all j = Some tx /\
        req = transactionRequest tx
  | _ => True
  end.

(** ** Sample batches and environments *)

Definition sampleTx (t : string) (buffered : bool) : TransactionWrapper :=
  {| w_title := t;
     transaction := {| to := Some "0xabc"; data := Some "0x00";
                       tx_gasLimit := Some (Finite 21000) |};
     applyGasBuffer := buffered |}.

(** A rendering of caught values, as [`${e}`] gives it for errors of class
    [Error]. *)
Definition renderError (e : Error) : string :=
  match e with
  | Thrown m => "Error: " ++ m
  | ThrownValue => "undefined"
  | TypeError => "TypeError: Cannot read properties of undefined"
  | Unreachable => "Error: Unreachable"
  | AssertionFailed (Some m) => "Error: " ++ m
  | AssertionFailed None => "Error: Assertion failed"
  end.

Definition sampleResponse : Outcome TransactionResponse :=
  Returned {| hash := "0xh"; wait := Returned {| transactionHash := "0xr" |} |}.

(** An aligned simulation response, one [{estimatedGas}] object per request. *)
Definition alignedEstimates (gs : list Q) : Outcome JsValue :=
  Returned (JsArray (map (fun g => JsObject [("estimatedGas", JsNumber g)]) gs)).

Definition sampleEnv (isSafe : bool) (ws : list TransactionWrapper)
  (sim : Outcome JsValue) (send : nat -> Outcome TransactionResponse)
  (safeSubmit : Outcome SendTransactionsResponse) (hook : Outcome unit) : Env :=
  {| isTest := false;
     etherscanLink := fun network txHash => network ++ "/tx/" ++ txHash;
     coerceToNumber := fun _ => NaN;
     numberToString := stringOfZ;
     errorToString := renderError;
     safe := isSafe;
     signer := negb isSafe;
     chainId := 1;
     network_name := "mainnet";
     address := Some "0xme";
     before := None;
     transactionsBuilder := fun _ => Returned ws;
     after := Some (fun _ _ => hook);
     afterSafe := Some (fun _ _ => hook);
     duringAfter := None;
     simulate := fun _ => sim;
     sendTransaction := fun i _ => send i;
     safeSend := fun _ _ => safeSubmit |}.

(** A Safe session in which the user declines the submission. *)
Definition safeRejectionEnv : Env :=
  sampleEnv true [sampleTx "Delete the stream" true] (alignedEstimates [100%Q])
    (fun _ => sampleResponse) (Threw (Thrown "User rejected transaction")) (Returned tt).

(** The same decline on the direct-signing path. *)
Definition eoaRejectionEnv : Env :=
  sampleEnv false [sampleTx "Delete the stream" true] (alignedEstimates [100%Q])
    (fun _ => Threw (Thrown "User rejected transaction"))
    (Returned {| safeTxHash := "0xs" |}) (Returned tt).

(** A Safe session in which everything succeeds. *)
Definition safeSuccessEnv : Env :=
  sampleEnv true [sampleTx "Delete the stream" true] (alignedEstimates [100%Q])
    (fun _ => sampleResponse) (Returned {| safeTxHash := "0xs" |}) (Returned tt).


(** Direct signing of two wrappers; the second submission fails. *)
Definition eoaSecondFailsEnv : Env :=
  sampleEnv false [sampleTx "Approve" true; sampleTx "Transfer" true]
    (alignedEstimates [100%Q; 101%Q])
    (fun i => match i with O => sampleResponse | S _ => Threw (Thrown "nonce too low") end)
    (Returned {| safeTxHash := "0xs" |}) (Returned tt).

(** Direct signing of two wrappers; the first submission fails. *)
Definition eoaFirstFailsEnv : Env :=
  sampleEnv false [sampleTx "Approve" true; sampleTx "Transfer" true]
    (alignedEstimates [100%Q; 101%Q])
    (fun _ => Threw (Thrown "nonce too low"))
    (Returned {| safeTxHash := "0xs" |}) (Returned tt).

(** Direct signing of two wrappers; everything succeeds. *)
Definition eoaSuccessEnv : Env :=
  sampleEnv false [sampleTx "Approve" true; sampleTx "Transfer" false]
    (alignedEstimates [100%Q; 101%Q])
    (fun _ => sampleResponse) (Returned {| safeTxHash := "0xs" |}) (Returned tt).

(** Direct signing of two wrappers; the simulation service is down. *)
Definition eoaSimulationDownEnv : Env :=
  sampleEnv false [sampleTx "Approve" false; sampleTx "Transfer" true]
    (Threw (Thrown "Service unavailable"))
    (fun _ => sampleResponse) (Returned {| safeTxHash := "0xs" |}) (Returned tt).

(** Direct signing of two wrappers; the second estimate is not positive. *)
Definition eoaZeroEstimateEnv : Env :=
  sampleEnv false [sampleTx "Approve" true; sampleTx "Transfer" true]
    (alignedEstimates [100%Q; 0%Q])
    (fun _ => sampleResponse) (Returned {| safeTxHash := "0xs" |}) (Returned tt).

(** Direct signing of one wrapper whose estimate is the largest safe
    integer, [2 ^ 53 - 1]. *)
Definition eoaHugeEstimateEnv : Env :=
  sampleEnv false [sampleTx "Approve" true]
    (alignedEstimates [9007199254740991%Q])
    (fun _ => sampleResponse) (Returned {| safeTxHash := "0xs" |}) (Returned tt).

(** Direct signing of two wrappers; the second submission is refused with a
    value that has no message. *)
Definition eoaSilentFailureEnv : Env :=
  sampleEnv false [sampleTx "Approve" true; sampleTx "Transfer" true]
    (alignedEstimates [100%Q; 101%Q])
    (fun i => match i with O => sampleResponse | S _ => Threw ThrownValue end)
    (Returned {| safeTxHash := "0xs" |}) (Returned tt).

(** The state left by the attempt whose second submission failed. *)
Definition afterSecondFailure : State :=
  final (executeTransactions eoaSecondFailsEnv 0 initialState).


Definition events {A} (r : Run A) : list Event := map fst (trace r).

Definition statuses (s : State) : list Status := map status (transactionsTimeline s).

(** The wrappers of the attempt whose second submission fails, with their
    resolved gas limits, and the timeline it starts from. *)
Definition secondFailsBatch : list TransactionWrapperWithGasLimit :=
  match resolveGas eoaSecondFailsEnv "0xme" (attemptWrappers eoaSecondFailsEnv) with
  | Returned all => all
  | Threw _ => []
  end.

Definition secondFailsStart : State :=
  initState eoaSecondFailsEnv (attemptWrappers eoaSecondFailsEnv) initialState.

(** The state left by the Safe session in which the user declined. *)
Definition afterSafeRejection : State :=
  final (executeTransactions safeRejectionEnv 0 initialState).

(** An environment whose [transactions] hook throws. *)
Definition builderThrowsEnv : Env :=
  {| isTest := false;
     etherscanLink := fun network txHash => network ++ "/tx/" ++ txHash;
     coerceToNumber := fun _ => NaN;
     numberToString := stringOfZ;
     errorToString := renderError;
     safe := false;
     signer := true;
     chainId := 1;
     network_name := "mainnet";
     address := Some "0xme";
     before := Some (Returned 7%nat);
     transactionsBuilder := fun _ => Threw (Thrown "RPC unavailable");
     after := None;
     afterSafe := None;
     duringAfter := None;
     simulate := fun _ => Threw (Thrown "Service unavailable");
     sendTransaction := fun _ _ => sampleResponse;
     safeSend := fun _ _ => Threw (Thrown "no Safe") |}.

Definition sampleSplitsTx (context : BeforeResult) : Transaction :=
  {| to := Some "0xcaller"; data := Some "0x5P"; tx_gasLimit := Some (Finite 300000) |}.

Definition sampleDeleteTx (context : BeforeResult) : Outcome Transaction :=
  Returned {| to := Some "0xcaller"; data := Some "0xde1"; tx_gasLimit := None |}.

(** A direct-signing session of the edit-project-splits flow. *)
Definition updateSplitsEnv : Env :=
  {| isTest := false;
     etherscanLink := fun network txHash => network ++ "/tx/" ++ txHash;
     coerceToNumber := fun _ => NaN;
     numberToString := stringOfZ;
     errorToString := renderError;
     safe := false;
     signer := true;
     chainId := 1;
     network_name := "mainnet";
     address := Some "0xme";
     before := Some (Returned 7%nat);
     transactionsBuilder := updateSplitsTransactions sampleSplitsTx;
     after := Some (fun _ _ => Returned tt);
     afterSafe := None;
     duringAfter := None;
     simulate := fun _ => Threw (Thrown "Service unavailable");
     sendTransaction := fun _ _ => sampleResponse;
     safeSend := fun _ _ => Threw (Thrown "no Safe") |}.

(** A direct-signing session of the delete-stream flow. *)
Definition deleteStreamEnv : Env :=
  {| isTest := false;
     etherscanLink := fun network txHash => network ++ "/tx/" ++ txHash;
     coerceToNumber := fun _ => NaN;
     numberToString := stringOfZ;
     errorToString := renderError;
     safe := false;
     signer := true;
     chainId := 1;
     network_name := "mainnet";
     address := Some "0xme";
     before := Some (Returned 7%nat);
     transactionsBuilder := deleteStreamTransactions sampleDeleteTx;
     after := Some (fun _ _ => Returned tt);
     afterSafe := None;
     duringAfter := None;
     simulate := fun _ => alignedEstimates [101%Q];
     sendTransaction := fun _ _ => sampleResponse;
     safeSend := fun _ _ => Threw (Thrown "no Safe") |}.

(** ** Properties *)

(** *** Rules of the run logic *)

Lemma holds_ret {A} (a : A) s I (Q : Outcome A -> State -> Prop) :
  Q (Returned a) s -> holds (ret a) s I Q.
Proof. intros H. split; [intros ev st []|exact H]. Qed.

Lemma holds_throw {A} e s I (Q : Outcome A -> State -> Prop) :
  Q (Threw e) s -> holds (throw e) s I Q.
Proof. intros H. split; [intros ev st []|exact H]. Qed.

Lemma holds_lift {A} (o : Outcome A) s I (Q : Outcome A -> State -> Prop) :
  Q o s -> holds (lift o) s I Q.
Proof. intros H. split; [intros ev st []|exact H]. Qed.

Lemma holds_get s I (Q : Outcome State -> State -> Prop) :
  Q (Returned s) s -> holds get s I Q.
Proof. intros H. split; [intros ev st []|exact H]. Qed.

Lemma holds_modify f s I (Q : Outcome unit -> State -> Prop) :
  Q (Returned tt) (f s) -> holds (modify f) s I Q.
Proof. intros H. split; [intros ev st []|exact H]. Qed.

Lemma holds_call {A} ev (o : Outcome A) s (I : Event -> State -> Prop)
  (Q : Outcome A -> State -> Prop) :
  I ev s -> Q o s -> holds (call ev o) s I Q.
Proof.
  intros HI HQ. split; [|exact HQ].
  intros ev' st [Heq|[]]. inversion Heq; subst. exact HI.
Qed.

Lemma holds_bind {A B} (m : M A) (f : A -> M B) s I (Q : Outcome B -> State -> Prop) :
  holds m s I (fun o s' => match o with
                           | Returned a => holds (f a) s' I Q
                           | Threw e => Q (Threw e) s'
                           end) ->
  holds (bind m f) s I Q.
Proof.
  unfold holds, bind. destruct (m s) as [[a|e] s1 t1]; cbn [outcome final trace].
  - intros [Ht [Ht' Hq]]. destruct (f a s1) as [o s2 t2]; cbn [outcome final trace] in *.
    split; [|exact Hq].
    intros ev st Hin. apply in_app_or in Hin. destruct Hin; auto.
  - intros [Ht Hq]. split; assumption.
Qed.

Lemma holds_tryCatch {A} (m : M A) (h : Error -> M A) s I
  (Q : Outcome A -> State -> Prop) :
  holds m s I (fun o s' => match o with
                           | Returned a => Q (Returned a) s'
                           | Threw e => holds (h e) s' I Q
                           end) ->
  holds (tryCatch m h) s I Q.
Proof.
  unfold holds, tryCatch. destruct (m s) as [[a|e] s1 t1]; cbn [outcome final trace].
  - intros [Ht Hq]. split; assumption.
  - intros [Ht [Ht' Hq]]. destruct (h e s1) as [o s2 t2]; cbn [outcome final trace] in *.
    split; [|exact Hq].
    intros ev st Hin. apply in_app_or in Hin. destruct Hin; auto.
Qed.

Lemma holds_weaken {A} (m : M A) s (I I' : Event -> State -> Prop)
  (Q Q' : Outcome A -> State -> Prop) :
  holds m s I Q ->
  (forall ev st, I ev st -> I' ev st) ->
  (forall o s', Q o s' -> Q' o s') ->
  holds m s I' Q'.
Proof. intros [Ht Hq] HI HQ. split; auto. Qed.

Lemma holds_assert cond msg s I (Q : Outcome unit -> State -> Prop) :
  (cond = true -> Q (Returned tt) s) ->
  (cond = false -> Q (Threw (AssertionFailed msg)) s) ->
  holds (assert cond msg) s I Q.
Proof.
  intros Ht Hf. unfold assert. destruct cond.
  - apply holds_ret; auto.
  - apply holds_throw; auto.
Qed.

Lemma catchEnds_intro {A} (Q : Outcome A -> State -> Prop) (recorded : A) e onRecord s :
  (hasMessage e = true -> Q (Returned recorded) onRecord) ->
  (hasMessage e = false -> Q (Threw TypeError) s) ->
  catchEnds Q recorded e onRecord s.
Proof. unfold catchEnds. destruct (hasMessage e); auto. Qed.

Lemma catchEnds_state {A} (P : State -> Prop) (recorded : A) e onRecord s :
  P onRecord -> P s -> catchEnds (fun _ s' => P s') recorded e onRecord s.
Proof. intros H1 H2. apply catchEnds_intro; auto. Qed.

Section Properties.

Variable env : Env.

Lemma iteration_correct i executingTx s :
  tryCatch
    (receipt <- submitAndConfirm env i executingTx ;; ret (Some receipt))
    (fun e => recordFailure (Z.of_nat i) (Some (wrapper executingTx)) e ;; ret None) s
  = iteration env i executingTx s.
Proof.
  unfold iteration, submitAndConfirm, recordFailure, tryCatch, bind, ret, call, throw,
    updateTransactionTimelineStatus, modify, stFailure.
  cbn [outcome final trace app].
  destruct (signer env); cbn [outcome final trace app].
  - destruct (sendTransaction env i (transactionRequest executingTx)) as [resp|e];
      cbn [outcome final trace app].
    + destruct (wait resp) as [receipt|e]; cbn [outcome final trace app]; [reflexivity|].
      destruct (hasMessage e); [|reflexivity]. destruct (isRejection e); reflexivity.
    + destruct (hasMessage e); [|reflexivity]. destruct (isRejection e); reflexivity.
  - reflexivity.
Qed.

Lemma eoaLoop_cons i executingTx rest receipts s :
  eoaLoop env i (executingTx :: rest) receipts s =
  match iteration env i executingTx s with
  | {| outcome := Returned (Some receipt); final := s1; trace := t1 |} =>
      match eoaLoop env (S i) rest (receipts ++ [receipt]) s1 with
      | {| outcome := o; final := s2; trace := t2 |} =>
          {| outcome := o; final := s2; trace := t1 ++ t2 |}
      end
  | {| outcome := Returned None; final := s1; trace := t1 |} =>
      {| outcome := Returned receipts; final := s1; trace := t1 ++ [] |}
  | {| outcome := Threw e; final := s1; trace := t1 |} =>
      {| outcome := Threw e; final := s1; trace := t1 |}
  end.
Proof.
  cbn [eoaLoop]. unfold bind at 1. rewrite iteration_correct.
  destruct (iteration env i executingTx s) as [[[receipt|]|e] s1 t1]; reflexivity.
Qed.

End Properties.

(** *** The timeline operations *)

Lemma updateTimeline_length t u tl :
  List.length (updateTimeline t u tl) = List.length tl.
Proof. apply length_map. Qed.

Lemma updateTimeline_titles t u tl :
  map title (updateTimeline t u tl) = map title tl.
Proof.
  unfold updateTimeline. rewrite map_map. apply map_ext.
  intros item. destruct (String.eqb (title item) t); reflexivity.
Qed.

Lemma updateTimeline_Forall (P : TransactionTimelineItem -> Prop) t u tl :
  Forall P tl ->
  (forall item, P item -> title item = t -> P (applyUpdates item u)) ->
  Forall P (updateTimeline t u tl).
Proof.
  intros Hall Hupd. unfold updateTimeline. apply Forall_map.
  eapply Forall_impl; [|exact Hall]. cbn. intros item HP.
  destruct (String.eqb (title item) t) eqn:E; [|exact HP].
  apply Hupd; [exact HP|]. now apply String.eqb_eq.
Qed.

Lemma updateTimeline_nth t u tl j :
  nth_error (updateTimeline t u tl) j =
  option_map (fun item => if String.eqb (title item) t then applyUpdates item u else item)
    (nth_error tl j).
Proof. unfold updateTimeline. apply nth_error_map. Qed.

Lemma mapi_length {A B} (f : nat -> A -> B) i l : List.length (mapi f i l) = List.length l.
Proof. revert i. induction l as [|x l IH]; intros i; cbn; [reflexivity|]. now rewrite IH. Qed.

Lemma mapi_nth {A B} (f : nat -> A -> B) i l j :
  nth_error (mapi f i l) j = option_map (f (i + j)%nat) (nth_error l j).
Proof.
  revert i j. induction l as [|x l IH]; intros i j; destruct j; cbn; try reflexivity.
  - now rewrite Nat.add_0_r.
  - rewrite IH. now rewrite Nat.add_succ_r.
Qed.

Lemma mapi_Forall {A B} (P : B -> Prop) (f : nat -> A -> B) i l :
  (forall j x, P (f j x)) -> Forall P (mapi f i l).
Proof.
  intros H. revert i. induction l as [|x l IH]; intros i; cbn; constructor; auto.
Qed.

Lemma mapi_map {A B C} (g : B -> C) (f : nat -> A -> B) i l :
  map g (mapi f i l) = mapi (fun j x => g (f j x)) i l.
Proof. revert i. induction l as [|x l IH]; intros i; cbn; [reflexivity|]. now rewrite IH. Qed.

Lemma mapi_const {A B} (f : A -> B) i l : mapi (fun _ x => f x) i l = map f l.
Proof. revert i. induction l as [|x l IH]; intros i; cbn; [reflexivity|]. now rewrite IH. Qed.

Lemma recalculate_titles k tl :
  map title (mapi (recalculateItem k) 0 tl) = map title tl.
Proof.
  rewrite mapi_map. rewrite <- (mapi_const title 0%nat tl).
  generalize 0%nat. induction tl as [|x l IH]; intros i; cbn; [reflexivity|].
  rewrite IH. f_equal. unfold recalculateItem.
  destruct (Status_eqb (status x) confirmed); [reflexivity|].
  destruct (Z.of_nat i =? k); reflexivity.
Qed.

Lemma init_titles isSafe ws :
  map title (mapi (initItem isSafe) 0 ws) = map w_title ws.
Proof.
  rewrite mapi_map. exact (mapi_const w_title 0%nat ws).
Qed.

Lemma Status_eqb_eq a b : Status_eqb a b = true <-> a = b.
Proof. destruct a, b; cbn; split; intros H; try reflexivity; discriminate. Qed.

Lemma Status_eqb_neq a b : Status_eqb a b = false <-> a <> b.
Proof. destruct a, b; cbn; split; intros H; try reflexivity; try discriminate; congruence. Qed.

(** *** The signing loop *)

Section Loop.

Variable env : Env.

(** Symbolic execution of one iteration followed by the rest of the loop. *)
Lemma holds_eoaLoop_cons i executingTx rest receipts s I
  (Q : Outcome (list ContractReceipt) -> State -> Prop) :
  let t := w_title (wrapper executingTx) in
  let req := transactionRequest executingTx in
  let s1 := stAwaiting t s in
  (signer env = false -> Q (Returned receipts) (stFailure (Z.of_nat i) t Unreachable s1)) ->
  (signer env = true ->
   I (SendTransaction i req) s1 /\
   (forall e, sendTransaction env i req = Threw e ->
              catchEnds Q receipts e (stFailure (Z.of_nat i) t e s1) s1) /\
   (forall txResponse, sendTransaction env i req = Returned txResponse ->
      let s2 := stPending env t (hash txResponse) s1 in
      I (WaitReceipt i (hash txResponse)) s2 /\
      (forall e, wait txResponse = Threw e ->
                 catchEnds Q receipts e (stFailure (Z.of_nat i) t e s2) s2) /\
      (forall receipt, wait txResponse = Returned receipt ->
         holds (eoaLoop env (S i) rest (receipts ++ [receipt]))
           (stConfirmed env t (transactionHash receipt) s2) I Q))) ->
  holds (eoaLoop env i (executingTx :: rest) receipts) s I Q.
Proof.
  intros t req s1 Hnosigner Hsigner.
  unfold holds. rewrite eoaLoop_cons. unfold iteration. fold t req s1.
  destruct (signer env).
  - destruct (Hsigner eq_refl) as (HI1 & Hthrow & Hret).
    destruct (sendTransaction env i req) as [txResponse|e].
    + destruct (Hret txResponse eq_refl) as (HI2 & Hthrow2 & Hret2).
      destruct (wait txResponse) as [receipt|e].
      * destruct (Hret2 receipt eq_refl) as [Ht Hq].
        destruct (eoaLoop env (S i) rest (receipts ++ [receipt])
                    (stConfirmed env t (transactionHash receipt)
                       (stPending env t (hash txResponse) s1))) as [o s2 t2].
        cbn [outcome final trace] in *. split; [|exact Hq].
        intros ev st [Heq|[Heq|Hin]]; try (inversion Heq; subst; assumption).
        now apply Ht.
      * specialize (Hthrow2 e eq_refl). unfold catchEnds in Hthrow2.
        destruct (hasMessage e); cbn [outcome final trace app]; (split; [|exact Hthrow2]).
        all: intros ev st [Heq|[Heq|[]]]; inversion Heq; subst; assumption.
    + specialize (Hthrow e eq_refl). unfold catchEnds in Hthrow.
      destruct (hasMessage e); cbn [outcome final trace app]; (split; [|exact Hthrow]).
      all: intros ev st [Heq|[]]; inversion Heq; subst; assumption.
  - cbn [outcome final trace app]. split; [intros ev st []|now apply Hnosigner].
Qed.

Lemma holds_eoaLoop_nil i receipts s I
  (Q : Outcome (list ContractReceipt) -> State -> Prop) :
  Q (Returned receipts) s -> holds (eoaLoop env i [] receipts) s I Q.
Proof. intros H. cbn. now apply holds_ret. Qed.

End Loop.

(** *** Symbolic execution of the component's functions *)

Ltac step :=
  cbn beta iota;
  match goal with
  | |- holds (bind _ _) _ _ _ => apply holds_bind
  | |- holds (tryCatch _ _) _ _ _ => apply holds_tryCatch
  | |- holds (ret _) _ _ _ => apply holds_ret
  | |- holds (throw _) _ _ _ => apply holds_throw
  | |- holds get _ _ _ => apply holds_get
  | |- holds (modify _) _ _ _ => apply holds_modify
  | |- holds (lift _) _ _ _ => apply holds_lift
  | |- holds (call _ _) _ _ _ => apply holds_call
  end; cbn beta iota.

Section Rules.
Variable env : Env.

Lemma holds_init ws s I :
  holds match transactionsTimeline s with
        | [] => initTransactionsTimelineItems ws (safe env)
        | _ :: _ => ret tt
        end s I (fun o s' => o = Returned tt /\ s' = initState env ws s).
Proof.
  unfold initState, initTransactionsTimelineItems.
  destruct (transactionsTimeline s); step; auto.
Qed.

Lemma holds_executeTransactions k s I (Q : Outcome unit -> State -> Prop) :
  let s1 := resetState k s in
  (truthyString (address env) = false -> Q (Threw (AssertionFailed None)) s1) ->
  (truthyString (address env) = true ->
     (forall hook, before env = Some hook -> I CallBefore s1) /\
     (forall e, before env = Some (Threw e) -> Q (Threw e) s1) /\
     ((forall e, before env <> Some (Threw e)) ->
        I (CallTransactions (beforeValue env)) s1 /\
        (forall e, transactionsBuilder env (beforeValue env) = Threw e -> Q (Threw e) s1) /\
        (forall ws, transactionsBuilder env (beforeValue env) = Returned ws ->
           holds (runExecutor env ws k) (initState env ws s1) I
             (fun o s3 =>
                match o with
                | Threw e => Q (Threw e) s3
                | Returned r =>
                    (existsb needsRetry (transactionsTimeline s3) = true ->
                     Q (Returned tt) s3) /\
                    (existsb needsRetry (transactionsTimeline s3) = false ->
                     holds (finish env ws r (beforeValue env)) s3 I Q)
                end)))) ->
  holds (executeTransactions env k) s I Q.
Proof.
  intros s1 Hnoaddr Haddr. unfold executeTransactions.
  step. step. step.
  assert (Hreset : holds (if negb (failedTxIndex s =? -1)
                          then modify (recalculateTimelineStatuses k) else ret tt) s I
                     (fun o s' => o = Returned tt /\ s' = s1)).
  { unfold s1, resetState. destruct (negb (failedTxIndex s =? -1)); step; auto. }
  eapply holds_weaken; [exact Hreset|auto|]. cbn beta.
  intros o s' [-> ->]. step.
  apply holds_assert; [intros Eaddr|now apply Hnoaddr].
  destruct (Haddr Eaddr) as (HIb & Hbthrow & Hrest). clear Haddr Hnoaddr.
  step. unfold beforeValue in Hrest.
  destruct (before env) as [[b|e]|] eqn:Eb.
  2:{ step. step; [now apply (HIb (Threw e))|]. now apply Hbthrow. }
  1: step; step; [now apply (HIb (Returned b))|]; step.
  2: step.
  all: destruct Hrest as (HIt & Htthrow & Hws); [congruence|].
  all: step; step; [exact HIt|].
  all: match goal with
       | |- context [transactionsBuilder env ?b] =>
           destruct (transactionsBuilder env b) as [ws|e] eqn:Et; [|now apply Htthrow]
       end.
  all: specialize (Hws ws eq_refl); step; step; step.
  all: eapply holds_weaken;
         [apply (holds_init ws s1 I)|auto|]; cbn beta; intros o s' [-> ->]; step.
  all: eapply holds_weaken; [exact Hws|auto|]; cbn beta.
  all: intros [r|e] s3 H; [|exact H]; destruct H as [Hretry Hfinish].
  all: step; step.
  all: destruct (existsb needsRetry (transactionsTimeline s3));
         [step; now apply Hretry|now apply Hfinish].
Qed.

Lemma holds_handleEoaTransactions addr ws k s I
  (Q : Outcome (list ContractReceipt) -> State -> Prop) :
  (needToSimulate env (withoutGas ws) = true ->
   I (FetchSimulate (simulationRequests env addr ws)) s) ->
  (forall e, resolveGas env addr ws = Threw e -> Q (Threw e) s) ->
  (forall txs, resolveGas env addr ws = Returned txs ->
     (k < 0 ->
      match transactionsTimeline s with
      | [] => Q (Returned [])
                (set_failedTxIndex k
                   (set_error (Some (if signer env then TypeError else Unreachable)) s))
      | _ :: _ => Q (Threw TypeError) s
      end) /\
     (0 <= k ->
      holds (eoaLoop env (Z.to_nat k) (skipn (Z.to_nat k) txs) []) s I Q)) ->
  holds (handleEoaTransactions env addr ws k) s I Q.
Proof.
  intros HI Hthrow Hloop. unfold handleEoaTransactions.
  fold (withoutGas ws).
  assert (Hreqs : map (fun tx => simulationRequest env addr (transaction (wrapper tx)))
                    (withoutGas ws) = simulationRequests env addr ws).
  { unfold withoutGas, simulationRequests. rewrite map_map. reflexivity. }
  rewrite Hreqs. unfold resolveGas in *.
  step.
  assert (Hgas : holds
    (if needToSimulate env (withoutGas ws)
     then
      tryCatch
        (simulationRes <-
         call (FetchSimulate (simulationRequests env addr ws))
           (simulate env (simulationRequests env addr ws));;
         lift (assignGasLimits env simulationRes 0 (withoutGas ws)))
        (fun e : Error =>
         throw (Thrown ("Unable to estimate gas for transactions: " ++ errorToString env e)))
     else ret (withoutGas ws)) s I
    (fun o s' => s' = s /\ o = resolveGas env addr ws)).
  { unfold resolveGas. destruct (needToSimulate env (withoutGas ws)); [|step; auto].
    step. step. step; [now apply HI|].
    destruct (simulate env (simulationRequests env addr ws)) as [res|e]; [|step; auto].
    step. destruct (assignGasLimits env res 0 (withoutGas ws)); [auto|step; auto]. }
  eapply holds_weaken; [exact Hgas|auto|]. cbn beta. unfold resolveGas.
  intros o s' [-> ->].
  match goal with
  | |- match ?o with _ => _ end => destruct o as [txs|e] eqn:Egas
  end; [|now apply Hthrow].
  destruct (Hloop txs eq_refl) as [Hneg Hpos].
  destruct (k <? 0) eqn:Ek.
  - apply Z.ltb_lt in Ek. specialize (Hneg Ek).
    step. step. step. unfold recordFailure.
    destruct (transactionsTimeline s) eqn:Etl.
    + destruct (signer env); cbn [hasMessage isRejection]; step; step; step; step;
        unfold updateTransactionTimelineStatus.
      all: step; step; rewrite Etl; step; step; step; step; exact Hneg.
    + cbn [hasMessage isRejection]. step. step. step. step.
      unfold updateTransactionTimelineStatus.
      step. step. rewrite Etl. step. exact Hneg.
  - apply Z.ltb_ge in Ek. now apply Hpos.
Qed.

Lemma holds_handleSafeAppTransactions addr ws s I
  (Q : Outcome (option SendTransactionsResponse) -> State -> Prop) :
  I (FetchSimulate (simulationRequests env addr ws)) s ->
  (forall e, safeGas env addr ws = Threw e -> Q (Threw e) s) ->
  (forall gas, safeGas env addr ws = Returned gas ->
     (List.length ws <> 1%nat ->
      Q (Threw (AssertionFailed (Some "Expected only one transaction in Safe mode."))) s) /\
     (forall safeTx, ws = [safeTx] ->
        (forall e, safeTxs ws = Threw e -> Q (Threw e) s) /\
        (forall txs, safeTxs ws = Returned txs ->
           I (SafeSend txs gas) s /\
           (forall response, safeSend env txs gas = Returned response ->
              Q (Returned (Some response)) (stSubmitted (w_title safeTx) s)) /\
           (forall e, safeSend env txs gas = Threw e ->
              catchEnds Q None e (stSafeFailure (w_title safeTx) e s) s)))) ->
  holds (handleSafeAppTransactions env ws addr) s I Q.
Proof.
  intros HI Hthrow Hrest. unfold handleSafeAppTransactions.
  fold (simulationRequests env addr ws). step.
  assert (Hgas : holds
    (tryCatch
       (simulationRes <-
        call (FetchSimulate (simulationRequests env addr ws))
          (simulate env (simulationRequests env addr ws));;
        estimatedGas <- lift (getProperty simulationRes "estimatedGas");;
        ret (getGasBuffer env estimatedGas))
       (fun _ : Error => throw (Thrown "Unable to estimate gas for Safe Batch operation.")))
    s I (fun o s' => s' = s /\ o = safeGas env addr ws)).
  { unfold safeGas. step. step. step; [exact HI|].
    destruct (simulate env (simulationRequests env addr ws)) as [res|e]; [|step; auto].
    step. step.
    destruct (getProperty res "estimatedGas"); [step; auto|]. apply holds_throw; auto. }
  eapply holds_weaken; [exact Hgas|auto|]. cbn beta.
  intros o s' [-> ->].
  destruct (safeGas env addr ws) as [gas|e] eqn:Egas; [|now apply Hthrow].
  destruct (Hrest gas eq_refl) as [Hlen Hone]. clear Hrest.
  step. apply holds_assert.
  2:{ intros Hne. apply Hlen. now apply Nat.eqb_neq. }
  intros Hlen1. apply Nat.eqb_eq in Hlen1.
  destruct ws as [|safeTx [|]]; try discriminate. clear Hlen Hlen1.
  destruct (Hone safeTx eq_refl) as [Hunreach Hsend]. clear Hone.
  step. step.
  destruct (safeTxs [safeTx]) as [txs|e]; [|now apply Hunreach].
  destruct (Hsend txs eq_refl) as (HIs & Hok & Hfail).
  step. step. step; [exact HIs|].
  destruct (safeSend env txs gas) as [response|e].
  - cbn [nth_error]. unfold updateTransactionTimelineStatus. repeat step.
    now apply Hok.
  - specialize (Hfail e eq_refl). unfold catchEnds, stSafeFailure in Hfail.
    cbn [nth_error]. unfold updateTransactionTimelineStatus.
    step. destruct (hasMessage e); [|step; exact Hfail]. step.
    destruct (isRejection e); repeat step; exact Hfail.
Qed.

Lemma lastWrapper_update ws t u s :
  lastWrapper ws (set_transactionsTimeline (updateTimeline t u (transactionsTimeline s)) s)
  = lastWrapper ws s.
Proof.
  unfold lastWrapper. cbn [transactionsTimeline set_transactionsTimeline].
  now rewrite updateTimeline_length.
Qed.

Lemma holds_finish ws r b s I (Q : Outcome unit -> State -> Prop) :
  (safe env = false ->
   (finalizeBlocked ws s = true ->
    I (DispatchResult false (Some TypeError)) s /\ Q (Returned tt) (completed s)) /\
   (finalizeBlocked ws s = false ->
    let s1 := finalizingState env ws s in
    (after env = None -> Q (Returned tt) (completed (finalizedState ws s1))) /\
    (forall hook, after env = Some hook ->
       I (CallAfter (snd r) b) s1 /\
       (hook (snd r) b = Returned tt -> Q (Returned tt) (completed (finalizedState ws s1))) /\
       (forall e, hook (snd r) b = Threw e ->
          I (DispatchResult false (Some e)) s1 /\ Q (Returned tt) (completed s1))))) ->
  (safe env = true ->
   (afterSafe env = None -> Q (Returned tt) (completed s)) /\
   (forall hook, afterSafe env = Some hook ->
      (fst r = None ->
       Q (Threw (AssertionFailed
                   (Some "Expected SafeSendTransactionResponse to be defined."))) s) /\
      (forall response, fst r = Some response ->
         I (CallAfterSafe response b) s /\
         (hook response b = Returned tt -> Q (Returned tt) (completed s)) /\
         (forall e, hook response b = Threw e ->
            I (DispatchResult false (Some e)) s /\ Q (Returned tt) (completed s))))) ->
  holds (finish env ws r b) s I Q.
Proof.
  intros Heoa Hsafe. unfold finish.
  destruct (safe env); cbn [negb].
  - clear Heoa. destruct (Hsafe eq_refl) as [Hnone Hsome]. clear Hsafe.
    unfold finalizeSafe. step.
    destruct (afterSafe env) as [hook|].
    + destruct (Hsome hook eq_refl) as [Hnoresp Hresp].
      destruct (fst r) as [response|]; [|step; now apply Hnoresp].
      destruct (Hresp response eq_refl) as (HI & Hok & Hthrow).
      step. step; [exact HI|].
      destruct (hook response b) as [[]|e].
      * repeat step. now apply Hok.
      * destruct (Hthrow e eq_refl) as [HId Hq].
        step; [exact HId|]. repeat step. exact Hq.
    + repeat step. now apply Hnone.
  - clear Hsafe. destruct (Heoa eq_refl) as [Hblocked Hfree]. clear Heoa.
    unfold finalizeEoa, finalizeBlocked, finalizingState, finalizedState, completed,
      stFinalizing, stFinalized, onTimeline in *.
    step. step. step. step. step. unfold updateTransactionTimelineStatus.
    destruct (lastWrapper ws s) as [w|] eqn:Elast.
    + destruct (Hfree eq_refl) as [Hnone Hsome]. clear Hfree Hblocked.
      step. step.
      destruct (after env) as [hook|].
      * destruct (Hsome hook eq_refl) as (HI & Hok & Hthrow).
        step; [exact HI|].
        destruct (hook (snd r) b) as [[]|e].
        -- step. step. rewrite lastWrapper_update, Elast.
           repeat step. rewrite lastWrapper_update, Elast in Hok. now apply Hok.
        -- destruct (Hthrow e eq_refl) as [HId Hq].
           step; [exact HId|]. repeat step. exact Hq.
      * step. step. step. rewrite lastWrapper_update, Elast.
        repeat step. rewrite lastWrapper_update, Elast in Hnone. now apply Hnone.
    + step. step. destruct (transactionsTimeline s) as [|item tl] eqn:Etl.
      * destruct (Hfree eq_refl) as [Hnone Hsome]. clear Hfree Hblocked.
        step. step.
        destruct (after env) as [hook|].
        -- destruct (Hsome hook eq_refl) as (HI & Hok & Hthrow).
           step; [exact HI|].
           destruct (hook (snd r) b) as [[]|e].
           ++ step. step. rewrite Elast in *. step. step. rewrite Etl.
              repeat step. now apply Hok.
           ++ destruct (Hthrow e eq_refl) as [HId Hq].
              step; [exact HId|]. repeat step. exact Hq.
        -- step. step. step. rewrite Elast in *. step. step. rewrite Etl.
           repeat step. now apply Hnone.
      * destruct (Hblocked eq_refl) as [HId Hq].
        step. step; [exact HId|]. repeat step. exact Hq.
Qed.
End Rules.

(** *** Attempts that the signing path aborts *)

Lemma bind_get {A} (f : State -> M A) s : bind get f s = f s s.
Proof. unfold bind, get. destruct (f s s). reflexivity. Qed.

Lemma bind_modify {A} g (f : unit -> M A) s : bind (modify g) f s = f tt (g s).
Proof. unfold bind, modify. destruct (f tt (g s)). reflexivity. Qed.

Lemma bind_ret {A B} (a : A) (f : A -> M B) s : bind (ret a) f s = f a s.
Proof. unfold bind, ret. destruct (f a s). reflexivity. Qed.

(** An attempt whose hooks succeed and whose signing path throws: the
    attempt throws the same error, after the calls of the hooks and those of
    the path. *)
Lemma executeTransactions_aborted env k s ws e s3 t :
  truthyString (address env) = true ->
  (forall e', before env <> Some (Threw e')) ->
  transactionsBuilder env (beforeValue env) = Returned ws ->
  runExecutor env ws k (initState env ws (resetState k s))
  = {| outcome := Threw e; final := s3; trace := t |} ->
  executeTransactions env k s
  = {| outcome := Threw e; final := s3;
       trace := (hookCalls env (resetState k s) ++ t)%list |}.
Proof.
  intros Haddr Hnb Hws Hrun.
  unfold executeTransactions. rewrite bind_get.
  assert (Hreset : forall f : unit -> M unit,
            bind (if negb (failedTxIndex s =? -1)
                  then modify (recalculateTimelineStatuses k) else ret tt) f s
            = f tt (resetState k s)).
  { intros f. unfold resetState.
    destruct (negb (failedTxIndex s =? -1)); [apply bind_modify|apply bind_ret]. }
  rewrite Hreset. clear Hreset.
  set (s1 := resetState k s) in *.
  rewrite Haddr. unfold assert. rewrite bind_ret. cbv zeta.
  unfold runExecutor in Hrun. cbv zeta in Hrun.
  assert (Hinit : forall f : unit -> M unit,
            bind (match transactionsTimeline s1 with
                  | [] => initTransactionsTimelineItems ws (safe env)
                  | _ :: _ => ret tt
                  end) f s1
            = f tt (initState env ws s1)).
  { intros f. unfold initState, initTransactionsTimelineItems.
    destruct (transactionsTimeline s1); [apply bind_modify|apply bind_ret]. }
  unfold hookCalls, beforeValue in *.
  destruct (before env) as [[b|e']|].
  - unfold bind at 1. unfold bind at 1. unfold call at 1. cbn beta iota.
    unfold ret at 1. cbn beta iota.
    unfold bind at 1. unfold call at 1. rewrite Hws. cbn beta iota.
    rewrite bind_get, Hinit. unfold bind at 1. rewrite Hrun. reflexivity.
  - now destruct (Hnb e').
  - rewrite bind_ret.
    unfold bind at 1. unfold call at 1. rewrite Hws. cbn beta iota.
    rewrite bind_get, Hinit. unfold bind at 1. rewrite Hrun. reflexivity.
Qed.

(** *** The "Back" button *)

(** C10. The start-over ("Back") action is enabled exactly when
    [failedTxIndex] is 0: it is disabled in the initial state and whenever
    [failedTxIndex] is -1 or an index from 1 on, because the button is
    disabled on the truthiness of [failedTxIndex].  After a failure of the
    first wrapper it is enabled, after a failure of the second it is not. *)
Theorem back_enabled_iff_failed_index_zero :
  (forall s, backDisabled s = false <-> failedTxIndex s = 0) /\
  backDisabled initialState = true /\
  (forall s, backDisabled (set_failedTxIndex (-1) s) = true) /\
  (forall s i, backDisabled (set_failedTxIndex (Z.pos i) s) = true) /\
  backDisabled (final (executeTransactions eoaFirstFailsEnv 0 initialState)) = false /\
  backDisabled (final (executeTransactions eoaSecondFailsEnv 0 initialState)) = true /\
  backDisabled (final (executeTransactions eoaSuccessEnv 0 initialState)) = true.
Proof.
  split; [|repeat split; try reflexivity].
  intros s. unfold backDisabled. split; intros H.
  - apply negb_false_iff in H. now apply Z.eqb_eq.
  - rewrite H. reflexivity.
Qed.

(** *** The Safe path *)





(** C4 (the code departs from the claim). In Safe mode a declined
    submission marks the single row [rejected] but leaves [failedTxIndex] at
    -1, whereas the direct-signing path records the index for the same
    decline.  A retry that is aborted by the simulation likewise ends with a
    [retrying] row and no recorded index. *)
Theorem safe_rejection_leaves_failed_index_unset :
  statuses (final (executeTransactions safeRejectionEnv 0 initialState)) = [rejected] /\
  failedTxIndex (final (executeTransactions safeRejectionEnv 0 initialState)) = -1 /\
  statuses (final (executeTransactions eoaRejectionEnv 0 initialState)) = [rejected] /\
  failedTxIndex (final (executeTransactions eoaRejectionEnv 0 initialState)) = 0 /\
  statuses (final (executeTransactions eoaSimulationDownEnv 1 afterSecondFailure))
  = [confirmed; retrying] /\
  failedTxIndex (final (executeTransactions eoaSimulationDownEnv 1 afterSecondFailure)) = -1.
Proof. repeat split; reflexivity. Qed.

(** C5 (the code departs from the claim). The Safe path reads
    [estimatedGas] off the response itself; on an aligned list that property
    is [undefined], so the gas handed to the Safe is [NaN] and not the
    buffered estimate 125 of the list's element. *)
Theorem safe_gas_from_aligned_list_is_NaN :
  (forall elements, getProperty (JsArray elements) "estimatedGas" = Returned JsUndefined) /\
  (forall env, getGasBuffer env JsUndefined = NaN) /\
  getGasBuffer safeSuccessEnv (JsNumber 100) = Finite 125 /\
  simulate safeSuccessEnv
    (simulationRequests safeSuccessEnv "0xme" (attemptWrappers safeSuccessEnv))
  = Returned (JsArray [JsObject [("estimatedGas", JsNumber 100)]]) /\
  events (executeTransactions safeSuccessEnv 0 initialState)
  = [CallTransactions None;
     FetchSimulate [{| network_id := "1"; from := "0xme";
                       sim_to := Some "0xabc"; input := Some "0x00" |}];
     SafeSend [{| safe_to := "0xabc"; safe_data := "0x00"; safe_value := "0" |}] NaN;
     CallAfterSafe {| safeTxHash := "0xs" |} None].
Proof. repeat split; reflexivity. Qed.

(** *** Gas estimation on the direct-signing path *)

(** *** Arithmetic on doubles *)

Lemma roundHalfEven_Z q z : (q == inject_Z z)%Q -> roundHalfEven q = z.
Proof.
  intros H. unfold roundHalfEven.
  assert (Hf : Qfloor q = z) by (rewrite H; apply Qfloor_Z).
  rewrite Hf.
  assert (Hc : (q - inject_Z z ?= 1 # 2)%Q = Lt).
  { rewrite H. apply Qlt_alt. setoid_replace (inject_Z z - inject_Z z)%Q with 0%Q by ring.
    reflexivity. }
  now rewrite Hc.
Qed.

Lemma pow2_neg E : 0 <= E -> (2 ^ (- E) == / inject_Z (2 ^ E))%Q.
Proof.
  intros HE. rewrite Qpower_opp. apply Qinv_comp.
  rewrite (Zpower_Qpower 2 E HE). reflexivity.
Qed.

Lemma five_quarters_scaled n E :
  2 <= E -> ((inject_Z n * 1.25) / 2 ^ (- E) == inject_Z (5 * n * 2 ^ (E - 2)))%Q.
Proof.
  intros HE. unfold Qdiv. rewrite pow2_neg by lia. rewrite Qinv_involutive.
  replace E with (2 + (E - 2)) at 1 by lia. rewrite Z.pow_add_r by lia.
  unfold Qeq. cbn [Qnum Qden Qmult inject_Z]. change (2 ^ 2) with 4.
  rewrite ?Pos2Z.inj_mul. lia.
Qed.

Lemma five_quarters_unscaled n E :
  2 <= E -> (inject_Z (5 * n * 2 ^ (E - 2)) * 2 ^ (- E) == inject_Z n * 1.25)%Q.
Proof.
  intros HE. rewrite <- (five_quarters_scaled n E HE). unfold Qdiv.
  rewrite <- Qmult_assoc. rewrite (Qmult_comm (/ _)). rewrite Qmult_inv_r; [ring|].
  rewrite pow2_neg by lia. intros H.
  assert (0 < 2 ^ E) by (apply Z.pow_pos_nonneg; lia).
  apply (Qinv_comp) in H. rewrite Qinv_involutive in H.
  unfold Qeq in H. cbn in H. lia.
Qed.

(** For an integer below [2 ^ 50] the product with 1.25 is a double: no
    rounding takes place. *)
Lemma times_five_quarters_exact n :
  0 < n < 2 ^ 50 ->
  exists x, times (Finite (inject_Z n)) (Finite 1.25) = Finite x /\
            (x == inject_Z n * 1.25)%Q.
Proof.
  intros Hn. unfold times, roundToDouble. cbv zeta.
  set (q := (inject_Z n * 1.25)%Q).
  assert (Hpos : (0 < q)%Q) by (unfold q, Qlt; cbn; lia).
  assert (Hc : (q ?= 0)%Q = Gt) by (apply Qgt_alt; exact Hpos).
  rewrite Hc.
  assert (Habs : Qabs q = q).
  { unfold q, Qabs. cbn [Qnum Qden Qmult inject_Z]. rewrite Z.abs_eq by lia. reflexivity. }
  rewrite Habs.
  set (L := ilog2 q).
  assert (HL : -1 <= L <= 50).
  { unfold L, ilog2, q. cbn [Qnum Qden Qmult inject_Z].
    change (Z.log2 (Z.pos (1 * 100))) with 6.
    assert (6 <= Z.log2 (n * 125) <= 56).
    { split.
      - change 6 with (Z.log2 125). apply Z.log2_le_mono. lia.
      - assert (Z.log2 (n * 125) < 57); [|lia].
        apply Z.log2_lt_pow2; [lia|]. change (2 ^ 57) with (2 ^ 50 * 128). lia. }
    destruct (Qle_bool _ _); lia. }
  rewrite Z.max_l by lia.
  replace (L - 52) with (- (52 - L)) by lia.
  assert (HE : 2 <= 52 - L) by lia.
  pose proof (five_quarters_scaled n (52 - L) HE) as Hs. fold q in Hs.
  rewrite (roundHalfEven_Z _ _ Hs).
  assert (Hval : (inject_Z (5 * n * 2 ^ (52 - L - 2)) * 2 ^ (- (52 - L)) == q)%Q)
    by (apply five_quarters_unscaled; exact HE).
  assert (Hno : Qle_bool (2 ^ 1024)
                  (inject_Z (5 * n * 2 ^ (52 - L - 2)) * 2 ^ (- (52 - L))) = false).
  { destruct (Qle_bool _ _) eqn:E; [|reflexivity].
    apply Qle_bool_iff in E. rewrite Hval in E. exfalso.
    assert (q < 2 ^ 1024)%Q; [|now apply (Qlt_not_le _ _ H)].
    apply Qlt_trans with (inject_Z (2 ^ 51)).
    - unfold q, Qlt. cbn [Qnum Qden Qmult inject_Z]. change (2 ^ 51) with (2 ^ 50 * 2). lia.
    - reflexivity. }
  rewrite Hno. eexists. split; [reflexivity|exact Hval].
Qed.

(** Beyond 53 bits the product is rounded before the ceiling is taken. *)
Lemma times_rounds_to_double :
  Math_ceil (times (Finite 9007199254740991) (Finite 1.25)) = Finite 11258999068426238.
Proof. vm_compute. reflexivity. Qed.

Section Gas.
Variable env : Env.

Lemma assignGasLimits_invalid res txs : forall j n tx,
  nth_error txs n = Some tx ->
  applyGasBuffer (wrapper tx) = true ->
  validEstimate res (j + n) = false ->
  exists e, assignGasLimits env res j txs = Threw e.
Proof.
  induction txs as [|tx0 rest IH]; intros j n tx Hn Hflag Hbad; [destruct n; discriminate|].
  cbn [assignGasLimits].
  destruct n as [|n].
  - injection Hn as ->. rewrite Hflag. cbn [negb].
    rewrite Nat.add_0_r in Hbad. unfold validEstimate in Hbad.
    destruct (getIndex res j) as [entry|e]; [|eauto].
    destruct (getProperty entry "estimatedGas") as [[| | |g| | |]|e]; eauto.
    rewrite Hbad. eauto.
  - cbn [nth_error] in Hn. rewrite <- Nat.add_succ_comm in Hbad.
    destruct (IH (S j) n tx Hn Hflag Hbad) as [e He]. rewrite He.
    destruct (negb (applyGasBuffer (wrapper tx0))); [eauto|].
    destruct (getIndex res j) as [entry|e']; [|eauto].
    destruct (getProperty entry "estimatedGas") as [[| | |g| | |]|e']; eauto.
    destruct (negb (Qle_bool g 0)); eauto.
Qed.

Lemma assignGasLimits_spec res txs0 : forall j txs n wg,
  assignGasLimits env res j txs0 = Returned txs ->
  nth_error txs n = Some wg ->
  exists wg0,
    nth_error txs0 n = Some wg0 /\ wrapper wg = wrapper wg0 /\
    (applyGasBuffer (wrapper wg0) = false -> gasLimit wg = gasLimit wg0) /\
    (applyGasBuffer (wrapper wg0) = true ->
     exists entry g,
       getIndex res (j + n) = Returned entry /\
       getProperty entry "estimatedGas" = Returned (JsNumber g) /\
       Qle_bool g 0 = false /\
       gasLimit wg = Some (getGasBuffer env (JsNumber g))).
Proof.
  induction txs0 as [|tx0 rest IH]; intros j txs n wg Hrun Hn.
  - cbn in Hrun. injection Hrun as <-. destruct n; discriminate.
  - cbn [assignGasLimits] in Hrun.
    destruct (applyGasBuffer (wrapper tx0)) eqn:Hflag; cbn [negb] in Hrun.
    + destruct (getIndex res j) as [entry|e] eqn:Hidx; [|discriminate].
      destruct (getProperty entry "estimatedGas") as [[| | |g| | |]|e] eqn:Hprop;
        try discriminate.
      destruct (Qle_bool g 0) eqn:Hpos; cbn [negb] in Hrun; [discriminate|].
      destruct (assignGasLimits env res (S j) rest) as [rest'|e] eqn:Hrest; [|discriminate].
      injection Hrun as <-. destruct n as [|n].
      * injection Hn as <-. exists tx0. cbn [nth_error wrapper gasLimit].
        split; [reflexivity|split; [reflexivity|split]]; [congruence|].
        intros _. exists entry, g. rewrite Nat.add_0_r. auto.
      * cbn [nth_error] in *. rewrite <- Nat.add_succ_comm. eapply IH; eauto.
    + destruct (assignGasLimits env res (S j) rest) as [rest'|e] eqn:Hrest; [|discriminate].
      injection Hrun as <-. destruct n as [|n].
      * injection Hn as <-. exists tx0. cbn [nth_error].
        split; [reflexivity|split; [reflexivity|split]]; [reflexivity|congruence].
      * cbn [nth_error] in *. rewrite <- Nat.add_succ_comm. eapply IH; eauto.
Qed.

(** Every submission of the loop is the request of the wrapper at its index. *)
Lemma eoaLoop_sends txs : forall i receipts s,
  holds (eoaLoop env i txs receipts) s
    (fun ev _ => forall j req, ev = SendTransaction j req ->
       exists n wg, j = (i + n)%nat /\ nth_error txs n = Some wg /\
                    req = transactionRequest wg)
    (fun _ _ => True).
Proof.
  induction txs as [|tx rest IH]; intros i receipts s.
  - now apply holds_eoaLoop_nil.
  - apply holds_eoaLoop_cons; [trivial|]. intros _. split.
    + intros j req Heq. injection Heq as <- <-. exists 0%nat, tx.
      rewrite Nat.add_0_r. auto.
    + split; [intros e _; now apply catchEnds_intro|].
      intros txResponse _. split; [discriminate|].
      split; [intros e _; now apply catchEnds_intro|]. intros receipt _.
      eapply holds_weaken; [apply IH| |trivial]. cbn beta.
      intros ev _ H j req Heq. destruct (H j req Heq) as (n & wg & -> & Hn & ->).
      exists (S n), wg. rewrite Nat.add_succ_comm. auto.
Qed.


Lemma holds_of_run {A} (m : M A) s o s' t (I : Event -> State -> Prop)
  (Q : Outcome A -> State -> Prop) :
  m s = {| outcome := o; final := s'; trace := t |} ->
  (forall ev st, In (ev, st) t -> I ev st) ->
  Q o s' ->
  holds m s I Q.
Proof. intros Hrun HI HQ. unfold holds. rewrite Hrun. split; assumption. Qed.

(** The estimation block of the direct-signing path, run from [s]. *)
Lemma eoa_estimate_run addr ws s :
  (if needToSimulate env (withoutGas ws) then
     tryCatch
       (simulationRes <-
          call (FetchSimulate (simulationRequests env addr ws))
            (simulate env (simulationRequests env addr ws)) ;;
        lift (assignGasLimits env simulationRes 0 (withoutGas ws)))
       (fun e =>
          throw (Thrown ("Unable to estimate gas for transactions: " ++ errorToString env e)))
   else ret (withoutGas ws)) s
  = {| outcome := resolveGas env addr ws;
       final := s;
       trace := if needToSimulate env (withoutGas ws)
                then [(FetchSimulate (simulationRequests env addr ws), s)] else [] |}.
Proof.
  unfold resolveGas. destruct (needToSimulate env (withoutGas ws)); [|reflexivity].
  unfold tryCatch, bind, call, lift, throw.
  destruct (simulate env (simulationRequests env addr ws)) as [res|e]; [|reflexivity].
  destruct (assignGasLimits env res 0 (withoutGas ws)); reflexivity.
Qed.

Lemma handleEoaTransactions_abort addr ws k s e :
  resolveGas env addr ws = Threw e ->
  handleEoaTransactions env addr ws k s
  = {| outcome := Threw e;
       final := s;
       trace := [(FetchSimulate (simulationRequests env addr ws), s)] |}.
Proof.
  intros Hgas. unfold handleEoaTransactions. fold (withoutGas ws).
  replace (map (fun tx => simulationRequest env addr (transaction (wrapper tx)))
             (withoutGas ws))
    with (simulationRequests env addr ws)
    by (unfold withoutGas, simulationRequests; now rewrite map_map).
  unfold bind at 1. rewrite eoa_estimate_run, Hgas.
  unfold resolveGas in Hgas.
  destruct (needToSimulate env (withoutGas ws)); [reflexivity|discriminate].
Qed.

Lemma resolveGas_unusable addr ws i w :
  isTest env = false ->
  nth_error ws i = Some w ->
  applyGasBuffer w = true ->
  estimateUnusable env addr ws i ->
  exists m, resolveGas env addr ws = Threw (Thrown m).
Proof.
  intros Htest Hi Hflag Hbad. unfold resolveGas, needToSimulate. rewrite Htest.
  assert (Hin : nth_error (withoutGas ws) i = Some {| wrapper := w; gasLimit := None |}).
  { unfold withoutGas. rewrite nth_error_map, Hi. reflexivity. }
  replace (existsb (fun tx => applyGasBuffer (wrapper tx)) (withoutGas ws)) with true.
  2:{ symmetry. apply existsb_exists. eexists. split; [eapply nth_error_In; exact Hin|].
      exact Hflag. }
  unfold estimateUnusable in Hbad.
  destruct (simulate env (simulationRequests env addr ws)) as [res|e]; [|eauto].
  destruct (assignGasLimits_invalid res (withoutGas ws) 0 i _ Hin Hflag Hbad) as [e He].
  rewrite He. eauto.
Qed.

(** C8 (amended). On the direct-signing path, when the simulation call fails
    or the estimate of a flagged wrapper is missing, not a number or not
    positive, the path throws before its loop: it leaves the state as it was
    (no row is changed, [failedTxIndex] keeps its value) and the only call
    it makes is the simulation request.  The whole attempt ends in that
    error with nothing submitted: its calls are those of the hooks and the
    simulation request, [failedTxIndex] is -1, and the timeline is the one
    that the reset and the initialization produced: on a first attempt the
    first row is [awaitingSignature] and the others [awaitingPrevious]; on a
    retry after a recorded failure the [confirmed] rows are kept, the
    unconfirmed row at the retry index is [retrying] and the other
    unconfirmed rows are [awaitingPrevious]. *)
Theorem simulation_failure_aborts_before_signing addr ws k s i w :
  isTest env = false ->
  nth_error ws i = Some w ->
  applyGasBuffer w = true ->
  estimateUnusable env addr ws i ->
  ((exists m, outcome (handleEoaTransactions env addr ws k s) = Threw (Thrown m)) /\
   final (handleEoaTransactions env addr ws k s) = s /\
   trace (handleEoaTransactions env addr ws k s)
   = [(FetchSimulate (simulationRequests env addr ws), s)]) /\
  (safe env = false ->
   address env = Some addr ->
   truthyString (address env) = true ->
   (forall e, before env <> Some (Threw e)) ->
   transactionsBuilder env (beforeValue env) = Returned ws ->
   (exists m, outcome (executeTransactions env k s) = Threw (Thrown m)) /\
   final (executeTransactions env k s) = initState env ws (resetState k s) /\
   trace (executeTransactions env k s)
   = (hookCalls env (resetState k s)
      ++ [(FetchSimulate (simulationRequests env addr ws),
           initState env ws (resetState k s))])%list /\
   failedTxIndex (final (executeTransactions env k s)) = -1 /\
   isExecutionCompleted (final (executeTransactions env k s)) = isExecutionCompleted s /\
   (forall j req st, ~ In (SendTransaction j req, st) (trace (executeTransactions env k s))) /\
   (failedTxIndex s = -1 ->
    transactionsTimeline s = [] ->
    transactionsTimeline (final (executeTransactions env k s))
    = mapi (initItem false) 0 ws /\
    forall j item,
      nth_error (transactionsTimeline (final (executeTransactions env k s))) j = Some item ->
      status item = match j with O => awaitingSignature | S _ => awaitingPrevious end) /\
   (failedTxIndex s <> -1 ->
    transactionsTimeline s <> [] ->
    final (executeTransactions env k s) = recalculateTimelineStatuses k s /\
    forall j item,
      nth_error (transactionsTimeline s) j = Some item ->
      nth_error (transactionsTimeline (final (executeTransactions env k s))) j
      = Some (recalculateItem k j item) /\
      status (recalculateItem k j item)
      = if Status_eqb (status item) confirmed then confirmed
        else if Z.of_nat j =? k then retrying else awaitingPrevious)).
Proof.
  intros Htest Hi Hflag Hbad.
  destruct (resolveGas_unusable addr ws i w Htest Hi Hflag Hbad) as [m Hgas].
  split.
  - rewrite (handleEoaTransactions_abort addr ws k s _ Hgas).
    cbn [outcome final trace]. split; [eauto|split; reflexivity].
  - intros Hsafe Haddr Htruthy Hbefore Hbuild.
    assert (Hrun : executeTransactions env k s
                   = {| outcome := Threw (Thrown m);
                        final := initState env ws (resetState k s);
                        trace := (hookCalls env (resetState k s)
                                  ++ [(FetchSimulate (simulationRequests env addr ws),
                                       initState env ws (resetState k s))])%list |}).
    { apply (executeTransactions_aborted env k s ws); [exact Htruthy|exact Hbefore|exact Hbuild|].
      unfold runExecutor. rewrite Hsafe, Haddr. cbv zeta.
      unfold bind at 1. rewrite (handleEoaTransactions_abort addr ws k _ _ Hgas).
      reflexivity. }
    rewrite Hrun. cbn [outcome final trace].
    split; [eauto|]. split; [reflexivity|]. split; [reflexivity|].
    split; [|split; [|split; [|split]]].
    + unfold initState, resetState.
      destruct (negb (failedTxIndex s =? -1)) eqn:E.
      * destruct (transactionsTimeline (recalculateTimelineStatuses k s)); reflexivity.
      * apply negb_false_iff, Z.eqb_eq in E.
        destruct (transactionsTimeline s); exact E.
    + unfold initState, resetState.
      destruct (negb (failedTxIndex s =? -1)).
      * destruct (transactionsTimeline (recalculateTimelineStatuses k s)); reflexivity.
      * destruct (transactionsTimeline s); reflexivity.
    + intros j req st Hin. apply in_app_or in Hin. destruct Hin as [Hin|[Hin|[]]].
      * unfold hookCalls in Hin. apply in_app_or in Hin.
        destruct Hin as [Hin|[Hin|[]]]; [|discriminate].
        destruct (before env); [destruct Hin as [Hin|[]]; discriminate|destruct Hin].
      * discriminate.
    + intros Hidx Hnil.
      assert (Hfinal : initState env ws (resetState k s)
                       = set_transactionsTimeline (mapi (initItem false) 0 ws) s).
      { unfold resetState. rewrite Hidx, Z.eqb_refl. cbn [negb].
        unfold initState. now rewrite Hnil, Hsafe. }
      rewrite Hfinal. cbn [transactionsTimeline set_transactionsTimeline].
      split; [reflexivity|]. intros j item Hj. rewrite mapi_nth in Hj.
      destruct (nth_error ws j); [|discriminate]. injection Hj as <-. reflexivity.
    + intros Hidx Hne. unfold resetState. apply Z.eqb_neq in Hidx. rewrite Hidx.
      cbn [negb]. unfold initState.
      destruct (transactionsTimeline (recalculateTimelineStatuses k s)) eqn:E.
      * exfalso. apply Hne. cbn [transactionsTimeline recalculateTimelineStatuses] in E.
        apply (f_equal (@List.length _)) in E. rewrite mapi_length in E.
        now apply length_zero_iff_nil.
      * split; [reflexivity|]. intros j item Hj.
        cbn [transactionsTimeline recalculateTimelineStatuses].
        split; [rewrite mapi_nth, Hj; reflexivity|].
        unfold recalculateItem.
        destruct (Status_eqb (status item) confirmed) eqn:Ec.
        -- now apply Status_eqb_eq in Ec.
        -- destruct (Z.of_nat j =? k); reflexivity.
Qed.

Lemma assignGasLimits_wrappers res txs0 : forall j txs,
  assignGasLimits env res j txs0 = Returned txs ->
  map wrapper txs = map wrapper txs0.
Proof.
  induction txs0 as [|tx0 rest IH]; intros j txs Hrun; cbn [assignGasLimits] in Hrun.
  - injection Hrun as <-. reflexivity.
  - destruct (negb (applyGasBuffer (wrapper tx0))).
    + destruct (assignGasLimits env res (S j) rest) as [rest'|e] eqn:Hrest; [|discriminate].
      injection Hrun as <-. cbn [map]. f_equal. eapply IH; eauto.
    + destruct (getIndex res j) as [entry|e]; [|discriminate].
      destruct (getProperty entry "estimatedGas") as [[| | |g| | |]|e]; try discriminate.
      destruct (negb (Qle_bool g 0)); [|discriminate].
      destruct (assignGasLimits env res (S j) rest) as [rest'|e] eqn:Hrest; [|discriminate].
      injection Hrun as <-. cbn [map wrapper]. f_equal. eapply IH; eauto.
Qed.

Lemma resolveGas_wrappers addr ws txs :
  resolveGas env addr ws = Returned txs -> map wrapper txs = ws.
Proof.
  assert (Hws : map wrapper (withoutGas ws) = ws).
  { unfold withoutGas. rewrite map_map. cbn [wrapper]. apply map_id. }
  unfold resolveGas. destruct (needToSimulate env (withoutGas ws)).
  - destruct (simulate env (simulationRequests env addr ws)) as [res|e]; [|discriminate].
    destruct (assignGasLimits env res 0 (withoutGas ws)) as [txs'|e] eqn:E; [|discriminate].
    intros H. injection H as <-. apply assignGasLimits_wrappers in E. congruence.
  - intros H. injection H as <-. exact Hws.
Qed.

Lemma getGasBuffer_ceiling n :
  0 < n < 2 ^ 50 ->
  exists m, getGasBuffer env (JsNumber (inject_Z n)) = Finite (inject_Z m) /\
            isCeilingOf (inject_Z n * 1.25) m.
Proof.
  intros Hn. destruct (times_five_quarters_exact n Hn) as (x & Hx & Hval).
  exists (Qceiling x). unfold getGasBuffer. cbn [toNumber]. rewrite Hx. cbn [Math_ceil].
  split; [reflexivity|]. unfold isCeilingOf. rewrite <- Hval. split.
  - apply Qle_ceiling.
  - pose proof (Qceiling_lt x) as H.
    unfold Z.sub in H. rewrite inject_Z_plus in H. exact H.
Qed.

Lemma getGasBuffer_examples :
  getGasBuffer env (JsNumber 100) = Finite 125 /\
  getGasBuffer env (JsNumber 101) = Finite 127.
Proof. split; vm_compute; reflexivity. Qed.

Lemma assignGasLimits_valid res txs : forall j,
  (forall n tx, nth_error txs n = Some tx -> applyGasBuffer (wrapper tx) = true ->
                validEstimate res (j + n) = true) ->
  exists txs', assignGasLimits env res j txs = Returned txs'.
Proof.
  induction txs as [|tx0 rest IH]; intros j Hvalid; cbn [assignGasLimits]; [eauto|].
  destruct (IH (S j)) as [rest' Hrest].
  { intros n tx Hn Hflag. rewrite Nat.add_succ_comm. now apply (Hvalid (S n) tx). }
  rewrite Hrest.
  destruct (applyGasBuffer (wrapper tx0)) eqn:Hflag; cbn [negb]; [|eauto].
  specialize (Hvalid 0%nat tx0 eq_refl Hflag). rewrite Nat.add_0_r in Hvalid.
  unfold validEstimate in Hvalid.
  destruct (getIndex res j) as [entry|e]; [|discriminate].
  destruct (getProperty entry "estimatedGas") as [[| | |g| | |]|e]; try discriminate.
  rewrite Hvalid. eauto.
Qed.

Lemma resolveGas_usable addr ws :
  estimatesUsable env addr ws -> exists txs, resolveGas env addr ws = Returned txs.
Proof.
  intros [Hno|(res & Hsim & Hvalid)]; unfold resolveGas.
  - rewrite Hno. eauto.
  - destruct (needToSimulate env (withoutGas ws)); [|eauto]. rewrite Hsim.
    destruct (assignGasLimits_valid res (withoutGas ws) 0) as [txs Htxs]; [|rewrite Htxs; eauto].
    intros n tx Hn Hflag. unfold withoutGas in Hn. rewrite nth_error_map in Hn.
    destruct (nth_error ws n) as [w|] eqn:Hw; [|discriminate].
    injection Hn as <-. now apply (Hvalid n w).
Qed.

(** With a signer, the loop opens with the submission of the wrapper it is
    entered at. *)
Lemma eoaLoop_first_send i tx rest receipts s :
  signer env = true ->
  In (SendTransaction i (transactionRequest tx), stAwaiting (w_title (wrapper tx)) s)
     (trace (eoaLoop env i (tx :: rest) receipts s)).
Proof.
  intros Hsigner. rewrite eoaLoop_cons. unfold iteration. rewrite Hsigner.
  destruct (sendTransaction env i (transactionRequest tx)) as [txResponse|e].
  - destruct (wait txResponse) as [receipt|e].
    + match goal with
      | |- context [eoaLoop env ?i' ?r ?rs ?st] => destruct (eoaLoop env i' r rs st)
      end.
      left. reflexivity.
    + destruct (hasMessage e); left; reflexivity.
  - destruct (hasMessage e); left; reflexivity.
Qed.

Lemma nth_error_skipn_cons {A} (l : list A) : forall i x,
  nth_error l i = Some x -> skipn i l = x :: skipn (S i) l.
Proof.
  induction l as [|a l IH]; intros i x H; [destruct i; discriminate|].
  destruct i as [|i]; cbn in *; [congruence|]. now apply IH.
Qed.

Lemma handleEoaTransactions_first_send addr ws k s txs tx :
  signer env = true ->
  0 <= k ->
  resolveGas env addr ws = Returned txs ->
  nth_error txs (Z.to_nat k) = Some tx ->
  In (SendTransaction (Z.to_nat k) (transactionRequest tx),
      stAwaiting (w_title (wrapper tx)) s)
     (trace (handleEoaTransactions env addr ws k s)).
Proof.
  intros Hsigner Hk Hgas Htx. unfold handleEoaTransactions. fold (withoutGas ws).
  replace (map (fun tx => simulationRequest env addr (transaction (wrapper tx)))
             (withoutGas ws))
    with (simulationRequests env addr ws)
    by (unfold withoutGas, simulationRequests; now rewrite map_map).
  unfold bind at 1. rewrite eoa_estimate_run, Hgas.
  replace (k <? 0) with false by (symmetry; apply Z.ltb_ge; exact Hk).
  rewrite (nth_error_skipn_cons _ _ _ Htx).
  pose proof (eoaLoop_first_send (Z.to_nat k) tx (skipn (S (Z.to_nat k)) txs) [] s Hsigner)
    as Hin.
  destruct (eoaLoop env (Z.to_nat k) (tx :: skipn (S (Z.to_nat k)) txs) [] s)
    as [o s2 t2].
  cbn [trace] in *. apply in_or_app. right. exact Hin.
Qed.

(** C7 (amended). Every transaction submitted by the direct-signing path
    carries, for a wrapper that is not flagged [applyGasBuffer], the gas
    limit declared by the caller, and for a flagged wrapper (simulation
    being on, that is, outside test mode) [Math.ceil(estimatedGas * 1.25)],
    computed on doubles, for the positive [estimatedGas] of the aligned
    element of the simulation response; that is the least integer not below
    1.25 times the estimate whenever the estimate is an integer below
    [2 ^ 50] (the product is then a double; beyond, it is rounded first).
    In test mode nothing is simulated and the declared limit is sent.  Such
    submissions do take place: with a signer and usable estimates, the
    wrapper at the entry index is submitted.  An estimate of 100 gives 125
    and one of 101 gives 127. *)
Theorem eoa_gas_limit_is_buffered_estimate addr ws k s :
  (forall j req st,
     In (SendTransaction j req, st) (trace (handleEoaTransactions env addr ws k s)) ->
     exists w,
       nth_error ws j = Some w /\
       (applyGasBuffer w = false -> req_gasLimit req = tx_gasLimit (transaction w)) /\
       (applyGasBuffer w = true ->
        isTest env = false ->
        exists simulationRes entry g,
          simulate env (simulationRequests env addr ws) = Returned simulationRes /\
          getIndex simulationRes j = Returned entry /\
          getProperty entry "estimatedGas" = Returned (JsNumber g) /\
          Qle_bool g 0 = false /\
          req_gasLimit req = Some (getGasBuffer env (JsNumber g)) /\
          forall n,
            g = inject_Z n -> 0 < n < 2 ^ 50 ->
            exists m,
              req_gasLimit req = Some (Finite (inject_Z m)) /\
              isCeilingOf (g * 1.25) m) /\
       (isTest env = true -> req_gasLimit req = tx_gasLimit (transaction w))) /\
  (signer env = true ->
   0 <= k ->
   estimatesUsable env addr ws ->
   forall w,
     nth_error ws (Z.to_nat k) = Some w ->
     exists req,
       In (SendTransaction (Z.to_nat k) req, stAwaiting (w_title w) s)
          (trace (handleEoaTransactions env addr ws k s))) /\
  getGasBuffer env (JsNumber 100) = Finite 125 /\
  getGasBuffer env (JsNumber 101) = Finite 127.
Proof.
  split; [|split; [|exact getGasBuffer_examples]].
  - assert (H : holds (handleEoaTransactions env addr ws k) s
      (fun ev _ => forall j req, ev = SendTransaction j req ->
         exists w,
           nth_error ws j = Some w /\
           (applyGasBuffer w = false -> req_gasLimit req = tx_gasLimit (transaction w)) /\
           (applyGasBuffer w = true ->
            isTest env = false ->
            exists simulationRes entry g,
              simulate env (simulationRequests env addr ws) = Returned simulationRes /\
              getIndex simulationRes j = Returned entry /\
              getProperty entry "estimatedGas" = Returned (JsNumber g) /\
              Qle_bool g 0 = false /\
              req_gasLimit req = Some (getGasBuffer env (JsNumber g)) /\
              forall n,
                g = inject_Z n -> 0 < n < 2 ^ 50 ->
                exists m,
                  req_gasLimit req = Some (Finite (inject_Z m)) /\
                  isCeilingOf (g * 1.25) m) /\
           (isTest env = true -> req_gasLimit req = tx_gasLimit (transaction w)))
      (fun _ _ => True)).
    { apply holds_handleEoaTransactions; [discriminate|trivial|].
      intros txs Hgas. split; [intros _; now destruct (transactionsTimeline s)|].
      intros Hk. eapply holds_weaken; [apply eoaLoop_sends| |trivial]. cbn beta.
      intros ev _ Hev j req Heq.
      destruct (Hev j req Heq) as (n & wg & -> & Hn & ->). clear Hev Heq.
      rewrite nth_error_skipn in Hn.
      unfold resolveGas in Hgas.
      destruct (needToSimulate env (withoutGas ws)) eqn:Hneed.
      - assert (Htest : isTest env = false).
        { unfold needToSimulate in Hneed. destruct (isTest env); [discriminate|reflexivity]. }
        destruct (simulate env (simulationRequests env addr ws)) as [res|e] eqn:Hsim;
          [|discriminate].
        destruct (assignGasLimits env res 0 (withoutGas ws)) as [txs'|e] eqn:Hassign;
          [|discriminate].
        injection Hgas as ->.
        destruct (assignGasLimits_spec res (withoutGas ws) 0 txs _ wg Hassign Hn)
          as (wg0 & Hn0 & Hw & Hplain & Hbuf).
        unfold withoutGas in Hn0. rewrite nth_error_map in Hn0.
        destruct (nth_error ws (Z.to_nat k + n)) as [w|] eqn:Hw0; [|discriminate].
        injection Hn0 as <-. cbn [wrapper gasLimit] in *.
        exists w. split; [reflexivity|]. unfold transactionRequest. cbn [req_gasLimit].
        rewrite Hw. split; [|split].
        + intros Hflag. now rewrite (Hplain Hflag).
        + intros Hflag _. destruct (Hbuf Hflag) as (entry & g & Hidx & Hprop & Hpos & Hlimit).
          exists res, entry, g. rewrite Hlimit.
          repeat (split; [first [reflexivity|assumption]|]).
          intros m -> Hm. destruct (getGasBuffer_ceiling m Hm) as (c & Hc & Hceil).
          exists c. rewrite Hc. auto.
        + congruence.
      - injection Hgas as <-. unfold withoutGas in Hn. rewrite nth_error_map in Hn.
        destruct (nth_error ws (Z.to_nat k + n)) as [w|] eqn:Hw0; [|discriminate].
        injection Hn as <-. exists w. split; [reflexivity|].
        split; [reflexivity|]. split; [|reflexivity].
        intros Hflag Htest. exfalso.
        unfold needToSimulate in Hneed. rewrite Htest in Hneed.
        assert (existsb (fun tx => applyGasBuffer (wrapper tx)) (withoutGas ws) = true).
        { apply existsb_exists. exists {| wrapper := w; gasLimit := None |}.
          split; [|exact Hflag]. unfold withoutGas.
          apply (in_map (fun tx => {| wrapper := tx; gasLimit := None |})).
          eapply nth_error_In. exact Hw0. }
        congruence. }
    intros j req st Hin. destruct H as [H _]. exact (H _ _ Hin j req eq_refl).
  - intros Hsigner Hk Husable w Hw.
    destruct (resolveGas_usable addr ws Husable) as [txs Hgas].
    pose proof (resolveGas_wrappers addr ws txs Hgas) as Hmap.
    assert (Htx : exists tx, nth_error txs (Z.to_nat k) = Some tx /\ wrapper tx = w).
    { rewrite <- Hmap, nth_error_map in Hw.
      destruct (nth_error txs (Z.to_nat k)) as [tx|]; [|discriminate].
      injection Hw as Hw. eauto. }
    destruct Htx as (tx & Htx & <-).
    exists (transactionRequest tx).
    now apply (handleEoaTransactions_first_send addr ws k s txs tx).
Qed.

End Gas.

(** C8 (as stated, refuted). When the simulation service is down the attempt
    aborts with nothing submitted, but rows have been set by then.  On a
    first attempt the timeline has been initialized and its first row is
    [awaitingSignature].  On a retry of the second wrapper the reset has
    turned the [failed] row into [retrying] and taken [failedTxIndex] from 1
    to -1. *)
Lemma simulation_failure_still_prepares_timeline :
  outcome (executeTransactions eoaSimulationDownEnv 0 initialState)
  = Threw (Thrown "Unable to estimate gas for transactions: Error: Service unavailable") /\
  statuses initialState = [] /\
  statuses (final (executeTransactions eoaSimulationDownEnv 0 initialState))
  = [awaitingSignature; awaitingPrevious] /\
  outcome (executeTransactions eoaSimulationDownEnv 1 afterSecondFailure)
  = Threw (Thrown "Unable to estimate gas for transactions: Error: Service unavailable") /\
  statuses afterSecondFailure = [confirmed; failed] /\
  failedTxIndex afterSecondFailure = 1 /\
  statuses (final (executeTransactions eoaSimulationDownEnv 1 afterSecondFailure))
  = [confirmed; retrying] /\
  failedTxIndex (final (executeTransactions eoaSimulationDownEnv 1 afterSecondFailure)) = -1.
Proof. repeat split; reflexivity. Qed.

Lemma simulation_failure_aborts_before_signing_witness :
  final (handleEoaTransactions eoaZeroEstimateEnv "0xme"
           (attemptWrappers eoaZeroEstimateEnv) 0 initialState) = initialState.
Proof.
  apply (simulation_failure_aborts_before_signing eoaZeroEstimateEnv "0xme"
           (attemptWrappers eoaZeroEstimateEnv) 0 initialState 1
           (sampleTx "Transfer" true)).
  - reflexivity.
  - reflexivity.
  - reflexivity.
  - vm_compute. reflexivity.
Defined.

(** C7 (as stated, refuted). For an estimate of [2 ^ 53 - 1] the product
    with 1.25 is not a double: it is rounded to the nearest one before
    [Math.ceil], and the gas limit that is sent is one below the ceiling of
    1.25 times the estimate. *)
Lemma eoa_gas_limit_of_huge_estimate_is_rounded :
  simulate eoaHugeEstimateEnv
    (simulationRequests eoaHugeEstimateEnv "0xme" (attemptWrappers eoaHugeEstimateEnv))
  = Returned (JsArray [JsObject [("estimatedGas", JsNumber 9007199254740991)]]) /\
  events (handleEoaTransactions eoaHugeEstimateEnv "0xme"
            (attemptWrappers eoaHugeEstimateEnv) 0
            (initState eoaHugeEstimateEnv (attemptWrappers eoaHugeEstimateEnv)
               initialState))
  = [FetchSimulate [{| network_id := "1"; from := "0xme";
                       sim_to := Some "0xabc"; input := Some "0x00" |}];
     SendTransaction 0 {| req_to := Some "0xabc"; req_data := Some "0x00";
                          req_gasLimit := Some (Finite 11258999068426238) |};
     WaitReceipt 0 "0xh"] /\
  isCeilingOf (9007199254740991 * 1.25) 11258999068426239 /\
  ~ isCeilingOf (9007199254740991 * 1.25) 11258999068426238.
Proof.
  split; [reflexivity|]. split; [vm_compute; reflexivity|]. split.
  - split; [apply Qle_bool_iff|apply Qlt_alt]; vm_compute; reflexivity.
  - intros [H _]. apply Qle_bool_iff in H. vm_compute in H. discriminate.
Qed.

Lemma eoa_gas_limit_is_buffered_estimate_witness :
  exists req,
    In (SendTransaction (Z.to_nat 0) req, stAwaiting "Approve" initialState)
       (trace (handleEoaTransactions eoaSuccessEnv "0xme"
                 (attemptWrappers eoaSuccessEnv) 0 initialState)).
Proof.
  refine (proj1 (proj2 (eoa_gas_limit_is_buffered_estimate eoaSuccessEnv "0xme"
                          (attemptWrappers eoaSuccessEnv) 0 initialState))
            _ _ _ (sampleTx "Approve" true) _).
  - reflexivity.
  - lia.
  - right. eexists. split; [reflexivity|]. intros i w Hi Hflag.
    destruct i as [|[|i]]; [reflexivity|reflexivity|].
    cbv in Hi. destruct i; discriminate.
  - reflexivity.
Defined.

(** *** The retry action while a retry is in flight *)

Lemma existsbi_false {A} (f : nat -> A -> bool) i l :
  Forall (fun x => forall j, f j x = false) l -> existsbi f i l = false.
Proof.
  intros H. revert i. induction H as [|x l Hx _ IH]; intros i; cbn; [reflexivity|].
  now rewrite Hx, IH.
Qed.

Lemma guarded_retryAvailable s : guarded s -> retryAvailable s = false.
Proof.
  unfold retryAvailable. intros [Hr|[Hidx Hall]].
  - rewrite Hr. apply andb_false_r.
  - rewrite existsbi_false; [reflexivity|].
    eapply Forall_impl; [|exact Hall]. cbn. intros item [Hf Hr] j.
    unfold showsTryAgain. rewrite Hidx.
    apply Status_eqb_neq in Hf, Hr. rewrite Hf, Hr. cbn.
    replace (Z.of_nat j =? -1) with false by (symmetry; apply Z.eqb_neq; lia).
    apply andb_false_r.
Qed.

Lemma settled_retryAvailable s :
  existsb needsRetry (transactionsTimeline s) = false -> retryAvailable s = false.
Proof.
  intros H. unfold retryAvailable. rewrite existsbi_false; [reflexivity|].
  apply Forall_forall. intros item Hin j.
  assert (Hn : needsRetry item = false).
  { destruct (needsRetry item) eqn:E; [|reflexivity].
    assert (existsb needsRetry (transactionsTimeline s) = true)
      by (apply existsb_exists; eauto). congruence. }
  unfold needsRetry in Hn. unfold showsTryAgain.
  apply orb_false_iff in Hn. destruct Hn as [Hn Hr].
  apply orb_false_iff in Hn. destruct Hn as [Hf Hj].
  now rewrite Hf, Hj, Hr.
Qed.

Lemma guarded_update t u s :
  upd_status u <> failed -> upd_status u <> rejected ->
  guarded s -> guarded (onTimeline (updateTimeline t u) s).
Proof.
  intros Hf Hr [H|[Hidx Hall]]; [left; exact H|right].
  split; [exact Hidx|]. cbn. apply updateTimeline_Forall; [exact Hall|].
  intros item _ _. cbn. split; assumption.
Qed.

Lemma guarded_loop env txs : forall i receipts s,
  guarded s ->
  holds (eoaLoop env i txs receipts) s
    (fun _ st => isRetrying st = isRetrying s /\ guarded st)
    (fun _ s' => isRetrying s' = isRetrying s).
Proof.
  induction txs as [|tx rest IH]; intros i receipts s Hg.
  - now apply holds_eoaLoop_nil.
  - assert (H1 : guarded (stAwaiting (w_title (wrapper tx)) s))
      by (apply guarded_update; [discriminate|discriminate|exact Hg]).
    apply holds_eoaLoop_cons.
    { intros _. unfold stFailure. now destruct (isRejection Unreachable). }
    intros _. split; [split; [reflexivity|exact H1]|].
    split.
    { intros e _. apply catchEnds_state; [|reflexivity].
      unfold stFailure. now destruct (isRejection e). }
    intros txResponse _.
    assert (H2 : guarded (stPending env (w_title (wrapper tx)) (hash txResponse)
                            (stAwaiting (w_title (wrapper tx)) s)))
      by (apply guarded_update; [discriminate|discriminate|exact H1]).
    split; [split; [reflexivity|exact H2]|].
    split.
    { intros e _. apply catchEnds_state; [|reflexivity].
      unfold stFailure. now destruct (isRejection e). }
    intros receipt _.
    eapply holds_weaken; [apply IH| |].
    + apply guarded_update; [discriminate|discriminate|exact H2].
    + cbn beta. intros _ st H. exact H.
    + cbn beta. intros _ s' H. exact H.
Qed.

Lemma settled_update t u tl :
  (forall item, needsRetry (applyUpdates item u) = false) ->
  existsb needsRetry tl = false ->
  existsb needsRetry (updateTimeline t u tl) = false.
Proof.
  intros Hu H. unfold updateTimeline.
  induction tl as [|item tl IH]; cbn [map existsb] in *; [reflexivity|].
  apply orb_false_iff in H. destruct H as [H1 H2].
  rewrite (IH H2), orb_false_r.
  destruct (String.eqb (title item) t); [apply Hu|exact H1].
Qed.

Lemma guarded_recalculate k s :
  failedTxIndex s <> -1 -> guarded (recalculateTimelineStatuses k s).
Proof.
  intros _. right. split; [reflexivity|]. cbn.
  apply mapi_Forall. intros j item. unfold recalculateItem.
  destruct (Status_eqb (status item) confirmed) eqn:E.
  - apply Status_eqb_eq in E. rewrite E. split; discriminate.
  - destruct (Z.of_nat j =? k); cbn; split; discriminate.
Qed.


Lemma settled_update_state t u s :
  (forall item, needsRetry (applyUpdates item u) = false) ->
  existsb needsRetry (transactionsTimeline s) = false ->
  existsb needsRetry (transactionsTimeline (onTimeline (updateTimeline t u) s)) = false.
Proof. intros Hu H. cbn [onTimeline transactionsTimeline set_transactionsTimeline]. now apply settled_update. Qed.

Lemma guarded_initState env ws s : guarded s -> guarded (initState env ws s).
Proof.
  intros Hg. unfold initState. destruct (transactionsTimeline s) eqn:Etl; [|exact Hg].
  destruct Hg as [Hr|[Hidx _]]; [left; exact Hr|right].
  split; [exact Hidx|]. cbn [transactionsTimeline set_transactionsTimeline].
  apply mapi_Forall. intros [|j] w; cbn; split; discriminate.
Qed.

Lemma isRetrying_initState env ws s : isRetrying (initState env ws s) = isRetrying s.
Proof. unfold initState. now destruct (transactionsTimeline s). Qed.

(** C9 (as stated, refuted). A retry entered after a recorded failure does
    not keep [isRetrying] set: the reset at the top of [executeTransactions]
    clears it before the first call is awaited. *)
Lemma retry_guard_is_cleared_on_entry :
  failedTxIndex afterSecondFailure = 1 /\
  exists ev st,
    In (ev, st) (trace (retryFailedTransaction eoaSuccessEnv afterSecondFailure)) /\
    isRetrying st = false.
Proof.
  split; [reflexivity|].
  eexists _, _. split; [vm_compute; left; reflexivity|reflexivity].
Qed.

(** C9 (amended). While a call made by [retryFailedTransaction] is pending,
    no "Try again" button can be used.  When no failure index was recorded
    at entry, [isRetrying] stays set and the button is disabled; otherwise
    [isRetrying] has been cleared by the reset, and no row renders the
    button, because no row is [failed] or [rejected] and [failedTxIndex] is
    -1 or no row is [retrying]. *)
Theorem retry_unavailable_while_in_flight env s ev st :
  In (ev, st) (trace (retryFailedTransaction env s)) ->
  retryAvailable st = false /\
  isRetrying st = (failedTxIndex s =? -1).
Proof.
  revert ev st.
  set (b := failedTxIndex s =? -1).
  set (I := fun (_ : Event) st => retryAvailable st = false /\ isRetrying st = b).
  assert (HJ : forall ev st, isRetrying st = b -> guarded st -> I ev st).
  { intros ev st Hb Hg. split; [now apply guarded_retryAvailable|exact Hb]. }
  assert (HK : forall ev st, isRetrying st = b ->
                 existsb needsRetry (transactionsTimeline st) = false -> I ev st).
  { intros ev st Hb Hs. split; [now apply settled_retryAvailable|exact Hb]. }
  assert (H : holds (retryFailedTransaction env) s I (fun _ _ => True)).
  { unfold retryFailedTransaction. step. step. step. step.
    cbn [failedTxIndex set_isRetrying].
    set (s1 := resetState (failedTxIndex s) (set_isRetrying true s)).
    assert (Hb1 : isRetrying s1 = b).
    { unfold s1, resetState, b. cbn [failedTxIndex set_isRetrying].
      now destruct (failedTxIndex s =? -1). }
    assert (Hg1 : guarded s1).
    { unfold s1, resetState. cbn [failedTxIndex set_isRetrying].
      destruct (failedTxIndex s =? -1) eqn:E; cbn [negb].
      - left. reflexivity.
      - apply guarded_recalculate. cbn [failedTxIndex set_isRetrying].
        now apply Z.eqb_neq. }
    apply holds_executeTransactions; fold s1; [trivial|]. intros _.
    split; [intros; now apply HJ|]. split; [trivial|]. intros _.
    split; [now apply HJ|]. split; [trivial|]. intros ws _.
    assert (Hb2 : isRetrying (initState env ws s1) = b)
      by now rewrite isRetrying_initState.
    assert (Hg2 : guarded (initState env ws s1)) by now apply guarded_initState.
    set (s2 := initState env ws s1) in *. clearbody s2. clear Hb1 Hg1. clearbody s1.
    assert (Hexec : holds (runExecutor env ws (failedTxIndex s)) s2 I
                      (fun _ s3 => isRetrying s3 = b)).
    { unfold runExecutor. destruct (safe env).
      - step. apply holds_handleSafeAppTransactions; [now apply HJ|trivial|].
        intros gas _. split; [trivial|]. intros safeTx _. split; [trivial|].
        intros txs _. split; [now apply HJ|]. split.
        + intros response _. step. exact Hb2.
        + intros e _. apply catchEnds_intro; intros _; [step|exact Hb2].
          unfold stSafeFailure. now destruct (isRejection e).
      - step. apply holds_handleEoaTransactions; [intros _; now apply HJ|trivial|].
        intros txs _. split.
        + intros _. destruct (transactionsTimeline s2); [step; exact Hb2|trivial].
        + intros _. eapply holds_weaken; [apply guarded_loop; exact Hg2| |].
          * cbn beta. intros ev st [Hr Hg]. apply HJ; [congruence|exact Hg].
          * cbn beta. intros [receipts|e] s3 Hr; [step; congruence|congruence]. }
    eapply holds_weaken; [exact Hexec|auto|]. cbn beta.
    intros [r|e] s3 Hb3; [|trivial]. split; [trivial|]. intros Hsettled.
    apply holds_finish.
    - intros _. split; [intros _; split; [now apply HK|trivial]|].
      intros _.
      assert (Hb4 : isRetrying (finalizingState env ws s3) = b).
      { unfold finalizingState. now destruct (lastWrapper ws s3). }
      assert (Hs4 : existsb needsRetry (transactionsTimeline (finalizingState env ws s3))
                    = false).
      { unfold finalizingState. destruct (lastWrapper ws s3); [|exact Hsettled].
        now apply settled_update_state. }
      cbv zeta. split; [trivial|]. intros hook _.
      split; [now apply HK|]. split; [trivial|]. intros e _. split; [now apply HK|trivial].
    - intros _. split; [trivial|]. intros hook _. split; [trivial|].
      intros response _. split; [now apply HK|]. split; [trivial|].
      intros e _. split; [now apply HK|trivial]. }
  intros ev st Hin. destruct H as [H _]. exact (H ev st Hin).
Qed.

Lemma retry_unavailable_while_in_flight_witness :
  retryAvailable (recalculateTimelineStatuses 1 (set_isRetrying true afterSecondFailure))
  = false.
Proof.
  apply (retry_unavailable_while_in_flight eoaSuccessEnv afterSecondFailure
           (CallTransactions None)
           (recalculateTimelineStatuses 1 (set_isRetrying true afterSecondFailure))).
  vm_compute. left. reflexivity.
Defined.

(** *** What an attempt leaves behind *)

Section Progress.
Variable env : Env.

Lemma updateTimeline_nth_inv t u tl j item' :
  nth_error (updateTimeline t u tl) j = Some item' ->
  exists item,
    nth_error tl j = Some item /\ title item' = title item /\
    ((title item = t /\ status item' = upd_status u) \/
     (title item <> t /\ item' = item)).
Proof.
  rewrite updateTimeline_nth. destruct (nth_error tl j) as [item|]; [|discriminate].
  cbn [option_map]. intros H. injection H as <-. exists item. split; [reflexivity|].
  destruct (String.eqb (title item) t) eqn:E.
  - apply String.eqb_eq in E. split; [reflexivity|]. left. split; [exact E|reflexivity].
  - apply String.eqb_neq in E. split; [reflexivity|]. right. split; [exact E|reflexivity].
Qed.

Lemma skipn_cons_nth {A} (l : list A) i x r :
  skipn i l = x :: r -> nth_error l i = Some x /\ skipn (S i) l = r.
Proof.
  revert i. induction l as [|a l IH]; intros i H.
  - destruct i; discriminate.
  - destruct i as [|i]; cbn in *.
    + injection H as -> ->. split; reflexivity.
    + apply IH in H. exact H.
Qed.

Lemma Forall_nth_error {A} (P : A -> Prop) l :
  (forall j x, nth_error l j = Some x -> P x) -> Forall P l.
Proof.
  intros H. apply Forall_forall. intros x Hin.
  apply In_nth_error in Hin. destruct Hin as [j Hj]. eauto.
Qed.

Lemma marked_needsRetry t u tl j :
  nth_error (map title tl) j = Some t ->
  upd_status u = failed \/ upd_status u = rejected ->
  existsb needsRetry (updateTimeline t u tl) = true.
Proof.
  intros Hj Hu. rewrite nth_error_map in Hj.
  destruct (nth_error tl j) as [item|] eqn:E; [|discriminate].
  injection Hj as Ht. apply existsb_exists.
  exists (applyUpdates item u). split.
  - apply (nth_error_In _ j). rewrite updateTimeline_nth, E. cbn [option_map].
    rewrite Ht, String.eqb_refl. reflexivity.
  - unfold needsRetry. cbn [status applyUpdates]. destruct Hu as [-> | ->]; reflexivity.
Qed.

Lemma stFailure_marks i t e s j :
  nth_error (map title (transactionsTimeline s)) j = Some t ->
  existsb needsRetry (transactionsTimeline (stFailure i t e s)) = true.
Proof.
  intros Hj. unfold stFailure.
  destruct (isRejection e); cbn [transactionsTimeline set_failedTxIndex set_error onTimeline
                                   set_transactionsTimeline];
    eapply marked_needsRetry; eauto.
Qed.

Lemma stFailure_aligned ws i t e s : aligned ws s -> aligned ws (stFailure i t e s).
Proof.
  unfold aligned, stFailure. intros H.
  destruct (isRejection e); cbn [transactionsTimeline set_failedTxIndex set_error onTimeline
                                   set_transactionsTimeline];
    now rewrite updateTimeline_titles.
Qed.

Lemma stFailure_completed i t e s :
  isExecutionCompleted (stFailure i t e s) = isExecutionCompleted s.
Proof. unfold stFailure. now destruct (isRejection e). Qed.

Lemma onTimeline_aligned ws t u s :
  aligned ws s -> aligned ws (onTimeline (updateTimeline t u) s).
Proof.
  unfold aligned. cbn [transactionsTimeline onTimeline set_transactionsTimeline].
  now rewrite updateTimeline_titles.
Qed.

Lemma eoaLoop_progress ws txs : forall i receipts s,
  map (fun tx => w_title (wrapper tx)) txs = skipn i (map w_title ws) ->
  aligned ws s -> confirmedBelow i s -> failedTxIndex s = -1 ->
  holds (eoaLoop env i txs receipts) s (fun _ _ => True)
    (fun o s' =>
       isExecutionCompleted s' = isExecutionCompleted s /\
       match o with
       | Returned _ =>
           aligned ws s' /\
           ((failedTxIndex s' = -1 /\ allConfirmed s') \/
            (existsb needsRetry (transactionsTimeline s') = true /\ ~ signerAccepts env))
       | Threw _ => ~ signerAccepts env
       end).
Proof.
  induction txs as [|tx rest IH]; intros i receipts s Htitles Hal Hbelow Hidx.
  - apply holds_eoaLoop_nil. split; [reflexivity|]. split; [exact Hal|].
    left. split; [exact Hidx|]. apply Forall_nth_error. intros j item Hj.
    apply (Hbelow j item); [|exact Hj].
    assert (Hlen : (List.length (map w_title ws) <= i)%nat).
    { destruct (Nat.le_gt_cases (List.length (map w_title ws)) i) as [H|H]; [exact H|].
      apply (f_equal (@List.length _)) in Htitles. rewrite length_skipn in Htitles.
      cbn in Htitles. lia. }
    rewrite <- Hal, length_map in Hlen.
    assert (j < List.length (transactionsTimeline s))%nat
      by (apply nth_error_Some; congruence).
    lia.
  - cbn [map] in Htitles. symmetry in Htitles.
    apply skipn_cons_nth in Htitles. destruct Htitles as [Hti Hrest].
    set (t := w_title (wrapper tx)) in *.
    assert (Hrow : forall s', aligned ws s' ->
                     nth_error (map title (transactionsTimeline s')) i = Some t).
    { intros s' Hal'. unfold aligned in Hal'. now rewrite Hal'. }
    assert (Hal1 : aligned ws (stAwaiting t s)) by now apply onTimeline_aligned.
    apply holds_eoaLoop_cons; fold t.
    { intros Hsigner. split; [now rewrite stFailure_completed|].
      split; [now apply stFailure_aligned|]. right.
      split; [eapply stFailure_marks; eauto|].
      intros [Hs _]. congruence. }
    intros Hsigner. split; [trivial|]. split.
    { intros e Hsend.
      assert (Hno : ~ signerAccepts env).
      { intros [_ Hacc]. destruct (Hacc i (transactionRequest tx)) as (? & ? & ? & ?).
        congruence. }
      apply catchEnds_intro; intros _; [|split; [reflexivity|exact Hno]].
      split; [now rewrite stFailure_completed|].
      split; [now apply stFailure_aligned|]. right.
      split; [eapply stFailure_marks; eauto|exact Hno]. }
    intros txResponse Hsend. cbv zeta.
    assert (Hal2 : aligned ws (stPending env t (hash txResponse) (stAwaiting t s)))
      by now apply onTimeline_aligned.
    split; [trivial|]. split.
    { intros e Hwait.
      assert (Hno : ~ signerAccepts env).
      { intros [_ Hacc]. destruct (Hacc i (transactionRequest tx)) as (? & ? & ? & ?).
        congruence. }
      apply catchEnds_intro; intros _; [|split; [reflexivity|exact Hno]].
      split; [now rewrite stFailure_completed|].
      split; [now apply stFailure_aligned|]. right.
      split; [eapply stFailure_marks; eauto|exact Hno]. }
    intros receipt Hwait.
    eapply holds_weaken; [apply IH| |].
    + symmetry. exact Hrest.
    + now apply onTimeline_aligned.
    + intros j item' Hj Hnth.
      cbn [transactionsTimeline stConfirmed stPending stAwaiting onTimeline
             set_transactionsTimeline] in Hnth.
      apply updateTimeline_nth_inv in Hnth.
      destruct Hnth as (item2 & Hnth & _ & [[_ Hst]|[Hne ->]]); [exact Hst|].
      apply updateTimeline_nth_inv in Hnth.
      destruct Hnth as (item1 & Hnth & Ht1 & [[Heq _]|[_ ->]]); [congruence|].
      apply updateTimeline_nth_inv in Hnth.
      destruct Hnth as (item0 & Hnth & Ht0 & [[Heq _]|[Hne0 ->]]); [congruence|].
      assert (j <> i).
      { intros ->. specialize (Hrow s Hal). rewrite nth_error_map, Hnth in Hrow.
        cbn in Hrow. congruence. }
      apply (Hbelow j item0); [lia|exact Hnth].
    + exact Hidx.
    + trivial.
    + cbn beta. intros o s' H. exact H.
Qed.


Lemma attemptWrappers_built ws :
  (forall e, before env <> Some (Threw e)) ->
  transactionsBuilder env (beforeValue env) = Returned ws ->
  attemptWrappers env = ws.
Proof.
  intros Hb Hws. unfold attemptWrappers. rewrite Hws.
  destruct (before env) as [[b|e]|]; try reflexivity. now destruct (Hb e).
Qed.

Lemma resetState_facts ws k s :
  isExecutionCompleted s = false ->
  retryReady ws k s ->
  isExecutionCompleted (resetState k s) = false /\
  failedTxIndex (resetState k s) = -1 /\
  retryReady ws k (resetState k s).
Proof.
  intros Hc Hready. unfold resetState.
  destruct (failedTxIndex s =? -1) eqn:E; cbn [negb].
  - apply Z.eqb_eq in E. auto.
  - split; [exact Hc|]. split; [reflexivity|].
    destruct Hready as [[Hnil Hk]|(Hne & Hal & Hk & Hbelow)].
    + left. split; [|exact Hk].
      cbn [transactionsTimeline recalculateTimelineStatuses]. now rewrite Hnil.
    + right. split; [|split; [|split; [exact Hk|]]].
      * cbn [transactionsTimeline recalculateTimelineStatuses].
        intros H. apply (f_equal (@List.length _)) in H. rewrite mapi_length in H.
        destruct (transactionsTimeline s); [congruence|discriminate].
      * unfold aligned. cbn [transactionsTimeline recalculateTimelineStatuses].
        now rewrite recalculate_titles.
      * intros j item' Hj Hnth.
        cbn [transactionsTimeline recalculateTimelineStatuses] in Hnth.
        rewrite mapi_nth in Hnth.
        destruct (nth_error (transactionsTimeline s) j) as [item|] eqn:Ej; [|discriminate].
        injection Hnth as <-. specialize (Hbelow j item Hj Ej).
        unfold recalculateItem. rewrite Hbelow. exact Hbelow.
Qed.

Lemma initState_facts ws k s :
  isExecutionCompleted s = false ->
  failedTxIndex s = -1 ->
  retryReady ws k s ->
  isExecutionCompleted (initState env ws s) = false /\
  failedTxIndex (initState env ws s) = -1 /\
  aligned ws (initState env ws s) /\
  0 <= k /\
  confirmedBelow (Z.to_nat k) (initState env ws s).
Proof.
  intros Hc Hidx Hready. unfold initState.
  destruct Hready as [[Hnil ->]|(Hne & Hal & Hk & Hbelow)].
  - rewrite Hnil. split; [exact Hc|]. split; [exact Hidx|]. split.
    + unfold aligned. cbn [transactionsTimeline set_transactionsTimeline].
      apply init_titles.
    + split; [lia|]. intros j item Hj. cbn in Hj. lia.
  - destruct (transactionsTimeline s) eqn:E; [congruence|].
    repeat split; assumption.
Qed.


Lemma quiet_settled tl :
  Forall (fun item => needsRetry item = false) tl -> existsb needsRetry tl = false.
Proof.
  induction 1 as [|item tl Hitem _ IH]; cbn [existsb]; [reflexivity|].
  now rewrite Hitem, IH.
Qed.

Lemma allConfirmed_settled s :
  allConfirmed s -> existsb needsRetry (transactionsTimeline s) = false.
Proof.
  intros H. apply quiet_settled. eapply Forall_impl; [|exact H]. cbn beta.
  intros item Hst. unfold needsRetry. now rewrite Hst.
Qed.

Lemma finalizing_statuses ws s :
  allConfirmed s ->
  Forall (fun item => status item = confirmed \/ status item = finalizing)
    (transactionsTimeline (finalizingState env ws s)).
Proof.
  intros H. unfold finalizingState. destruct (lastWrapper ws s).
  - cbn [transactionsTimeline stFinalizing onTimeline set_transactionsTimeline].
    apply updateTimeline_Forall.
    + eapply Forall_impl; [|exact H]. cbn beta. auto.
    + intros item _ _. right. reflexivity.
  - eapply Forall_impl; [|exact H]. cbn beta. auto.
Qed.

Lemma finalized_allConfirmed ws s :
  allConfirmed s -> allConfirmed (finalizedState ws (finalizingState env ws s)).
Proof.
  intros H. unfold finalizedState, finalizingState, allConfirmed.
  destruct (lastWrapper ws s) as [w|] eqn:E.
  - unfold stFinalizing at 1. unfold onTimeline at 1.
    rewrite lastWrapper_update, E.
    cbn [transactionsTimeline stFinalized stFinalizing onTimeline set_transactionsTimeline].
    apply Forall_nth_error. intros j item' Hnth.
    apply updateTimeline_nth_inv in Hnth.
    destruct Hnth as (item1 & Hnth & _ & [[_ Hst]|[Hne ->]]); [exact Hst|].
    apply updateTimeline_nth_inv in Hnth.
    destruct Hnth as (item0 & Hnth & Ht & [[Heq _]|[_ ->]]); [congruence|].
    unfold allConfirmed in H. rewrite Forall_forall in H. apply H.
    eapply nth_error_In; eauto.
  - rewrite E. exact H.
Qed.

Lemma finalizingState_fields ws s :
  failedTxIndex (finalizingState env ws s) = failedTxIndex s /\
  map title (transactionsTimeline (finalizingState env ws s))
  = map title (transactionsTimeline s).
Proof.
  unfold finalizingState. destruct (lastWrapper ws s); [|auto].
  split; [reflexivity|].
  cbn [transactionsTimeline stFinalizing onTimeline set_transactionsTimeline].
  apply updateTimeline_titles.
Qed.

Lemma finalizedState_fields ws s :
  failedTxIndex (finalizedState ws s) = failedTxIndex s /\
  map title (transactionsTimeline (finalizedState ws s))
  = map title (transactionsTimeline s).
Proof.
  unfold finalizedState. destruct (lastWrapper ws s); [|auto].
  split; [reflexivity|].
  cbn [transactionsTimeline stFinalized onTimeline set_transactionsTimeline].
  apply updateTimeline_titles.
Qed.

(** What an attempt leaves behind, in one pass over [executeTransactions]. *)
Lemma attempt_outcome k s :
  isExecutionCompleted s = false ->
  retryReady (attemptWrappers env) k s ->
  holds (executeTransactions env k) s (fun _ _ => True)
    (fun o s' =>
       (isExecutionCompleted s' = true ->
        failedTxIndex s' = -1 /\
        existsb needsRetry (transactionsTimeline s') = false /\
        aligned (attemptWrappers env) s' /\
        settledStatuses env s') /\
       (attemptSucceeds env -> o = Returned tt /\ isExecutionCompleted s' = true)).
Proof.
  intros Hc Hready.
  destruct (resetState_facts _ k s Hc Hready) as (Hc1 & Hidx1 & Hready1).
  assert (vac : forall (o : Outcome unit) s',
            isExecutionCompleted s' = false -> ~ attemptSucceeds env ->
            (isExecutionCompleted s' = true ->
             failedTxIndex s' = -1 /\
             existsb needsRetry (transactionsTimeline s') = false /\
             aligned (attemptWrappers env) s' /\
             settledStatuses env s') /\
            (attemptSucceeds env -> o = Returned tt /\ isExecutionCompleted s' = true)).
  { intros o s' Hf Hn. split; [congruence|]. intros H. now destruct (Hn H). }
  apply holds_executeTransactions.
  { intros Haddr. apply vac; [exact Hc1|]. intros [[Ht _] _]. congruence. }
  intros Haddr. split; [trivial|]. split.
  { intros e He. apply vac; [exact Hc1|]. intros [(_ & Hb & _) _]. now destruct (Hb e). }
  intros Hnb. split; [trivial|]. split.
  { intros e He. apply vac; [exact Hc1|]. intros [(_ & _ & [ws Hws] & _) _]. congruence. }
  intros ws Hws. rewrite (attemptWrappers_built ws Hnb Hws) in *.
  destruct (initState_facts ws k _ Hc1 Hidx1 Hready1) as (Hc2 & Hidx2 & Hal2 & Hk & Hbelow2).
  set (s2 := initState env ws (resetState k s)) in *. clearbody s2.
  clear Hc1 Hidx1 Hready1 Hready Hc.
  assert (Hexec : holds (runExecutor env ws k) s2 (fun _ _ => True)
    (fun o s3 =>
       isExecutionCompleted s3 = false /\
       match o with
       | Threw _ => ~ attemptSucceeds env
       | Returned r =>
           aligned ws s3 /\
           ((failedTxIndex s3 = -1 /\
             if safe env
             then fst r <> None /\
                  exists item, transactionsTimeline s3 = [item] /\
                               status item = submittedToSafe
             else allConfirmed s3) \/
            (existsb needsRetry (transactionsTimeline s3) = true /\
             ~ attemptSucceeds env))
       end)).
  { unfold runExecutor. destruct (safe env) eqn:Hsafe.
    - step. fold (walletAddress env).
      assert (Hns : forall P : Prop, (safeSucceeds env -> P -> False) ->
                      P -> ~ attemptSucceeds env).
      { intros P HP Hp [_ Hs]. rewrite Hsafe in Hs. exact (HP Hs Hp). }
      unfold safeSucceeds in Hns. rewrite (attemptWrappers_built ws Hnb Hws) in Hns.
      apply holds_handleSafeAppTransactions; [trivial| |].
      { intros e He. split; [exact Hc2|]. eapply Hns; [|exact He].
        intros (_ & [gas Hg] & _) H'. congruence. }
      intros gas Hgas. split.
      { intros Hlen. split; [exact Hc2|]. eapply Hns; [|exact Hlen].
        intros (Hl & _) H'. congruence. }
      intros safeTx ->. split.
      { intros e He. split; [exact Hc2|]. eapply Hns; [|exact He].
        intros (_ & _ & [txs Ht] & _) H'. congruence. }
      intros txs Htxs. split; [trivial|].
      assert (Hrow : exists item, transactionsTimeline s2 = [item] /\
                                  title item = w_title safeTx).
      { unfold aligned in Hal2. cbn [map] in Hal2.
        destruct (transactionsTimeline s2) as [|item [|item' tl]]; try discriminate.
        injection Hal2 as Ht. eauto. }
      destruct Hrow as (item & Htl & Htitle). split.
      + intros response Hsend. step. split; [exact Hc2|].
        split; [now apply onTimeline_aligned|]. left. split; [exact Hidx2|].
        split; [discriminate|].
        cbn [transactionsTimeline stSubmitted onTimeline set_transactionsTimeline].
        rewrite Htl. cbn [updateTimeline map]. rewrite Htitle, String.eqb_refl.
        eexists. split; reflexivity.
      + intros e Hsend.
        assert (Hno : ~ attemptSucceeds env).
        { eapply Hns; [|exact Hsend].
          intros (_ & _ & _ & Hall) H'. destruct (Hall txs gas) as [response Hr].
          congruence. }
        apply catchEnds_intro; intros _; [step|split; [exact Hc2|exact Hno]].
        split.
        { unfold stSafeFailure. now destruct (isRejection e). }
        split.
        { unfold stSafeFailure, aligned.
          destruct (isRejection e);
            cbn [transactionsTimeline set_failedTxIndex set_error onTimeline
                   set_transactionsTimeline];
            now rewrite updateTimeline_titles. }
        right. split.
        { unfold stSafeFailure.
          destruct (isRejection e);
            cbn [transactionsTimeline set_failedTxIndex set_error onTimeline
                   set_transactionsTimeline];
            apply (marked_needsRetry _ _ _ 0%nat); auto;
            rewrite Htl; cbn; now rewrite Htitle. }
        eapply Hns; [|exact Hsend].
        intros (_ & _ & _ & Hall) H'. destruct (Hall txs gas) as [response Hr]. congruence.
    - step. fold (walletAddress env).
      assert (Hns : forall P : Prop, (eoaSucceeds env -> P -> False) ->
                      P -> ~ attemptSucceeds env).
      { intros P HP Hp [_ Hs]. rewrite Hsafe in Hs. exact (HP Hs Hp). }
      unfold eoaSucceeds in Hns. rewrite (attemptWrappers_built ws Hnb Hws) in Hns.
      apply holds_handleEoaTransactions; [trivial| |].
      { intros e He. split; [exact Hc2|]. eapply Hns; [|exact He].
        intros (_ & [txs Ht]) H'. congruence. }
      intros txs Hgas. split; [lia|]. intros _.
      eapply holds_weaken; [apply (eoaLoop_progress ws)| |]; try eassumption.
      + assert (Ht : map (fun tx => w_title (wrapper tx)) txs = map w_title ws)
          by (rewrite <- (resolveGas_wrappers env _ _ _ Hgas), map_map; reflexivity).
        rewrite <- Ht. symmetry. apply skipn_map.
      + trivial.
      + cbn beta. intros [rs|e] s3 [Hc3 Hpost].
        * destruct Hpost as [Hal3 Hcases]. step.
          split; [congruence|]. split; [exact Hal3|].
          destruct Hcases as [Hok|[Hretry Hsigner]]; [left; exact Hok|right].
          split; [exact Hretry|]. eapply Hns; [|exact Hsigner].
          intros (Hacc & _) H'. exact (H' Hacc).
        * split; [congruence|]. eapply Hns; [|exact Hpost].
          intros (Hacc & _) H'. exact (H' Hacc). }
  eapply holds_weaken; [exact Hexec|trivial|]. cbn beta.
  intros [r|e] s3 [Hc3 Hpost]; [|now apply vac].
  destruct Hpost as [Hal3 Hcases]. split.
  { intros Hretry. apply vac; [exact Hc3|].
    destruct Hcases as [[_ Hok]|[_ Hn]]; [|exact Hn].
    exfalso. destruct (safe env).
    - destruct Hok as (_ & item & Htl & Hst). rewrite Htl in Hretry. cbn in Hretry.
      unfold needsRetry in Hretry. rewrite Hst in Hretry. discriminate.
    - apply allConfirmed_settled in Hok. congruence. }
  intros Hsettled.
  destruct Hcases as [[Hidx3 Hok]|[Hretry _]]; [|congruence].
  apply holds_finish.
  - intros Hsafe. rewrite Hsafe in Hok. split.
    + intros _. split; [trivial|]. split; [|auto]. intros _.
      split; [exact Hidx3|]. split; [exact Hsettled|]. split; [exact Hal3|].
      unfold settledStatuses. rewrite Hsafe. left. exact Hok.
    + intros _. cbv zeta.
      destruct (finalizingState_fields ws s3) as [Hf4 Ht4].
      destruct (finalizedState_fields ws (finalizingState env ws s3)) as [Hf5 Ht5].
      assert (Hdone : forall o : Outcome unit,
        (isExecutionCompleted (completed (finalizedState ws (finalizingState env ws s3)))
         = true ->
         failedTxIndex (completed (finalizedState ws (finalizingState env ws s3))) = -1 /\
         existsb needsRetry
           (transactionsTimeline
              (completed (finalizedState ws (finalizingState env ws s3)))) = false /\
         aligned ws (completed (finalizedState ws (finalizingState env ws s3))) /\
         settledStatuses env (completed (finalizedState ws (finalizingState env ws s3)))) /\
        (attemptSucceeds env ->
         Returned tt = Returned tt /\
         isExecutionCompleted (completed (finalizedState ws (finalizingState env ws s3)))
         = true)).
      { intros _. split; [|auto]. intros _.
        split; [cbn [failedTxIndex completed set_isExecutionCompleted set_isRetrying];
                congruence|].
        split; [apply (allConfirmed_settled (finalizedState ws (finalizingState env ws s3)));
                now apply finalized_allConfirmed|].
        split; [unfold aligned in *;
                cbn [transactionsTimeline completed set_isExecutionCompleted set_isRetrying];
                congruence|].
        unfold settledStatuses. rewrite Hsafe. left. now apply finalized_allConfirmed. }
      split; [intros _; now apply (Hdone (Returned tt))|].
      intros hook Hhook. split; [trivial|].
      split; [intros _; now apply (Hdone (Returned tt))|].
      intros e He. split; [trivial|]. split; [|auto]. intros _.
      split; [cbn [failedTxIndex completed set_isExecutionCompleted set_isRetrying];
              congruence|].
      pose proof (finalizing_statuses ws s3 Hok) as Hst.
      split.
      { cbn [transactionsTimeline completed set_isExecutionCompleted set_isRetrying].
        apply quiet_settled. eapply Forall_impl; [|exact Hst]. cbn beta.
        intros item [H|H]; unfold needsRetry; now rewrite H. }
      split; [unfold aligned in *;
              cbn [transactionsTimeline completed set_isExecutionCompleted set_isRetrying];
              congruence|].
      unfold settledStatuses. rewrite Hsafe. right. split; [|exact Hst].
      exists hook, (snd r), e. auto.
  - intros Hsafe. rewrite Hsafe in Hok. destruct Hok as (Hresp & Hitem).
    assert (Hdone : forall o : Outcome unit,
      (isExecutionCompleted (completed s3) = true ->
       failedTxIndex (completed s3) = -1 /\
       existsb needsRetry (transactionsTimeline (completed s3)) = false /\
       aligned ws (completed s3) /\ settledStatuses env (completed s3)) /\
      (attemptSucceeds env ->
       Returned tt = Returned tt /\ isExecutionCompleted (completed s3) = true)).
    { intros _. split; [|auto]. intros _. split; [exact Hidx3|].
      split; [exact Hsettled|]. split; [exact Hal3|].
      unfold settledStatuses. rewrite Hsafe. exact Hitem. }
    split; [intros _; now apply (Hdone (Returned tt))|].
    intros hook Hhook. split; [intros Hnone; congruence|].
    intros response _. split; [trivial|].
    split; [intros _; now apply (Hdone (Returned tt))|].
    intros e _. split; [trivial|]. now apply (Hdone (Returned tt)).
Qed.

End Progress.

Section Completion.
Variable env : Env.



End Completion.




(** In Safe mode a batch of any other size than one stops at the invariant
    error, once the estimate has been obtained. *)
Lemma safe_batch_must_be_single env k s :
  safe env = true ->
  hooksSucceed env ->
  (exists gas, safeGas env (walletAddress env) (attemptWrappers env) = Returned gas) ->
  List.length (attemptWrappers env) <> 1%nat ->
  outcome (executeTransactions env k s)
  = Threw (AssertionFailed (Some "Expected only one transaction in Safe mode.")).
Proof.
  intros Hsafe (Haddr & Hnb & [ws Hws] & _) [gas Hgas] Hlen.
  rewrite (attemptWrappers_built env ws Hnb Hws) in *.
  assert (H : holds (executeTransactions env k) s (fun _ _ => True)
                (fun o _ => o = Threw (AssertionFailed
                                         (Some "Expected only one transaction in Safe mode.")))).
  { apply holds_executeTransactions; [congruence|]. intros _.
    split; [trivial|]. split; [intros e He; now destruct (Hnb e)|]. intros _.
    split; [trivial|]. split; [congruence|].
    intros ws' Hws'. rewrite Hws in Hws'. injection Hws' as <-.
    assert (Hexec : holds (runExecutor env ws k) (initState env ws (resetState k s))
                      (fun _ _ => True)
                      (fun o _ => o = Threw (AssertionFailed
                                     (Some "Expected only one transaction in Safe mode.")))).
    { unfold runExecutor. rewrite Hsafe. step. fold (walletAddress env).
      apply holds_handleSafeAppTransactions; [trivial|congruence|].
      intros gas' _. split; [reflexivity|]. intros safeTx Heq.
      rewrite Heq in Hlen. now destruct Hlen. }
    eapply holds_weaken; [exact Hexec|trivial|]. cbn beta.
    intros [r|e] s3 H; [discriminate|]. injection H as ->. reflexivity. }
  exact (proj2 H).
Qed.

(** C1. When nothing fails in an attempt started on an empty timeline (every
    hook returns, the estimates are usable where they are needed, the signer
    accepts and confirms every submission, or the Safe accepts the single
    wrapper it is handed), [executeTransactions] returns with the completion
    flag set and one row per wrapper, in wrapper order; every row is
    [confirmed] on the direct-signing path, and on the Safe path the
    timeline is exactly one row, [submittedToSafe].  A Safe batch of another
    size is not such an attempt: it fails with the invariant error. *)
Theorem successful_attempt_settles_every_row env s :
  transactionsTimeline s = [] ->
  isExecutionCompleted s = false ->
  (attemptSucceeds env ->
   outcome (executeTransactions env 0 s) = Returned tt /\
   isExecutionCompleted (final (executeTransactions env 0 s)) = true /\
   map title (transactionsTimeline (final (executeTransactions env 0 s)))
   = map w_title (attemptWrappers env) /\
   List.length (transactionsTimeline (final (executeTransactions env 0 s)))
   = List.length (attemptWrappers env) /\
   (safe env = false -> allConfirmed (final (executeTransactions env 0 s))) /\
   (safe env = true ->
    exists item,
      transactionsTimeline (final (executeTransactions env 0 s)) = [item] /\
      status item = submittedToSafe)) /\
  (safe env = true ->
   hooksSucceed env ->
   (exists gas, safeGas env (walletAddress env) (attemptWrappers env) = Returned gas) ->
   List.length (attemptWrappers env) <> 1%nat ->
   outcome (executeTransactions env 0 s)
   = Threw (AssertionFailed (Some "Expected only one transaction in Safe mode."))).
Proof.
  intros Hnil Hc. split; [|now apply safe_batch_must_be_single].
  intros Hok.
  assert (Hready : retryReady (attemptWrappers env) 0 s) by (left; auto).
  destruct (attempt_outcome env 0 s Hc Hready) as [_ [Hsettled Hsucc]].
  destruct (Hsucc Hok) as [Hout Hdone].
  destruct (Hsettled Hdone) as (_ & _ & Hal & Hst).
  split; [exact Hout|]. split; [exact Hdone|]. split; [exact Hal|].
  split; [rewrite <- (length_map title), Hal; apply length_map|].
  unfold settledStatuses in Hst. split; intros Hsafe; rewrite Hsafe in Hst; [|exact Hst].
  destruct Hst as [Hall|[(hook & receipts & e & Hhook & He) _]]; [exact Hall|].
  destruct Hok as [(_ & _ & _ & Hafter & _) _].
  rewrite (Hafter hook receipts Hhook) in He. discriminate.
Qed.

(** *** Retrying from the failed index *)

Section Frame.
Variable env : Env.















End Frame.





Lemma successful_attempt_settles_every_row_witness :
  outcome (executeTransactions eoaSuccessEnv 0 initialState) = Returned tt.
Proof.
  apply (proj1 (successful_attempt_settles_every_row eoaSuccessEnv initialState
                  eq_refl eq_refl)).
  split.
  - split; [reflexivity|]. split; [discriminate|]. split; [eexists; reflexivity|].
    split; intros hook x Hhook; injection Hhook as <-; reflexivity.
  - cbn. split.
    + split; [reflexivity|]. intros i req. eexists _, _. split; reflexivity.
    + eexists. vm_compute. reflexivity.
Defined.

(** ** Further properties of the component *)

(** *** Classification of errors *)

Lemma toLowerCase_app a b : toLowerCase (a ++ b) = toLowerCase a ++ toLowerCase b.
Proof. induction a as [|c a IH]; cbn [toLowerCase append]; [reflexivity|]. now rewrite IH. Qed.

Lemma prefix_app n post : String.prefix n (n ++ post) = true.
Proof.
  induction n as [|c n IH]; [now destruct post|].
  cbn [append String.prefix]. destruct (ascii_dec c c); [exact IH|congruence].
Qed.

Lemma includes_app n pre post : includes n (pre ++ n ++ post) = true.
Proof.
  induction pre as [|c pre IH].
  - cbn [append]. destruct (n ++ post) eqn:E.
    + unfold includes. rewrite <- E, prefix_app. reflexivity.
    + cbn [includes]. rewrite <- E, prefix_app. reflexivity.
  - cbn [append includes]. rewrite IH. now destruct (String.prefix n (String c (pre ++ n ++ post))).
Qed.

Lemma rejection_phrase_in_any_case pre m post :
  toLowerCase m = "user rejected transaction" ->
  isRejection (Thrown (pre ++ m ++ post)) = true.
Proof.
  intros Hm. unfold isRejection. rewrite !toLowerCase_app, Hm. apply includes_app.
Qed.

Lemma prefix_inv n : forall h, String.prefix n h = true -> exists post, h = n ++ post.
Proof.
  induction n as [|c n IH]; intros h H.
  - exists h. reflexivity.
  - destruct h as [|d h]; [discriminate|]. cbn [String.prefix] in H.
    destruct (ascii_dec c d) as [->|]; [|discriminate].
    destruct (IH h H) as [post ->]. exists post. reflexivity.
Qed.

Lemma includes_inv n : forall h, includes n h = true -> exists pre post, h = pre ++ n ++ post.
Proof.
  induction h as [|c h IH]; intros H.
  - cbn [includes] in H. destruct (String.prefix n EmptyString) eqn:E; [|discriminate].
    destruct (prefix_inv _ _ E) as [post ->]. exists EmptyString, post. reflexivity.
  - cbn [includes] in H. destruct (String.prefix n (String c h)) eqn:E.
    + destruct (prefix_inv _ _ E) as [post ->]. exists EmptyString, post. reflexivity.
    + destruct (IH H) as (pre & post & ->). exists (String c pre), post. reflexivity.
Qed.

Lemma toLowerCase_split a : forall h b,
  toLowerCase h = a ++ b ->
  exists x y, h = x ++ y /\ toLowerCase x = a /\ toLowerCase y = b.
Proof.
  induction a as [|c a IH]; intros h b H.
  - exists EmptyString, h. auto.
  - destruct h as [|d h]; [discriminate|]. cbn [toLowerCase append] in H.
    injection H as Hc H. destruct (IH h b H) as (x & y & -> & Hx & Hy).
    exists (String d x), y. cbn [toLowerCase append]. now rewrite Hc, Hx.
Qed.

(** X1. An error caught by either signing path is classified as a rejection
    exactly when it is an [Error] whose message contains the phrase
    "user rejected transaction", in whatever letter case and position. *)
Theorem rejection_iff_message_contains_phrase e :
  isRejection e = true <->
  exists pre m post,
    e = Thrown (pre ++ m ++ post) /\ toLowerCase m = "user rejected transaction".
Proof.
  split.
  - destruct e as [msg| | | |]; try discriminate. cbn [isRejection]. intros H.
    apply includes_inv in H. destruct H as (pre & post & H).
    apply toLowerCase_split in H. destruct H as (x & y & -> & Hx & Hy).
    apply toLowerCase_split in Hy. destruct Hy as (m & z & -> & Hm & Hz).
    exists x, m, z. auto.
  - intros (pre & m & post & -> & Hm). now apply rejection_phrase_in_any_case.
Qed.

(** *** The reset before a retry *)

Lemma recalculateItem_absorbs k k' j item :
  recalculateItem k' j (recalculateItem k j item) = recalculateItem k' j item.
Proof.
  unfold recalculateItem.
  destruct (Status_eqb (status item) confirmed) eqn:E; [now rewrite E|].
  destruct (Z.of_nat j =? k); cbn [status Status_eqb title estimatedGas etherscanUrl];
    reflexivity.
Qed.

Lemma mapi_mapi {A B C} (g : nat -> B -> C) (f : nat -> A -> B) l : forall i,
  mapi g i (mapi f i l) = mapi (fun j x => g j (f j x)) i l.
Proof. induction l as [|x l IH]; intros i; cbn [mapi]; [reflexivity|]. now rewrite IH. Qed.

Lemma mapi_ext {A B} (f g : nat -> A -> B) l : forall i,
  (forall j x, f j x = g j x) -> mapi f i l = mapi g i l.
Proof.
  induction l as [|x l IH]; intros i H; cbn [mapi]; [reflexivity|].
  now rewrite H, (IH (S i) H).
Qed.

(** X2. The reset before a retry forgets any earlier reset: resetting at
    [k] and then at [k'] leaves the state that resetting at [k'] alone
    leaves.  Only the rows that were already confirmed survive a reset;
    in particular a reset is idempotent. *)
Theorem later_reset_overrides_earlier k k' s :
  recalculateTimelineStatuses k' (recalculateTimelineStatuses k s)
  = recalculateTimelineStatuses k' s.
Proof.
  unfold recalculateTimelineStatuses at 1 3.
  cbn [isExecutionCompleted transactionsTimeline recalculateTimelineStatuses].
  rewrite mapi_mapi.
  rewrite (mapi_ext _ (recalculateItem k') _ 0%nat (recalculateItem_absorbs k k')).
  reflexivity.
Qed.

Section LoopResult.
Variable env : Env.

Lemma update_row tl i item t u j :
  NoDup (map title tl) ->
  nth_error tl i = Some item ->
  title item = t ->
  nth_error (updateTimeline t u tl) j
  = if Nat.eqb j i then Some (applyUpdates item u) else nth_error tl j.
Proof.
  intros Hnd Hi Ht. rewrite updateTimeline_nth.
  destruct (Nat.eqb j i) eqn:E.
  - apply Nat.eqb_eq in E. subst j. rewrite Hi. cbn [option_map].
    rewrite Ht, String.eqb_refl. reflexivity.
  - apply Nat.eqb_neq in E. destruct (nth_error tl j) as [item'|] eqn:Hj; [|reflexivity].
    cbn [option_map]. destruct (String.eqb (title item') t) eqn:Et; [|reflexivity].
    apply String.eqb_eq in Et. exfalso. apply E.
    rewrite NoDup_nth_error in Hnd. apply Hnd.
    + rewrite length_map. apply nth_error_Some. congruence.
    + rewrite !nth_error_map, Hi, Hj. cbn. congruence.
Qed.

Lemma updates_titles t us : forall tl,
  map title (fold_left (fun tl u => updateTimeline t u tl) us tl) = map title tl.
Proof.
  induction us as [|u us IH]; intros tl; cbn [fold_left]; [reflexivity|].
  now rewrite IH, updateTimeline_titles.
Qed.

Lemma updates_row t us : forall tl i item j,
  NoDup (map title tl) ->
  nth_error tl i = Some item ->
  title item = t ->
  nth_error (fold_left (fun tl u => updateTimeline t u tl) us tl) j
  = if Nat.eqb j i then Some (fold_left applyUpdates us item) else nth_error tl j.
Proof.
  induction us as [|u us IH]; intros tl i item j Hnd Hi Ht; cbn [fold_left].
  - destruct (Nat.eqb j i) eqn:E; [|reflexivity]. apply Nat.eqb_eq in E. now subst.
  - rewrite (IH _ i (applyUpdates item u) j).
    + destruct (Nat.eqb j i) eqn:E; [reflexivity|].
      rewrite (update_row tl i item t u j Hnd Hi Ht), E. reflexivity.
    + now rewrite updateTimeline_titles.
    + rewrite (update_row tl i item t u i Hnd Hi Ht), Nat.eqb_refl. reflexivity.
    + exact Ht.
Qed.

Lemma keyed_row all s i tx :
  keyed all s ->
  nth_error all i = Some tx ->
  exists item,
    nth_error (transactionsTimeline s) i = Some item /\
    title item = w_title (wrapper tx).
Proof.
  intros [_ Hal] Hi.
  assert (H : nth_error (map title (transactionsTimeline s)) i = Some (w_title (wrapper tx)))
    by (rewrite <- Hal, nth_error_map, Hi; reflexivity).
  rewrite nth_error_map in H.
  destruct (nth_error (transactionsTimeline s) i) as [item|]; [|discriminate].
  injection H as H. eauto.
Qed.

(** The iteration at [i] fails: nothing is confirmed; the failure is
    recorded, or the [catch] block throws in turn.  [sX] is the state in which
    the failure is caught, reached from [s] by the updates [us] of the row. *)
Lemma failure_outcome all i tx e link us s sX rs :
  nth_error all i = Some tx ->
  submit env i tx = Failed e link ->
  transactionsTimeline sX
  = fold_left (fun tl u => updateTimeline (w_title (wrapper tx)) u tl) us
      (transactionsTimeline s) ->
  (forall item, fold_left applyUpdates us item = stalledRow link item) ->
  isRetrying sX = isRetrying s ->
  isExecutionCompleted sX = isExecutionCompleted s ->
  isErrorDetailsVisible sX = isErrorDetailsVisible s ->
  error sX = error s ->
  failedTxIndex sX = failedTxIndex s ->
  catchEnds (fun o s' => loopOutcome env all i s rs o s') rs e
    (stFailure (Z.of_nat i) (w_title (wrapper tx)) e sX) sX.
Proof.
  intros Hi Hsub Htl Hus Hr Hc Hv He Hf.
  set (t := w_title (wrapper tx)) in *.
  assert (Hstalled : forall j,
            nth_error (transactionsTimeline sX) j
            = match nth_error (transactionsTimeline s) j with
              | Some item => if String.eqb (title item) t
                             then Some (stalledRow link item) else Some item
              | None => None
              end).
  { intros j. rewrite Htl. clear Htl. revert j.
    assert (H : forall us0 tl j,
              nth_error (fold_left (fun tl u => updateTimeline t u tl) us0 tl) j
              = match nth_error tl j with
                | Some item => if String.eqb (title item) t
                               then Some (fold_left applyUpdates us0 item) else Some item
                | None => None
                end).
    { induction us0 as [|u us0 IH]; intros tl j; cbn [fold_left].
      - destruct (nth_error tl j) as [item|]; [|reflexivity].
        now destruct (String.eqb (title item) t).
      - rewrite IH, updateTimeline_nth.
        destruct (nth_error tl j) as [item|]; [|reflexivity]. cbn [option_map].
        destruct (String.eqb (title item) t) eqn:E; [|now rewrite E].
        cbn [title applyUpdates]. now rewrite E. }
    intros j. rewrite H. destruct (nth_error (transactionsTimeline s) j) as [item|];
      [|reflexivity].
    now rewrite Hus. }
  assert (HtX : map title (transactionsTimeline sX) = map title (transactionsTimeline s))
    by (rewrite Htl; apply updates_titles).
  apply catchEnds_intro; intros Hmsg.
  - exists []. cbn [List.length]. rewrite Nat.add_0_r, app_nil_r.
    assert (Hfinal : exists u,
              transactionsTimeline (stFailure (Z.of_nat i) t e sX)
              = updateTimeline t u (transactionsTimeline sX) /\
              upd_etherscanUrl u = None /\
              upd_status u = (if isRejection e then rejected else failed) /\
              upd_message u = (if isRejection e then "You rejected the transaction"
                               else "Transaction failed")).
    { unfold stFailure. destruct (isRejection e); eexists; (split; [reflexivity|]);
        repeat split; reflexivity. }
    destruct Hfinal as (u & Hfinal & Hu1 & Hu2 & Hu3).
    split; [now rewrite Hfinal, updateTimeline_titles|].
    split; [unfold stFailure; destruct (isRejection e); exact Hr|].
    split; [unfold stFailure; destruct (isRejection e); exact Hc|].
    split; [unfold stFailure; destruct (isRejection e); exact Hv|].
    split; [intros m receipt Hm; destruct m; discriminate|].
    split.
    { right. exists tx, e, link. split; [exact Hi|]. split; [exact Hsub|].
      rewrite Hmsg. split; [reflexivity|].
      split; [unfold stFailure; now destruct (isRejection e)|].
      unfold stFailure. destruct (isRejection e); [exact He|reflexivity]. }
    intros Hkeyed. destruct (keyed_row all s i tx Hkeyed Hi) as (item & Hrow & Ht).
    destruct Hkeyed as [Hnd _].
    assert (HndX : NoDup (map title (transactionsTimeline sX))) by now rewrite HtX.
    assert (HrowX : nth_error (transactionsTimeline sX) i = Some (stalledRow link item)).
    { rewrite Hstalled, Hrow. fold t in Ht. now rewrite Ht, String.eqb_refl. }
    assert (Hrows : forall j,
              nth_error (transactionsTimeline (stFailure (Z.of_nat i) t e sX)) j
              = if Nat.eqb j i then Some (applyUpdates (stalledRow link item) u)
                else nth_error (transactionsTimeline sX) j).
    { intros j. rewrite Hfinal. now apply update_row. }
    assert (Hother : forall j, j <> i ->
              nth_error (transactionsTimeline sX) j = nth_error (transactionsTimeline s) j).
    { intros j Hne. rewrite Hstalled.
      destruct (nth_error (transactionsTimeline s) j) as [item'|] eqn:Hj; [|reflexivity].
      destruct (String.eqb (title item') t) eqn:E; [|reflexivity].
      apply String.eqb_eq in E. exfalso. apply Hne.
      rewrite NoDup_nth_error in Hnd. apply Hnd.
      - rewrite length_map. apply nth_error_Some. congruence.
      - rewrite !nth_error_map, Hrow, Hj. cbn. fold t in Ht. congruence. }
    unfold rowsAfterLoop; cbn [List.length]; rewrite ?Nat.add_0_r.
    split; [intros m receipt item' Hm; destruct m; discriminate|]. split.
    + intros tx' e' link' item' Hi' Hsub' Hrow'.
      rewrite Hi in Hi'. injection Hi' as <-. rewrite Hsub in Hsub'.
      injection Hsub' as <- <-.
      rewrite Hrow in Hrow'. injection Hrow' as <-.
      rewrite Hrows, Nat.eqb_refl. f_equal.
      unfold rowAfterFailure. rewrite Hmsg.
      unfold failedRow, applyUpdates, stalledRow.
      cbn [title estimatedGas etherscanUrl]. rewrite Hu1, Hu2, Hu3.
      destruct link; reflexivity.
    + intros j item' Hj Hrow'. rewrite Hrows.
      replace (Nat.eqb j i) with false by (symmetry; apply Nat.eqb_neq; lia).
      rewrite Hother by lia. exact Hrow'.
  - exists []. cbn [List.length]. rewrite Nat.add_0_r, app_nil_r.
    split; [exact HtX|]. split; [exact Hr|]. split; [exact Hc|]. split; [exact Hv|].
    split; [intros m receipt Hm; destruct m; discriminate|].
    split.
    { right. exists tx, e, link. split; [exact Hi|]. split; [exact Hsub|].
      rewrite Hmsg. auto. }
    intros Hkeyed. destruct (keyed_row all s i tx Hkeyed Hi) as (item & Hrow & Ht).
    destruct Hkeyed as [Hnd _].
    unfold rowsAfterLoop; cbn [List.length]; rewrite ?Nat.add_0_r.
    split; [intros m receipt item' Hm; destruct m; discriminate|]. split.
    + intros tx' e' link' item' Hi' Hsub' Hrow'.
      rewrite Hi in Hi'. injection Hi' as <-. rewrite Hsub in Hsub'.
      injection Hsub' as <- <-.
      rewrite Hrow in Hrow'. injection Hrow' as <-.
      unfold rowAfterFailure. rewrite Hmsg.
      rewrite Hstalled, Hrow. fold t in Ht. now rewrite Ht, String.eqb_refl.
    + intros j item' Hj Hrow'. rewrite Hstalled, Hrow'.
      destruct (String.eqb (title item') t) eqn:E; [|reflexivity].
      apply String.eqb_eq in E. exfalso.
      assert (j = i); [|lia].
      rewrite NoDup_nth_error in Hnd. apply Hnd.
      * rewrite length_map. apply nth_error_Some. congruence.
      * rewrite !nth_error_map, Hrow, Hrow'. cbn. fold t in Ht. congruence.
Qed.

Lemma skipn_nil_nth {A} (l : list A) i : skipn i l = [] -> nth_error l i = None.
Proof.
  intros H. apply nth_error_None.
  apply (f_equal (@List.length _)) in H. rewrite length_skipn in H. cbn in H. lia.
Qed.

Lemma eoaLoop_result all txs : forall i rs s,
  txs = skipn i all ->
  holds (eoaLoop env i txs rs) s
    (fun ev _ => orderly env all i ev)
    (fun o s' => loopOutcome env all i s rs o s').
Proof.
  induction txs as [|tx rest IH]; intros i rs s Htxs.
  - apply holds_eoaLoop_nil. symmetry in Htxs. apply skipn_nil_nth in Htxs.
    exists []. cbn [List.length]. rewrite Nat.add_0_r, app_nil_r.
    repeat (split; [reflexivity|]). split; [intros m receipt Hm; destruct m; discriminate|].
    split; [left; auto|]. intros _.
    unfold rowsAfterLoop; cbn [List.length]; rewrite ?Nat.add_0_r.
    split; [intros m receipt item Hm; destruct m; discriminate|].
    split; [intros tx e link item Hi; congruence|]. auto.
  - symmetry in Htxs. apply skipn_cons_nth in Htxs. destruct Htxs as [Hi Hrest].
    set (t := w_title (wrapper tx)).
    apply holds_eoaLoop_cons; fold t.
    { intros Hsigner.
      apply (failure_outcome all i tx Unreachable None
               [{| upd_status := awaitingSignature;
                   upd_message := "Waiting for you to confirm in your wallet";
                   upd_etherscanUrl := None |}]); try reflexivity; try exact Hi.
      unfold submit. now rewrite Hsigner. }
    intros Hsigner. split.
    { split; [lia|]. split; [eauto|]. intros m Hm. lia. }
    split.
    { intros e Hsend.
      apply (failure_outcome all i tx e None
               [{| upd_status := awaitingSignature;
                   upd_message := "Waiting for you to confirm in your wallet";
                   upd_etherscanUrl := None |}]); try reflexivity; try exact Hi.
      unfold submit. now rewrite Hsigner, Hsend. }
    intros txResponse Hsend. cbv zeta. split.
    { split; [lia|]. split; [eauto|]. intros m Hm. lia. }
    split.
    { intros e Hwait.
      apply (failure_outcome all i tx e
               (Some (etherscanLink env (network_name env) (hash txResponse)))
               [{| upd_status := awaitingSignature;
                   upd_message := "Waiting for you to confirm in your wallet";
                   upd_etherscanUrl := None |};
                {| upd_status := pending;
                   upd_message := "Waiting for confirmation";
                   upd_etherscanUrl :=
                     Some (etherscanLink env (network_name env) (hash txResponse)) |}]);
        try reflexivity; try exact Hi.
      unfold submit. now rewrite Hsigner, Hsend, Hwait. }
    intros receipt Hwait.
    assert (Hsub : submit env i tx = Confirmed (hash txResponse) receipt)
      by (unfold submit; now rewrite Hsigner, Hsend, Hwait).
    set (s3 := stConfirmed env t (transactionHash receipt)
                 (stPending env t (hash txResponse) (stAwaiting t s))).
    eapply holds_weaken; [apply (IH (S i) (rs ++ [receipt])%list s3); now symmetry| |].
    + cbn beta. intros ev _ Hev.
      destruct ev; try contradiction.
      * destruct Hev as (Hle & Htx & Hprev). split; [lia|]. split; [exact Htx|].
        intros m Hm. destruct (Nat.eq_dec m i) as [->|Hne];
          [exists tx, (hash txResponse), receipt; auto|apply Hprev; lia].
      * destruct Hev as (Hle & Htx & Hprev). split; [lia|]. split; [exact Htx|].
        intros m Hm. destruct (Nat.eq_dec m i) as [->|Hne];
          [exists tx, (hash txResponse), receipt; auto|apply Hprev; lia].
    + cbn beta. intros o s' (cr & Htitles & Hr & Hc & Hv & Hconf & Hend & Hrows).
      exists (receipt :: cr). cbn [List.length].
      replace (i + S (List.length cr))%nat with (S i + List.length cr)%nat by lia.
      assert (Ht3 : map title (transactionsTimeline s3) = map title (transactionsTimeline s)).
      { unfold s3, stConfirmed, stPending, stAwaiting, onTimeline.
        cbn [transactionsTimeline set_transactionsTimeline].
        now rewrite !updateTimeline_titles. }
      split; [congruence|]. split; [exact Hr|]. split; [exact Hc|]. split; [exact Hv|].
      split.
      { intros [|m] r Hm.
        - injection Hm as <-. rewrite Nat.add_0_r. eauto.
        - replace (i + S m)%nat with (S i + m)%nat by lia. now apply Hconf. }
      split.
      { replace (rs ++ receipt :: cr)%list with ((rs ++ [receipt]) ++ cr)%list
          by (rewrite <- app_assoc; reflexivity).
        exact Hend. }
      intros Hkeyed. destruct (keyed_row all s i tx Hkeyed Hi) as (item & Hrow & Ht).
      assert (Hrows3 : forall j,
                nth_error (transactionsTimeline s3) j
                = if Nat.eqb j i then Some (confirmedRow env receipt item)
                  else nth_error (transactionsTimeline s) j).
      { intros j. destruct Hkeyed as [Hnd _].
        exact (updates_row t
                 [{| upd_status := awaitingSignature;
                     upd_message := "Waiting for you to confirm in your wallet";
                     upd_etherscanUrl := None |};
                  {| upd_status := pending;
                     upd_message := "Waiting for confirmation";
                     upd_etherscanUrl :=
                       Some (etherscanLink env (network_name env) (hash txResponse)) |};
                  {| upd_status := confirmed;
                     upd_message := "Transaction confirmed";
                     upd_etherscanUrl :=
                       Some (etherscanLink env (network_name env)
                               (transactionHash receipt)) |}]
                 (transactionsTimeline s) i item j Hnd Hrow Ht). }
      assert (Hkeyed3 : keyed all s3).
      { destruct Hkeyed as [Hnd Hal]. split; rewrite Ht3; assumption. }
      unfold rowsAfterLoop in Hrows |- *; cbv zeta in Hrows |- *.
      cbn [List.length].
      destruct (Hrows Hkeyed3) as (Hrc & Hrf & Hru).
      assert (Hother : forall j item', j <> i ->
                nth_error (transactionsTimeline s) j = Some item' ->
                nth_error (transactionsTimeline s3) j = Some item').
      { intros j item' Hne Hj. rewrite Hrows3.
        replace (Nat.eqb j i) with false by (symmetry; apply Nat.eqb_neq; lia). exact Hj. }
      split; [|split].
      * intros [|m] r item' Hm Hj.
        -- injection Hm as <-. rewrite Nat.add_0_r in *.
           rewrite Hrow in Hj. injection Hj as <-.
           apply Hru; [lia|]. rewrite Hrows3, Nat.eqb_refl. reflexivity.
        -- replace (i + S m)%nat with (S i + m)%nat in * by lia.
           apply Hrc; [exact Hm|]. apply Hother; [lia|exact Hj].
      * intros tx' e link item' Htx' Hsub' Hj. cbn [List.length] in *.
        replace (i + S (List.length cr))%nat with (S i + List.length cr)%nat in * by lia.
        apply (Hrf tx' e link); [exact Htx'|exact Hsub'|]. apply Hother; [lia|exact Hj].
      * intros j item' Hj Hrow'. cbn [List.length] in *.
        apply Hru; [lia|]. apply Hother; [lia|exact Hrow'].
Qed.

(** The direct-signing path entered at a valid index, as a whole. *)
Lemma handleEoaTransactions_result addr ws k s :
  0 <= k ->
  holds (handleEoaTransactions env addr ws k) s
    (fun ev _ =>
       match ev with
       | FetchSimulate simulations =>
           simulations = simulationRequests env addr ws /\
           needToSimulate env (withoutGas ws) = true
       | _ => exists all, resolveGas env addr ws = Returned all /\
                          orderly env all (Z.to_nat k) ev
       end)
    (fun o s' =>
       match resolveGas env addr ws with
       | Threw e => o = Threw e /\ s' = s
       | Returned all => loopOutcome env all (Z.to_nat k) s [] o s'
       end).
Proof.
  intros Hk. apply holds_handleEoaTransactions.
  - intros Hneed. auto.
  - intros e He. rewrite He. auto.
  - intros all Hgas. split; [lia|]. intros _. rewrite Hgas.
    eapply holds_weaken; [apply (eoaLoop_result all); reflexivity| |auto].
    cbn beta. intros ev _ Hev. destruct ev; try contradiction; eauto.
Qed.

(** X3. On the direct-signing path entered at a valid index [k], every
    submission to the signer is the request of the wrapper at its index
    (with its resolved gas limit), that index is at or after [k], and it is
    made only after every wrapper from [k] up to it has been confirmed. *)
Theorem eoa_submits_in_order addr ws k s j req st :
  0 <= k ->
  In (SendTransaction j req, st) (trace (handleEoaTransactions env addr ws k s)) ->
  exists all,
    resolveGas env addr ws = Returned all /\
    (Z.to_nat k <= j)%nat /\
    (exists tx, nth_error all j = Some tx /\ req = transactionRequest tx) /\
    forall m, (Z.to_nat k <= m < j)%nat -> confirmedAt env all m.
Proof.
  intros Hk Hin.
  destruct (handleEoaTransactions_result addr ws k s Hk) as [Htrace _].
  destruct (Htrace _ _ Hin) as (all & Hgas & Hle & Htx & Hprev). eauto.
Qed.

(** X4. The signing loop confirms the wrappers from [k] on in order and
    stops at the first one that the signer does not confirm.  Either the
    batch is exhausted: the receipts are returned and neither
    [failedTxIndex] nor [error] is touched.  Or the next wrapper failed with
    a value that has a message: the receipts so far are returned,
    [failedTxIndex] is its index and [error] is set to the caught value
    unless that is a rejection.  Or it failed with a value without a message:
    the [catch] block throws a [TypeError], which the path rethrows, and
    neither [failedTxIndex] nor [error] is touched. *)
Theorem eoa_stops_at_first_failure addr ws k s all :
  0 <= k ->
  resolveGas env addr ws = Returned all ->
  exists confirmedReceipts,
    confirmedFrom env all (Z.to_nat k) confirmedReceipts /\
    loopStop env all (Z.to_nat k + List.length confirmedReceipts) s confirmedReceipts
      (outcome (handleEoaTransactions env addr ws k s))
      (final (handleEoaTransactions env addr ws k s)).
Proof.
  intros Hk Hgas.
  destruct (handleEoaTransactions_result addr ws k s Hk) as [_ Hpost].
  rewrite Hgas in Hpost.
  destruct Hpost as (cr & _ & _ & _ & _ & Hconf & Hend & _).
  exists cr. auto.
Qed.

(** X5. When the rows have distinct titles that match the wrappers, the
    loop leaves each confirmed row with the confirmation message and the
    explorer link of its receipt; the row it stopped at (if any) marked
    [failed] or [rejected] when the caught value has a message, and as the
    submission left it ([awaitingSignature] or [pending]) when it has none,
    in both cases keeping the explorer link of a submission that was
    pending; and every other row as it was. *)
Theorem eoa_rows_after_loop addr ws k s all :
  0 <= k ->
  resolveGas env addr ws = Returned all ->
  keyed all s ->
  exists confirmedReceipts,
    confirmedFrom env all (Z.to_nat k) confirmedReceipts /\
    loopStop env all (Z.to_nat k + List.length confirmedReceipts) s confirmedReceipts
      (outcome (handleEoaTransactions env addr ws k s))
      (final (handleEoaTransactions env addr ws k s)) /\
    rowsAfterLoop env all (Z.to_nat k) confirmedReceipts s
      (final (handleEoaTransactions env addr ws k s)).
Proof.
  intros Hk Hgas Hkeyed.
  destruct (handleEoaTransactions_result addr ws k s Hk) as [_ Hpost].
  rewrite Hgas in Hpost.
  destruct Hpost as (cr & _ & _ & _ & _ & Hconf & Hend & Hrows).
  exists cr. auto.
Qed.

End LoopResult.

Lemma eoa_submits_in_order_witness :
  exists all,
    resolveGas eoaSecondFailsEnv "0xme" (attemptWrappers eoaSecondFailsEnv) = Returned all /\
    (Z.to_nat 0 <= 1)%nat /\
    (exists tx,
       nth_error all 1 = Some tx /\
       {| req_to := Some "0xabc"; req_data := Some "0x00";
          req_gasLimit := Some (Finite 127) |} = transactionRequest tx) /\
    forall m, (Z.to_nat 0 <= m < 1)%nat -> confirmedAt eoaSecondFailsEnv all m.
Proof.
  apply (eoa_submits_in_order eoaSecondFailsEnv "0xme" (attemptWrappers eoaSecondFailsEnv)
           0 secondFailsStart 1
           {| req_to := Some "0xabc"; req_data := Some "0x00";
              req_gasLimit := Some (Finite 127) |}
           (stAwaiting "Transfer"
              (stConfirmed eoaSecondFailsEnv "Approve" "0xr"
                 (stPending eoaSecondFailsEnv "Approve" "0xh"
                    (stAwaiting "Approve" secondFailsStart))))).
  - lia.
  - vm_compute. right. right. right. left. reflexivity.
Defined.

Lemma eoa_stops_at_first_failure_witness :
  exists confirmedReceipts,
    confirmedFrom eoaSecondFailsEnv secondFailsBatch (Z.to_nat 0) confirmedReceipts /\
    loopStop eoaSecondFailsEnv secondFailsBatch
      (Z.to_nat 0 + List.length confirmedReceipts) secondFailsStart confirmedReceipts
      (outcome (handleEoaTransactions eoaSecondFailsEnv "0xme"
                  (attemptWrappers eoaSecondFailsEnv) 0 secondFailsStart))
      (final (handleEoaTransactions eoaSecondFailsEnv "0xme"
                (attemptWrappers eoaSecondFailsEnv) 0 secondFailsStart)).
Proof.
  apply (eoa_stops_at_first_failure eoaSecondFailsEnv "0xme"
           (attemptWrappers eoaSecondFailsEnv) 0 secondFailsStart secondFailsBatch).
  - lia.
  - vm_compute. reflexivity.
Defined.

Lemma eoa_rows_after_loop_witness :
  exists confirmedReceipts,
    confirmedFrom eoaSecondFailsEnv secondFailsBatch (Z.to_nat 0) confirmedReceipts /\
    loopStop eoaSecondFailsEnv secondFailsBatch
      (Z.to_nat 0 + List.length confirmedReceipts) secondFailsStart confirmedReceipts
      (outcome (handleEoaTransactions eoaSecondFailsEnv "0xme"
                  (attemptWrappers eoaSecondFailsEnv) 0 secondFailsStart))
      (final (handleEoaTransactions eoaSecondFailsEnv "0xme"
                (attemptWrappers eoaSecondFailsEnv) 0 secondFailsStart)) /\
    rowsAfterLoop eoaSecondFailsEnv secondFailsBatch (Z.to_nat 0) confirmedReceipts
      secondFailsStart
      (final (handleEoaTransactions eoaSecondFailsEnv "0xme"
                (attemptWrappers eoaSecondFailsEnv) 0 secondFailsStart)).
Proof.
  apply (eoa_rows_after_loop eoaSecondFailsEnv "0xme"
           (attemptWrappers eoaSecondFailsEnv) 0 secondFailsStart secondFailsBatch).
  - lia.
  - vm_compute. reflexivity.
  - split.
    + vm_compute. repeat constructor; cbn; intuition discriminate.
    + vm_compute. reflexivity.
Defined.

Section EoaInvariant.
Variable env : Env.

Lemma loop_leaves_retry_ready ws all k s o s' :
  NoDup (map w_title ws) ->
  map wrapper all = ws ->
  aligned ws s ->
  confirmedBelow k s ->
  isExecutionCompleted s = false ->
  failedTxIndex s = -1 ->
  loopOutcome env all k s [] o s' ->
  (exists rs,
     o = Returned rs /\
     ((allConfirmed s' /\ receiptsOf env all k rs) \/
      exists j, (k <= j)%nat /\ failedAt ws j s')) \/
  (o = Threw TypeError /\
   exists j, (k <= j)%nat /\ stalledAt ws j s s' /\ silentFailureAt env all j).
Proof.
  intros Hnd Hall Hal Hbelow Hc Hidx0 (cr & Htitles & _ & Hc' & _ & Hconf & Hend & Hrows).
  change ([] ++ cr)%list with cr in Hend.
  assert (Htw : map (fun tx => w_title (wrapper tx)) all = map title (transactionsTimeline s)).
  { unfold aligned in Hal. rewrite Hal, <- Hall, map_map. reflexivity. }
  assert (Hkeyed : keyed all s).
  { split; [|exact Htw]. unfold aligned in Hal. now rewrite Hal. }
  destruct (Hrows Hkeyed) as (Hrc & Hrf & Hru). clear Hrows.
  set (n := List.length cr) in *.
  assert (Hlen : List.length (transactionsTimeline s') = List.length (transactionsTimeline s)).
  { rewrite <- (length_map title), Htitles. apply length_map. }
  assert (Hdone : confirmedBelow (k + n) s').
  { intros j item' Hj Hnth.
    assert (Hjlen : (j < List.length (transactionsTimeline s))%nat)
      by (rewrite <- Hlen; apply nth_error_Some; congruence).
    destruct (nth_error (transactionsTimeline s) j) as [item|] eqn:Ej;
      [|apply nth_error_None in Ej; lia].
    destruct (Nat.lt_ge_cases j k) as [Hlt|Hge].
    - rewrite (Hru j item (or_introl Hlt) Ej) in Hnth. injection Hnth as <-.
      exact (Hbelow j item Hlt Ej).
    - destruct (nth_error cr (j - k)) as [receipt|] eqn:Er;
        [|apply nth_error_None in Er; fold n in Er; lia].
      replace j with (k + (j - k))%nat in Hnth, Ej by lia.
      rewrite (Hrc _ receipt item Er Ej) in Hnth. injection Hnth as <-. reflexivity. }
  destruct Hend as [(Hnone & Ho & _ & _)|(tx & e & link & Htx & Hsub & Hcase)].
  - left. exists cr. split; [exact Ho|].
    left. apply nth_error_None in Hnone. split.
    + apply Forall_nth_error. intros j item Hj. apply (Hdone j item); [|exact Hj].
      assert (List.length all = List.length (transactionsTimeline s))
        by (rewrite <- (length_map title), <- Htw; symmetry; apply length_map).
      assert (j < List.length (transactionsTimeline s'))%nat
        by (apply nth_error_Some; congruence).
      lia.
    + split; [|exact Hconf]. fold n.
      destruct n as [|n'] eqn:En; [lia|].
      destruct (nth_error cr n') as [receipt|] eqn:Er;
        [|apply nth_error_None in Er; fold n in Er; lia].
      destruct (Hconf n' receipt Er) as (tx & txHash & Htx & _).
      assert (k + n' < List.length all)%nat by (apply nth_error_Some; congruence).
      lia.
  - destruct (keyed_row all s (k + n) tx Hkeyed Htx) as (item & Hrow & _).
    pose proof (Hrf tx e link item Htx Hsub Hrow) as Hrow'.
    unfold rowAfterFailure in Hrow'.
    destruct (hasMessage e) eqn:Hmsg.
    + destruct Hcase as (Ho & Hidx & _).
      left. exists cr. split; [exact Ho|].
      right. exists (k + n)%nat. split; [lia|].
      split; [congruence|]. split; [exact Hidx|]. split.
      * exists (failedRow e link item). split; [exact Hrow'|].
        unfold failedRow. cbn [status]. destruct (isRejection e); auto.
      * right. split.
        -- intros Hnil. rewrite Hnil in Hlen. cbn in Hlen.
           assert (k + n < List.length (transactionsTimeline s))%nat
             by (apply nth_error_Some; congruence).
           lia.
        -- split; [unfold aligned in *; congruence|]. split; [lia|].
           rewrite Nat2Z.id. exact Hdone.
    + destruct Hcase as (Ho & Hidx & _).
      right. split; [exact Ho|]. exists (k + n)%nat. split; [lia|]. split.
      * split; [congruence|]. split; [congruence|]. split.
        -- exists (stalledRow link item). split; [exact Hrow'|].
           unfold stalledRow. cbn [status]. destruct link; auto.
        -- split; [unfold aligned in *; congruence|]. split; [exact Hdone|].
           intros i item' Hi Hnth. apply Hru; [right; exact Hi|exact Hnth].
      * exists tx, e, link. auto.
Qed.

(** A direct-signing attempt whose hooks and estimates succeed either returns,
    and then completes or leaves a recorded failure that can be retried, or
    is interrupted by a [catch] block that throws in turn; its [after] hook
    is given the receipts of this attempt. *)
Lemma eoa_attempt_result k s ws all :
  safe env = false ->
  truthyString (address env) = true ->
  (forall e, before env <> Some (Threw e)) ->
  transactionsBuilder env (beforeValue env) = Returned ws ->
  resolveGas env (walletAddress env) ws = Returned all ->
  NoDup (map w_title ws) ->
  isExecutionCompleted s = false ->
  retryReady ws k s ->
  holds (executeTransactions env k) s (afterCalledWith env all (Z.to_nat k))
    (fun o s' =>
       (o = Returned tt /\
        (isExecutionCompleted s' = true \/
         exists j, (Z.to_nat k <= j)%nat /\ failedAt ws j s')) \/
       (o = Threw TypeError /\
        exists j, (Z.to_nat k <= j)%nat /\
                  stalledAt ws j (initState env ws (resetState k s)) s' /\
                  silentFailureAt env all j)).
Proof.
  intros Hsafe Haddr Hnb Hws Hgas Hnd Hc Hready.
  destruct (resetState_facts ws k s Hc Hready) as (Hc1 & Hidx1 & Hready1).
  apply holds_executeTransactions; [congruence|]. intros _.
  split; [discriminate|]. split; [intros e He; now destruct (Hnb e)|]. intros _.
  split; [discriminate|]. split; [congruence|].
  intros ws' Hws'. rewrite Hws in Hws'. injection Hws' as <-.
  destruct (initState_facts env ws k _ Hc1 Hidx1 Hready1)
    as (Hc2 & Hidx2 & Hal2 & Hk & Hbelow2).
  set (s2 := initState env ws (resetState k s)) in *. clearbody s2.
  assert (Hexec : holds (runExecutor env ws k) s2 (afterCalledWith env all (Z.to_nat k))
    (fun o s3 =>
       (exists r,
          o = Returned r /\
          isExecutionCompleted s3 = false /\
          ((allConfirmed s3 /\ receiptsOf env all (Z.to_nat k) (snd r)) \/
           exists j, (Z.to_nat k <= j)%nat /\ failedAt ws j s3)) \/
       (o = Threw TypeError /\
        exists j, (Z.to_nat k <= j)%nat /\ stalledAt ws j s2 s3 /\
                  silentFailureAt env all j))).
  { unfold runExecutor. rewrite Hsafe. step. fold (walletAddress env).
    eapply holds_weaken; [apply (handleEoaTransactions_result env); exact Hk| |].
    - cbn beta. intros ev st Hev rs b ->. destruct Hev as (all' & _ & []).
    - cbn beta. rewrite Hgas. intros o s3 Hloop.
      assert (Hc3 : isExecutionCompleted s3 = false).
      { destruct Hloop as (cr & _ & _ & Hc' & _). congruence. }
      destruct (loop_leaves_retry_ready ws all (Z.to_nat k) s2 o s3 Hnd
                  (resolveGas_wrappers env _ _ _ Hgas) Hal2 Hbelow2 Hc2 Hidx2 Hloop)
        as [(rs & -> & Hcases)|(-> & Hstalled)].
      + step. left. exists (None, rs). auto.
      + right. auto. }
  eapply holds_weaken; [exact Hexec|trivial|]. cbn beta.
  intros o s3 [(r & -> & Hc3 & Hcases)|(-> & Hstalled)]; [|right; auto]. split.
  { intros Hretry. left. split; [reflexivity|]. right.
    destruct Hcases as [[Hall _]|Hfailed]; [|exact Hfailed].
    apply allConfirmed_settled in Hall. congruence. }
  intros Hquiet.
  assert (Hdone : allConfirmed s3 /\ receiptsOf env all (Z.to_nat k) (snd r)).
  { destruct Hcases as [H|(j & _ & _ & _ & (item & Hrow & Hst) & _)]; [exact H|].
    assert (existsb needsRetry (transactionsTimeline s3) = true); [|congruence].
    apply existsb_exists. exists item. split; [eapply nth_error_In; exact Hrow|].
    unfold needsRetry. destruct Hst as [-> | ->]; reflexivity. }
  destruct Hdone as [Hall Hrs].
  apply holds_finish; [intros _|congruence].
  split; [intros _; split; [discriminate|left; split; [reflexivity|left; reflexivity]]|].
  intros _. cbv zeta.
  split; [intros _; left; split; [reflexivity|left; reflexivity]|].
  intros hook _. split.
  { intros rs b Heq. injection Heq as <- <-.
    split; [reflexivity|]. split; [exact Hrs|]. split.
    - unfold finalizingState. now destruct (lastWrapper ws s3).
    - now apply finalizing_statuses. }
  split; [intros _; left; split; [reflexivity|left; reflexivity]|].
  intros e _. split; [discriminate|]. left. split; [reflexivity|left; reflexivity].
Qed.

(** Under the entry invariant, no row of the prepared timeline other than
    the one at the retry index awaits a retry. *)
Lemma prepared_rows_quiet ws k s i item :
  failureOnRecord s ->
  Z.of_nat i <> k ->
  nth_error (transactionsTimeline (initState env ws (resetState k s))) i = Some item ->
  needsRetry item = false.
Proof.
  intros Hinv Hik.
  assert (Hfresh : forall l,
            nth_error (mapi (initItem (safe env)) 0 l) i = Some item ->
            needsRetry item = false).
  { intros l H. rewrite mapi_nth in H.
    destruct (nth_error l i) as [w|]; [|discriminate]. injection H as <-.
    cbn [Nat.add]. unfold needsRetry, initItem. cbn [status]. now destruct i. }
  unfold resetState. destruct (failedTxIndex s =? -1) eqn:E; cbn [negb].
  - apply Z.eqb_eq in E.
    assert (Hq : existsb needsRetry (transactionsTimeline s) = false).
    { destruct (existsb needsRetry (transactionsTimeline s)) eqn:Ex; [|reflexivity].
      exfalso. now apply (proj2 Hinv). }
    unfold initState. destruct (transactionsTimeline s) as [|x l] eqn:Etl.
    + cbn [transactionsTimeline set_transactionsTimeline]. apply Hfresh.
    + rewrite Etl. intros Hnth.
      destruct (needsRetry item) eqn:En; [|reflexivity].
      assert (existsb needsRetry (x :: l) = true); [|congruence].
      apply existsb_exists. exists item. split; [eapply nth_error_In; exact Hnth|exact En].
  - unfold initState.
    cbn [transactionsTimeline recalculateTimelineStatuses].
    destruct (transactionsTimeline s) as [|x l] eqn:Etl.
    + cbn [mapi transactionsTimeline set_transactionsTimeline]. apply Hfresh.
    + destruct (mapi (recalculateItem k) 0 (x :: l)) as [|y l'] eqn:Em;
        [discriminate|].
      cbn [transactionsTimeline recalculateTimelineStatuses]. rewrite Etl, Em, <- Em.
      rewrite mapi_nth. destruct (nth_error (x :: l) i) as [item0|]; [|discriminate].
      cbn [option_map Nat.add]. intros H. injection H as <-.
      unfold recalculateItem, needsRetry.
      destruct (Status_eqb (status item0) confirmed) eqn:Ec.
      * apply Status_eqb_eq in Ec. now rewrite Ec.
      * apply Z.eqb_neq in Hik. now rewrite Hik.
Qed.

End EoaInvariant.

(** X6. A direct-signing attempt whose hooks and gas estimates succeed,
    over wrappers with distinct titles, ends in one of three ways.  It
    returns normally and completes.  Or it returns normally with a failure
    recorded at a row [j] at or after the entry index: the row is [failed]
    or [rejected], [failedTxIndex] is [j], every row below [j] is confirmed,
    and the state can be retried from [j].  Or the signer failed at such a
    row with a value that has no message: the attempt throws a [TypeError],
    the row is left [awaitingSignature] or [pending], [failedTxIndex] stays
    -1, every row below [j] is confirmed and the rows after it are as the
    preparation left them.  When every value the signer throws has a
    message, the attempt returns normally. *)
Theorem eoa_attempt_completes_or_stays_retryable env k s ws all :
  safe env = false ->
  truthyString (address env) = true ->
  (forall e, before env <> Some (Threw e)) ->
  transactionsBuilder env (beforeValue env) = Returned ws ->
  resolveGas env (walletAddress env) ws = Returned all ->
  NoDup (map w_title ws) ->
  isExecutionCompleted s = false ->
  retryReady ws k s ->
  ((outcome (executeTransactions env k s) = Returned tt /\
    (isExecutionCompleted (final (executeTransactions env k s)) = true \/
     exists j, (Z.to_nat k <= j)%nat /\
               failedAt ws j (final (executeTransactions env k s)))) \/
   (outcome (executeTransactions env k s) = Threw TypeError /\
    exists j, (Z.to_nat k <= j)%nat /\
              stalledAt ws j (initState env ws (resetState k s))
                (final (executeTransactions env k s)) /\
              silentFailureAt env all j)) /\
  ((forall j tx e link, nth_error all j = Some tx -> submit env j tx = Failed e link ->
                        hasMessage e = true) ->
   outcome (executeTransactions env k s) = Returned tt).
Proof.
  intros Hsafe Haddr Hnb Hws Hgas Hnd Hc Hready.
  pose proof (proj2 (eoa_attempt_result env k s ws all Hsafe Haddr Hnb Hws Hgas Hnd Hc
                       Hready)) as H.
  split; [exact H|]. intros Hmsg.
  destruct H as [[Ho _]|(_ & j & _ & _ & tx & e & link & Htx & Hsub & Hno)];
    [exact Ho|].
  rewrite (Hmsg j tx e link Htx Hsub) in Hno. discriminate.
Qed.

Lemma eoa_attempt_completes_or_stays_retryable_witness :
  outcome (executeTransactions eoaSecondFailsEnv 0 initialState) = Returned tt /\
  exists j, (Z.to_nat 0 <= j)%nat /\
            failedAt (attemptWrappers eoaSecondFailsEnv) j
              (final (executeTransactions eoaSecondFailsEnv 0 initialState)).
Proof.
  destruct (eoa_attempt_completes_or_stays_retryable eoaSecondFailsEnv 0 initialState
              (attemptWrappers eoaSecondFailsEnv) secondFailsBatch)
    as [[(Ho & [Hdone|Hfailed])|(Ho & _)] _].
  - reflexivity.
  - reflexivity.
  - discriminate.
  - reflexivity.
  - vm_compute. reflexivity.
  - vm_compute. repeat constructor; cbn; intuition discriminate.
  - reflexivity.
  - left. split; reflexivity.
  - vm_compute in Hdone. discriminate.
  - split; [exact Ho|exact Hfailed].
  - vm_compute in Ho. discriminate.
Defined.

(** The third way at work: the second submission is refused with a value
    that has no message.  The attempt throws a [TypeError]; the first row is
    [confirmed], the second is left [awaitingSignature], no failure is on
    record and no row offers "Try again". *)
Example attempt_interrupted_by_throwing_catch :
  outcome (executeTransactions eoaSilentFailureEnv 0 initialState) = Threw TypeError /\
  statuses (final (executeTransactions eoaSilentFailureEnv 0 initialState))
  = [confirmed; awaitingSignature] /\
  failedTxIndex (final (executeTransactions eoaSilentFailureEnv 0 initialState)) = -1 /\
  error (final (executeTransactions eoaSilentFailureEnv 0 initialState)) = None /\
  retryAvailable (final (executeTransactions eoaSilentFailureEnv 0 initialState)) = false.
Proof. repeat split; reflexivity. Qed.

(** X7. After a direct-signing attempt whose hooks and gas estimates succeed,
    over wrappers with distinct titles, [failedTxIndex] is set exactly when
    some row is [failed], [rejected] or [retrying]: always when the attempt
    returns normally, and, when it is interrupted by a [catch] block that
    throws, provided that the same held of the entry state (as it does of
    the initial state and of every state an attempt leaves). *)
Theorem eoa_failure_index_tracks_retry_rows env k s ws all :
  safe env = false ->
  truthyString (address env) = true ->
  (forall e, before env <> Some (Threw e)) ->
  transactionsBuilder env (beforeValue env) = Returned ws ->
  resolveGas env (walletAddress env) ws = Returned all ->
  NoDup (map w_title ws) ->
  isExecutionCompleted s = false ->
  retryReady ws k s ->
  outcome (executeTransactions env k s) = Returned tt \/ failureOnRecord s ->
  failedTxIndex (final (executeTransactions env k s)) <> -1 <->
  existsb needsRetry (transactionsTimeline (final (executeTransactions env k s))) = true.
Proof.
  intros Hsafe Haddr Hnb Hws Hgas Hnd Hc Hready Hentry.
  destruct (eoa_attempt_result env k s ws all Hsafe Haddr Hnb Hws Hgas Hnd Hc Hready)
    as [_ [[_ [Hdone|(j & _ & _ & Hidx & (item & Hrow & Hst) & _)]]|
           (Ho & j & Hkj & (_ & Hidx & (item & Hrow & Hst) & Hal & Hbelow & Habove) & _)]].
  - assert (Hready' : retryReady (attemptWrappers env) k s)
      by now rewrite (attemptWrappers_built env ws Hnb Hws).
    destruct (attempt_outcome env k s Hc Hready') as [_ [Hsettled _]].
    destruct (Hsettled Hdone) as (Hidx & Hquiet & _).
    rewrite Hidx, Hquiet. split; [congruence|discriminate].
  - split; [intros _|intros _; lia].
    apply existsb_exists. exists item. split; [eapply nth_error_In; exact Hrow|].
    unfold needsRetry. destruct Hst as [-> | ->]; reflexivity.
  - destruct Hentry as [Hret|Hinv]; [congruence|].
    split; [congruence|]. intros Hex. exfalso.
    apply existsb_exists in Hex. destruct Hex as (item' & Hin & Hneeds).
    apply In_nth_error in Hin. destruct Hin as [i Hi].
    destruct (lt_eq_lt_dec i j) as [[Hlt| ->]|Hgt].
    + unfold needsRetry in Hneeds. rewrite (Hbelow i item' Hlt Hi) in Hneeds.
      discriminate.
    + rewrite Hrow in Hi. injection Hi as <-.
      unfold needsRetry in Hneeds. destruct Hst as [Hst|Hst]; rewrite Hst in Hneeds;
        discriminate.
    + assert (Hlen : List.length (transactionsTimeline
                                    (initState env ws (resetState k s)))
                     = List.length (transactionsTimeline
                                      (final (executeTransactions env k s)))).
      { destruct (resetState_facts ws k s Hc Hready) as (Hc1 & Hidx1 & Hready1).
        destruct (initState_facts env ws k _ Hc1 Hidx1 Hready1) as (_ & _ & Hal2 & _).
        unfold aligned in Hal, Hal2.
        rewrite <- (length_map title), Hal2, <- Hal. apply length_map. }
      destruct (nth_error (transactionsTimeline (initState env ws (resetState k s))) i)
        as [item0|] eqn:E0.
      * rewrite (Habove i item0 Hgt E0) in Hi. injection Hi as <-.
        rewrite (prepared_rows_quiet env ws k s i item0 Hinv) in Hneeds;
          [discriminate|lia|exact E0].
      * apply nth_error_None in E0.
        assert (i < List.length (transactionsTimeline
                                   (final (executeTransactions env k s))))%nat
          by (apply nth_error_Some; congruence).
        lia.
Qed.

Lemma eoa_failure_index_tracks_retry_rows_witness :
  failedTxIndex (final (executeTransactions eoaSecondFailsEnv 0 initialState)) <> -1 <->
  existsb needsRetry
    (transactionsTimeline (final (executeTransactions eoaSecondFailsEnv 0 initialState)))
  = true.
Proof.
  apply (eoa_failure_index_tracks_retry_rows eoaSecondFailsEnv 0 initialState
           (attemptWrappers eoaSecondFailsEnv) secondFailsBatch).
  - reflexivity.
  - reflexivity.
  - discriminate.
  - reflexivity.
  - vm_compute. reflexivity.
  - vm_compute. repeat constructor; cbn; intuition discriminate.
  - reflexivity.
  - left. split; reflexivity.
  - left. reflexivity.
Defined.

(** X8. On the direct-signing path the [after] hook is given the value of
    the [before] hook and the receipts of the wrappers confirmed in this
    attempt only, from the entry index to the end of the batch; while it
    runs the flow is not yet completed and every row is [confirmed] or
    [finalizing]. *)
Theorem after_hook_is_given_receipts_of_this_attempt env k s ws all rs b st :
  safe env = false ->
  truthyString (address env) = true ->
  (forall e, before env <> Some (Threw e)) ->
  transactionsBuilder env (beforeValue env) = Returned ws ->
  resolveGas env (walletAddress env) ws = Returned all ->
  NoDup (map w_title ws) ->
  isExecutionCompleted s = false ->
  retryReady ws k s ->
  In (CallAfter rs b, st) (trace (executeTransactions env k s)) ->
  b = beforeValue env /\
  receiptsOf env all (Z.to_nat k) rs /\
  isExecutionCompleted st = false /\
  Forall (fun item => status item = confirmed \/ status item = finalizing)
    (transactionsTimeline st).
Proof.
  intros Hsafe Haddr Hnb Hws Hgas Hnd Hc Hready Hin.
  destruct (eoa_attempt_result env k s ws all Hsafe Haddr Hnb Hws Hgas Hnd Hc Hready)
    as [Htrace _].
  exact (Htrace _ _ Hin rs b eq_refl).
Qed.

Lemma after_hook_is_given_receipts_of_this_attempt_witness :
  receiptsOf eoaSuccessEnv
    (match resolveGas eoaSuccessEnv "0xme" (attemptWrappers eoaSuccessEnv) with
     | Returned all => all
     | Threw _ => []
     end) (Z.to_nat 1) [{| transactionHash := "0xr" |}].
Proof.
  apply (after_hook_is_given_receipts_of_this_attempt eoaSuccessEnv 1 afterSecondFailure
           (attemptWrappers eoaSuccessEnv)
           (match resolveGas eoaSuccessEnv "0xme" (attemptWrappers eoaSuccessEnv) with
            | Returned all => all
            | Threw _ => []
            end)
           [{| transactionHash := "0xr" |}] None
           (stFinalizing eoaSuccessEnv "Transfer"
              (final (handleEoaTransactions eoaSuccessEnv "0xme"
                        (attemptWrappers eoaSuccessEnv) 1
                        (resetState 1 afterSecondFailure))))).
  - reflexivity.
  - reflexivity.
  - discriminate.
  - reflexivity.
  - vm_compute. reflexivity.
  - vm_compute. repeat constructor; cbn; intuition discriminate.
  - vm_compute. reflexivity.
  - right. split; [vm_compute; discriminate|]. split; [vm_compute; reflexivity|].
    split; [lia|]. intros j item Hj. destruct j as [|j]; [|lia].
    vm_compute. intros H. injection H as <-. reflexivity.
  - vm_compute. do 4 right. left. reflexivity.
Defined.

Section Writes.
Variable env : Env.
Variable P : State -> Prop.

Hypothesis P_recalculate : forall k s, P s -> P (recalculateTimelineStatuses k s).
Hypothesis P_init : forall ws s,
  transactionsTimeline s = [] ->
  transactionsBuilder env (beforeValue env) = Returned ws ->
  P s -> P (set_transactionsTimeline (mapi (initItem (safe env)) 0 ws) s).
Hypothesis P_update : forall t u s, P s -> P (onTimeline (updateTimeline t u) s).
Hypothesis P_error : forall e s, P s -> P (set_error (Some e) s).
Hypothesis P_index : forall i s, P s -> P (set_failedTxIndex i s).
Hypothesis P_completed : forall s, P s -> P (completed s).

Lemma writes_stFailure i t e s : P s -> P (stFailure i t e s).
Proof.
  intros H. unfold stFailure. apply P_index.
  destruct (isRejection e); [|apply P_error]; now apply P_update.
Qed.

Lemma writes_loop txs : forall i receipts s,
  P s ->
  holds (eoaLoop env i txs receipts) s
    (fun ev st => ownCall false ev = true /\ P st) (fun _ s' => P s').
Proof.
  induction txs as [|tx rest IH]; intros i receipts s Hs.
  - now apply holds_eoaLoop_nil.
  - assert (H1 : P (stAwaiting (w_title (wrapper tx)) s)) by now apply P_update.
    apply holds_eoaLoop_cons.
    { intros _. now apply writes_stFailure. }
    intros _. split; [split; [reflexivity|exact H1]|].
    split; [intros e _; apply catchEnds_state; [now apply writes_stFailure|exact H1]|].
    intros txResponse _. cbv zeta.
    assert (H2 : P (stPending env (w_title (wrapper tx)) (hash txResponse)
                      (stAwaiting (w_title (wrapper tx)) s))) by now apply P_update.
    split; [split; [reflexivity|exact H2]|].
    split; [intros e _; apply catchEnds_state; [now apply writes_stFailure|exact H2]|].
    intros receipt _. apply IH. now apply P_update.
Qed.

(** Whatever holds of the state and is kept by each of the component's
    writes holds at every point of an attempt, which makes no call of the
    other signing path. *)
Lemma writes_attempt k s :
  P s ->
  holds (executeTransactions env k) s
    (fun ev st => ownCall (safe env) ev = true /\ P st) (fun _ s' => P s').
Proof.
  intros Hs.
  assert (H1 : P (resetState k s)).
  { unfold resetState. destruct (negb (failedTxIndex s =? -1)); auto. }
  apply holds_executeTransactions; [auto|]. intros _.
  split; [auto|]. split; [auto|]. intros _. split; [auto|]. split; [auto|].
  intros ws Hws.
  assert (H2 : P (initState env ws (resetState k s))).
  { unfold initState. destruct (transactionsTimeline (resetState k s)) eqn:E; auto. }
  set (s2 := initState env ws (resetState k s)) in *. clearbody s2.
  assert (Hexec : holds (runExecutor env ws k) s2
                    (fun ev st => ownCall (safe env) ev = true /\ P st)
                    (fun _ s3 => P s3)).
  { unfold runExecutor. destruct (safe env) eqn:Hsafe.
    - step. apply holds_handleSafeAppTransactions; [auto|auto|].
      intros gas _. split; [auto|]. intros safeTx _. split; [auto|].
      intros txs _. split; [auto|]. split.
      + intros response _. step. unfold stSubmitted. now apply P_update.
      + intros e _. apply catchEnds_intro; intros _; [|exact H2].
        step. unfold stSafeFailure.
        destruct (isRejection e); [now apply P_update|].
        apply P_index, P_error. now apply P_update.
    - step. apply holds_handleEoaTransactions; [auto|auto|].
      intros txs _. split.
      + intros _. destruct (transactionsTimeline s2); [|exact H2].
        step. apply P_index, P_error. exact H2.
      + intros _. eapply holds_weaken; [apply (writes_loop _ _ _ _ H2)|auto|].
        cbn beta. intros [r|e] s3 H; [step|]; exact H. }
  eapply holds_weaken; [exact Hexec|auto|]. cbn beta.
  intros [r|e] s3 H3; [|exact H3]. split; [auto|]. intros _.
  apply holds_finish; intros Hsafe; rewrite Hsafe.
  - split; [auto|]. intros _. cbv zeta.
    assert (H4 : P (finalizingState env ws s3)).
    { unfold finalizingState. destruct (lastWrapper ws s3); [|exact H3].
      unfold stFinalizing. now apply P_update. }
    assert (H5 : P (finalizedState ws (finalizingState env ws s3))).
    { unfold finalizedState. destruct (lastWrapper ws (finalizingState env ws s3));
        [|exact H4]. unfold stFinalized. now apply P_update. }
    split; [auto|]. intros hook _. split; [auto|]. split; [auto|]. auto.
  - split; [auto|]. intros hook _. split; [auto|].
    intros response _. split; [auto|]. split; [auto|]. auto.
Qed.

End Writes.

Lemma sameRows_attempt env k s :
  holds (executeTransactions env k) s
    (fun ev st => ownCall (safe env) ev = true /\ sameRows env s st)
    (fun _ s' => sameRows env s s').
Proof.
  apply (writes_attempt env (sameRows env s)).
  - intros j st [H|(Hnil & ws & Hws & H)]; [left|right; split; [exact Hnil|exists ws; split; [exact Hws|]]].
    all: cbn [transactionsTimeline recalculateTimelineStatuses].
    all: now rewrite recalculate_titles.
  - intros ws st Hnil Hws H. right. split.
    + destruct H as [H|[Hs _]]; [|exact Hs]. rewrite Hnil in H. cbn [map] in H.
      symmetry in H. now apply map_eq_nil in H.
    + exists ws. split; [exact Hws|].
      cbn [transactionsTimeline set_transactionsTimeline]. apply init_titles.
  - intros t u st [H|(Hnil & ws & Hws & H)]; [left|right; split; [exact Hnil|exists ws; split; [exact Hws|]]].
    all: cbn [transactionsTimeline onTimeline set_transactionsTimeline].
    all: now rewrite updateTimeline_titles.
  - intros e st H. exact H.
  - intros i st H. exact H.
  - intros st H. exact H.
  - left. reflexivity.
Qed.

Lemma flagsKept_attempt env k s :
  holds (executeTransactions env k) s
    (fun ev st => ownCall (safe env) ev = true /\ flagsKept s st)
    (fun _ s' => flagsKept s s').
Proof.
  apply (writes_attempt env (flagsKept s)).
  - intros j st (Hc & Hr & Hv). split; [exact Hc|]. split; discriminate.
  - intros ws st _ _ H. exact H.
  - intros t u st H. exact H.
  - intros e st H. exact H.
  - intros i st H. exact H.
  - intros st (Hc & Hr & Hv). split; [reflexivity|]. split; [discriminate|exact Hv].
  - repeat split; auto.
Qed.

(** X9. At every point of an attempt the timeline has the rows it was
    entered with, by title and in order; only an empty timeline is filled,
    with one row per wrapper built in this attempt.  A retry never adds,
    removes or renames a row, whatever the hooks build. *)
Theorem timeline_rows_are_fixed_by_first_batch env k s st :
  shownIn (executeTransactions env k s) st -> sameRows env s st.
Proof.
  destruct (sameRows_attempt env k s) as [Htrace Hfinal].
  intros [->|[ev Hin]]; [exact Hfinal|]. exact (proj2 (Htrace ev st Hin)).
Qed.

Lemma timeline_rows_are_fixed_by_first_batch_witness :
  sameRows eoaSuccessEnv afterSecondFailure
    (final (executeTransactions eoaSuccessEnv 1 afterSecondFailure)).
Proof.
  apply (timeline_rows_are_fixed_by_first_batch eoaSuccessEnv 1 afterSecondFailure).
  left. reflexivity.
Defined.

(** X10. An attempt never clears [isExecutionCompleted], never sets
    [isRetrying] and never opens the error details. *)
Theorem attempt_moves_flags_one_way env k s st :
  shownIn (executeTransactions env k s) st -> flagsKept s st.
Proof.
  destruct (flagsKept_attempt env k s) as [Htrace Hfinal].
  intros [->|[ev Hin]]; [exact Hfinal|]. exact (proj2 (Htrace ev st Hin)).
Qed.

Lemma attempt_moves_flags_one_way_witness :
  flagsKept afterSecondFailure
    (final (executeTransactions eoaSuccessEnv 1 afterSecondFailure)).
Proof.
  apply (attempt_moves_flags_one_way eoaSuccessEnv 1 afterSecondFailure).
  left. reflexivity.
Defined.

(** X11. An attempt makes only the calls of its own signing path: in Safe
    mode nothing is sent to the signer and [after] is not called; otherwise
    nothing is sent to the Safe and [afterSafe] is not called; and a result
    is only ever dispatched as a failure that carries its error. *)
Theorem attempt_calls_only_its_own_path env k s ev st :
  In (ev, st) (trace (executeTransactions env k s)) -> ownCall (safe env) ev = true.
Proof.
  intros Hin. destruct (flagsKept_attempt env k s) as [Htrace _].
  exact (proj1 (Htrace ev st Hin)).
Qed.

Lemma attempt_calls_only_its_own_path_witness :
  ownCall (safe safeSuccessEnv)
    (SafeSend [{| safe_to := "0xabc"; safe_data := "0x00"; safe_value := "0" |}] NaN) = true.
Proof.
  apply (attempt_calls_only_its_own_path safeSuccessEnv 0 initialState _
           (initState safeSuccessEnv (attemptWrappers safeSuccessEnv) initialState)).
  vm_compute. right. right. left. reflexivity.
Defined.

(** *** The simulation request of the direct-signing path *)

(** The part of the direct-signing path that follows the estimation. *)
Lemma eoa_signing_makes_no_request env all k s :
  forall simulations st,
    ~ In (FetchSimulate simulations, st)
        (trace ((if k <? 0 then
                   (s0 <- get ;;
                    recordFailure k None
                      (match transactionsTimeline s0 with
                       | [] => if signer env then TypeError else Unreachable
                       | _ :: _ => TypeError
                       end) ;;
                    ret [])%M
                 else eoaLoop env (Z.to_nat k) (skipn (Z.to_nat k) all) []) s)).
Proof.
  intros simulations st Hin.
  assert (H : holds (if k <? 0 then
                       (s0 <- get ;;
                        recordFailure k None
                          (match transactionsTimeline s0 with
                           | [] => if signer env then TypeError else Unreachable
                           | _ :: _ => TypeError
                           end) ;;
                        ret [])%M
                     else eoaLoop env (Z.to_nat k) (skipn (Z.to_nat k) all) []) s
                (fun ev _ => forall simulations, ev <> FetchSimulate simulations)
                (fun _ _ => True)).
  { destruct (k <? 0).
    - step. step. unfold recordFailure.
      destruct (transactionsTimeline s) eqn:Etl; [destruct (signer env)|];
        cbn [hasMessage isRejection]; repeat step;
        unfold updateTransactionTimelineStatus; repeat step;
        rewrite Etl; repeat step; trivial.
    - eapply holds_weaken; [apply (eoaLoop_result env all); reflexivity| |trivial].
      cbn beta. intros ev _ Hev simulations' ->. contradiction. }
  destruct H as [Htrace _]. exact (Htrace _ _ Hin simulations eq_refl).
Qed.

(** X12. The direct-signing path asks the simulation service exactly when
    some wrapper is flagged [applyGasBuffer] outside test mode.  The request
    is then the first call of the path and the only one to the service: it
    is made once, in the state the path was entered in, and covers every
    wrapper of the batch, also those below the retry index and those not
    flagged.  Otherwise the path makes no request to the service. *)
Theorem eoa_simulates_whole_batch_when_buffered env addr ws k s :
  exists signing,
    trace (handleEoaTransactions env addr ws k s)
    = ((if needToSimulate env (withoutGas ws)
        then [(FetchSimulate (simulationRequests env addr ws), s)]
        else []) ++ signing)%list /\
    forall simulations st, ~ In (FetchSimulate simulations, st) signing.
Proof.
  unfold handleEoaTransactions. fold (withoutGas ws).
  replace (map (fun tx => simulationRequest env addr (transaction (wrapper tx)))
             (withoutGas ws))
    with (simulationRequests env addr ws)
    by (unfold withoutGas, simulationRequests; now rewrite map_map).
  unfold bind at 1. rewrite eoa_estimate_run.
  destruct (resolveGas env addr ws) as [all|e]; cbn beta iota.
  - pose proof (eoa_signing_makes_no_request env all k s) as Hnone.
    match goal with
    | |- context [match ?r with {| outcome := _ |} => _ end] => destruct r as [o s2 t2]
    end.
    cbn [trace] in *. exists t2. split; [reflexivity|exact Hnone].
  - exists []. cbn [trace]. rewrite app_nil_r. split; [reflexivity|]. intros _ _ [].
Qed.

(** *** Attempts that fail before the timeline is initialized *)

Lemma preparation_abort env k s e :
  preparation env = Threw e ->
  holds (executeTransactions env k) s
    (fun ev st => isHookCall ev = true /\ st = resetState k s)
    (fun o s' => o = Threw e /\ s' = resetState k s).
Proof.
  unfold preparation. intros Hprep.
  apply holds_executeTransactions.
  - intros Haddr. rewrite Haddr in Hprep. injection Hprep as <-. auto.
  - intros Haddr. rewrite Haddr in Hprep.
    split; [auto|]. split.
    + intros e' He'. rewrite He' in Hprep. injection Hprep as <-. auto.
    + intros Hnb. split; [auto|].
      assert (Hb : transactionsBuilder env (beforeValue env) = Threw e).
      { destruct (before env) as [[b|e']|]; [exact Hprep| |exact Hprep].
        now destruct (Hnb e'). }
      rewrite Hb. split; [intros e' He'; injection He' as <-; auto|].
      intros ws Hws. discriminate.
Qed.

(** X13. When the wallet has no address, or the [before] or [transactions]
    hook throws, the attempt throws that error right after the reset: only
    hooks have been called, the timeline is not initialized and no failure
    is recorded. *)
Theorem failed_preparation_aborts_attempt env k s e :
  preparation env = Threw e ->
  outcome (executeTransactions env k s) = Threw e /\
  final (executeTransactions env k s) = resetState k s /\
  forall ev st,
    In (ev, st) (trace (executeTransactions env k s)) ->
    isHookCall ev = true /\ st = resetState k s.
Proof.
  intros Hprep. destruct (preparation_abort env k s e Hprep) as [Htrace [Ho Hs]]. auto.
Qed.

Lemma failed_preparation_aborts_attempt_witness :
  outcome (executeTransactions builderThrowsEnv 1 afterSecondFailure)
  = Threw (Thrown "RPC unavailable").
Proof.
  apply (failed_preparation_aborts_attempt builderThrowsEnv 1 afterSecondFailure).
  reflexivity.
Defined.

(** X14. An attempt aborted by a missing address or a throwing hook, on a
    first run or on a retry after a recorded failure, leaves no button to
    press: no row offers an enabled "Try again", "Back" is disabled, and
    "Continue" is as it was. *)
Theorem failed_preparation_leaves_no_action env k s e :
  preparation env = Threw e ->
  failedTxIndex s <> -1 \/ transactionsTimeline s = [] ->
  retryAvailable (final (executeTransactions env k s)) = false /\
  backDisabled (final (executeTransactions env k s)) = true /\
  continueDisabled (final (executeTransactions env k s)) = continueDisabled s.
Proof.
  intros Hprep Hs. destruct (preparation_abort env k s e Hprep) as [_ [_ ->]].
  unfold resetState. destruct (failedTxIndex s =? -1) eqn:E; cbn [negb].
  - apply Z.eqb_eq in E. destruct Hs as [Hs|Hnil]; [congruence|].
    unfold retryAvailable, backDisabled. rewrite Hnil, E. auto.
  - apply Z.eqb_neq in E. split; [|split; reflexivity].
    apply guarded_retryAvailable. now apply guarded_recalculate.
Qed.

Lemma failed_preparation_leaves_no_action_witness :
  retryAvailable (final (executeTransactions builderThrowsEnv 1 afterSecondFailure)) = false.
Proof.
  apply (failed_preparation_leaves_no_action builderThrowsEnv 1 afterSecondFailure
           (Thrown "RPC unavailable")).
  - reflexivity.
  - left. vm_compute. discriminate.
Defined.

(** *** The submission to the Safe *)

Lemma safeTxs_single w txs :
  safeTxs [w] = Returned txs ->
  exists t d,
    to (transaction w) = Some t /\ data (transaction w) = Some d /\
    txs = [{| safe_to := t; safe_data := d; safe_value := "0" |}].
Proof.
  cbn [safeTxs]. destruct (to (transaction w)) as [t|]; [|discriminate].
  destruct (data (transaction w)) as [d|]; [|discriminate].
  intros H. injection H as <-. eauto.
Qed.

(** X15. Whatever is sent to the Safe is the single call of the single
    wrapper, with value ["0"], submitted from the state the path was
    entered in, with the buffered [estimatedGas] property of the simulation
    response as gas parameter. *)
Theorem safe_submission_carries_single_call env ws addr s txs gas st :
  In (SafeSend txs gas, st) (trace (handleSafeAppTransactions env ws addr s)) ->
  st = s /\
  safeGas env addr ws = Returned gas /\
  exists w t d,
    ws = [w] /\ to (transaction w) = Some t /\ data (transaction w) = Some d /\
    txs = [{| safe_to := t; safe_data := d; safe_value := "0" |}].
Proof.
  intros Hin.
  assert (H : holds (handleSafeAppTransactions env ws addr) s
    (fun ev st =>
       forall txs gas, ev = SafeSend txs gas ->
         st = s /\ safeGas env addr ws = Returned gas /\
         exists w t d,
           ws = [w] /\ to (transaction w) = Some t /\ data (transaction w) = Some d /\
           txs = [{| safe_to := t; safe_data := d; safe_value := "0" |}])
    (fun _ _ => True)).
  { apply holds_handleSafeAppTransactions; [discriminate|trivial|].
    intros gas' Hgas. split; [trivial|]. intros w ->. split; [trivial|].
    intros txs' Htxs.
    split; [|split; [trivial|intros e _; now apply catchEnds_intro]].
    intros txs0 gas0 Heq. injection Heq as <- <-.
    destruct (safeTxs_single w txs' Htxs) as (t & d & Ht & Hd & ->).
    split; [reflexivity|]. split; [exact Hgas|]. exists w, t, d. auto. }
  destruct H as [Htrace _]. exact (Htrace _ _ Hin txs gas eq_refl).
Qed.

Lemma safe_submission_carries_single_call_witness :
  safeGas safeSuccessEnv "0xme" (attemptWrappers safeSuccessEnv) = Returned NaN.
Proof.
  apply (safe_submission_carries_single_call safeSuccessEnv
           (attemptWrappers safeSuccessEnv) "0xme"
           (initState safeSuccessEnv (attemptWrappers safeSuccessEnv) initialState)
           [{| safe_to := "0xabc"; safe_data := "0x00"; safe_value := "0" |}] NaN
           (initState safeSuccessEnv (attemptWrappers safeSuccessEnv) initialState)).
  vm_compute. right. left. reflexivity.
Defined.

(** *** The retry action *)

Lemma retryFailedTransaction_run env s :
  retryFailedTransaction env s
  = executeTransactions env (failedTxIndex s) (set_isRetrying true s).
Proof.
  unfold retryFailedTransaction, bind, modify, get.
  cbn [failedTxIndex set_isRetrying].
  destruct (executeTransactions env (failedTxIndex s) (set_isRetrying true s))
    as [o s' t].
  reflexivity.
Qed.

(** X16. The "Try again" action on a recorded failure, with hooks, estimates
    and signer (or Safe) now succeeding, completes the flow: every row is
    settled, [failedTxIndex] is cleared and no retry is on offer. *)
Theorem retry_after_failure_completes env ws j s :
  failedAt ws j s ->
  attemptWrappers env = ws ->
  attemptSucceeds env ->
  outcome (retryFailedTransaction env s) = Returned tt /\
  isExecutionCompleted (final (retryFailedTransaction env s)) = true /\
  failedTxIndex (final (retryFailedTransaction env s)) = -1 /\
  settledStatuses env (final (retryFailedTransaction env s)) /\
  retryAvailable (final (retryFailedTransaction env s)) = false.
Proof.
  intros (Hc & Hidx & _ & Hready) <- Hok.
  rewrite retryFailedTransaction_run, Hidx.
  assert (Hready' : retryReady (attemptWrappers env) (Z.of_nat j) (set_isRetrying true s))
    by exact Hready.
  destruct (attempt_outcome env (Z.of_nat j) (set_isRetrying true s) Hc Hready')
    as [_ [Hsettled Hsucc]].
  destruct (Hsucc Hok) as [Ho Hdone].
  destruct (Hsettled Hdone) as (Hidx' & Hquiet & _ & Hst).
  repeat (split; [assumption|]). now apply settled_retryAvailable.
Qed.

Lemma retry_after_failure_completes_witness :
  outcome (retryFailedTransaction eoaSuccessEnv afterSecondFailure) = Returned tt.
Proof.
  apply (retry_after_failure_completes eoaSuccessEnv (attemptWrappers eoaSuccessEnv)
           1 afterSecondFailure).
  - split; [vm_compute; reflexivity|]. split; [vm_compute; reflexivity|]. split.
    + eexists. split; [vm_compute; reflexivity|]. left. reflexivity.
    + right. split; [vm_compute; discriminate|]. split; [vm_compute; reflexivity|].
      split; [lia|]. intros i item Hi. destruct i as [|i]; [|lia].
      vm_compute. intros H. injection H as <-. reflexivity.
  - reflexivity.
  - split.
    + split; [reflexivity|]. split; [discriminate|]. split; [eexists; reflexivity|].
      split; intros hook x Hhook; injection Hhook as <-; reflexivity.
    + cbn. split.
      * split; [reflexivity|]. intros i req. eexists _, _. split; reflexivity.
      * eexists. vm_compute. reflexivity.
Defined.

(** *** Retrying on the Safe path *)

(** X17. In Safe mode the retry index is only used by the reset: two
    attempts that agree on the reset are the same run. *)
Theorem safe_attempt_ignores_retry_index env k k' s :
  safe env = true ->
  resetState k s = resetState k' s ->
  executeTransactions env k s = executeTransactions env k' s.
Proof.
  intros Hsafe Hreset. unfold executeTransactions.
  unfold bind at 1. unfold get at 1. cbn beta iota.
  symmetry. unfold bind at 1. unfold get at 1. cbn beta iota.
  rewrite Hsafe. unfold resetState in Hreset.
  destruct (negb (failedTxIndex s =? -1)); [|reflexivity].
  unfold bind at 1. unfold modify at 1. cbn beta iota.
  symmetry. unfold bind at 1. unfold modify at 1. cbn beta iota.
  rewrite Hreset. reflexivity.
Qed.

Lemma safe_attempt_ignores_retry_index_witness :
  executeTransactions safeSuccessEnv (-1) afterSafeRejection
  = executeTransactions safeSuccessEnv 0 afterSafeRejection.
Proof.
  apply (safe_attempt_ignores_retry_index safeSuccessEnv (-1) 0 afterSafeRejection).
  - reflexivity.
  - vm_compute. reflexivity.
Defined.

(** X18. A Safe submission that was declined leaves [failedTxIndex] unset,
    so the retry is entered with index [-1]; it still resubmits, and with
    the Safe now accepting it completes the flow. *)
Theorem safe_rejection_can_be_retried env s :
  safe env = true ->
  failedTxIndex s = -1 ->
  isExecutionCompleted s = false ->
  transactionsTimeline s <> [] ->
  aligned (attemptWrappers env) s ->
  attemptSucceeds env ->
  outcome (retryFailedTransaction env s) = Returned tt /\
  isExecutionCompleted (final (retryFailedTransaction env s)) = true /\
  settledStatuses env (final (retryFailedTransaction env s)).
Proof.
  intros Hsafe Hidx Hc Hne Hal Hok.
  rewrite retryFailedTransaction_run, Hidx.
  assert (Hrun : executeTransactions env (-1) (set_isRetrying true s)
                 = executeTransactions env 0 (set_isRetrying true s)).
  { unfold executeTransactions.
    unfold bind at 1. unfold get at 1. cbn beta iota.
    symmetry. unfold bind at 1. unfold get at 1. cbn beta iota.
    cbn [failedTxIndex set_isRetrying]. rewrite Hidx, Hsafe. reflexivity. }
  rewrite Hrun.
  assert (Hready : retryReady (attemptWrappers env) 0 (set_isRetrying true s)).
  { right. split; [exact Hne|]. split; [exact Hal|]. split; [lia|].
    intros j item Hj. lia. }
  destruct (attempt_outcome env 0 (set_isRetrying true s) Hc Hready)
    as [_ [Hsettled Hsucc]].
  destruct (Hsucc Hok) as [Ho Hdone].
  destruct (Hsettled Hdone) as (_ & _ & _ & Hst). auto.
Qed.

Lemma safe_rejection_can_be_retried_witness :
  outcome (retryFailedTransaction safeSuccessEnv afterSafeRejection) = Returned tt.
Proof.
  apply (safe_rejection_can_be_retried safeSuccessEnv afterSafeRejection).
  - reflexivity.
  - vm_compute. reflexivity.
  - vm_compute. reflexivity.
  - vm_compute. discriminate.
  - vm_compute. reflexivity.
  - split.
    + split; [reflexivity|]. split; [discriminate|]. split; [eexists; reflexivity|].
      split; intros hook x Hhook; injection Hhook as <-; reflexivity.
    + cbn. split; [reflexivity|]. split; [eexists; vm_compute; reflexivity|].
      split; [eexists; reflexivity|]. intros txs gas. eexists. reflexivity.
Defined.

Lemma attempt_requests env k s :
  safe env = false ->
  holds (executeTransactions env k) s (fun ev _ => eoaRequest env ev) (fun _ _ => True).
Proof.
  intros Hsafe.
  apply holds_executeTransactions; [trivial|]. intros _.
  split; [intros; exact I|]. split; [trivial|]. intros _.
  split; [exact I|]. split; [trivial|]. intros ws Hws.
  set (s2 := initState env ws (resetState k s)). clearbody s2.
  assert (Hexec : holds (runExecutor env ws k) s2 (fun ev _ => eoaRequest env ev)
                    (fun _ _ => True)).
  { unfold runExecutor. rewrite Hsafe. step. fold (walletAddress env).
    apply holds_handleEoaTransactions.
    - intros Hneed. exists ws. auto.
    - trivial.
    - intros all Hgas. split.
      + intros _. destruct (transactionsTimeline s2); [step|]; trivial.
      + intros _. eapply holds_weaken;
          [apply (eoaLoop_result env all); reflexivity| |].
        * cbn beta. intros ev _ Hev. destruct ev; try contradiction; [|exact I].
          destruct Hev as (_ & (tx & Htx & ->) & _). exists ws, all, tx. auto.
        * cbn beta. intros [r|e] s3 _; [step|]; trivial. }
  eapply holds_weaken; [exact Hexec|auto|]. cbn beta.
  intros [r|e] s3 _; [|trivial]. split; [trivial|]. intros _.
  apply holds_finish; [intros _|congruence].
  split; [intros _; split; exact I|]. intros _. cbv zeta.
  split; [trivial|]. intros hook _. split; [exact I|]. split; [trivial|].
  intros e _. split; exact I.
Qed.

(** X19. The edit-project-splits flow builds one wrapper that is not flagged
    [applyGasBuffer]: on the direct-signing path the simulation service is
    never asked, and the only submission is that of the transaction
    populated by the [before] hook, with the gas limit it declares. *)
Theorem update_splits_is_signed_without_simulation env tx k s ev st :
  transactionsBuilder env = updateSplitsTransactions tx ->
  safe env = false ->
  In (ev, st) (trace (executeTransactions env k s)) ->
  (forall simulations, ev <> FetchSimulate simulations) /\
  (forall j req,
     ev = SendTransaction j req ->
     j = 0%nat /\
     exists context,
       beforeValue env = Some context /\
       req = {| req_to := to (tx context);
                req_data := data (tx context);
                req_gasLimit := tx_gasLimit (tx context) |}).
Proof.
  intros Hbuilder Hsafe Hin.
  destruct (attempt_requests env k s Hsafe) as [Htrace _].
  specialize (Htrace ev st Hin). clear Hin.
  assert (Hplain : forall ws,
            updateSplitsTransactions tx (beforeValue env) = Returned ws ->
            exists context,
              beforeValue env = Some context /\
              ws = [{| w_title := "Update project splits";
                       transaction := tx context;
                       applyGasBuffer := false |}] /\
              needToSimulate env (withoutGas ws) = false).
  { intros ws Hws. unfold updateSplitsTransactions in Hws.
    destruct (beforeValue env) as [context|]; [|discriminate].
    injection Hws as <-. exists context. split; [reflexivity|]. split; [reflexivity|].
    unfold needToSimulate. now destruct (isTest env). }
  split.
  - intros simulations ->. destruct Htrace as (ws & Hws & Hneed & _).
    rewrite Hbuilder in Hws.
    destruct (Hplain ws Hws) as (_ & _ & _ & Hno). congruence.
  - intros j req ->. destruct Htrace as (ws & all & wg & Hws & Hgas & Hj & ->).
    rewrite Hbuilder in Hws.
    destruct (Hplain ws Hws) as (context & Hctx & -> & Hno).
    unfold resolveGas in Hgas. rewrite Hno in Hgas. injection Hgas as <-.
    destruct j as [|[|j]]; try discriminate. injection Hj as <-.
    split; [reflexivity|]. exists context. split; [exact Hctx|reflexivity].
Qed.

Lemma update_splits_is_signed_without_simulation_witness :
  0%nat = 0%nat /\
  exists context,
    beforeValue updateSplitsEnv = Some context /\
    {| req_to := Some "0xcaller"; req_data := Some "0x5P";
       req_gasLimit := Some (Finite 300000) |}
    = {| req_to := to (sampleSplitsTx context);
         req_data := data (sampleSplitsTx context);
         req_gasLimit := tx_gasLimit (sampleSplitsTx context) |}.
Proof.
  apply (proj2 (update_splits_is_signed_without_simulation updateSplitsEnv sampleSplitsTx
                  0 initialState
                  (SendTransaction 0
                     {| req_to := Some "0xcaller"; req_data := Some "0x5P";
                        req_gasLimit := Some (Finite 300000) |})
                  (stAwaiting "Update project splits"
                     (initState updateSplitsEnv (attemptWrappers updateSplitsEnv)
                        initialState))
                  eq_refl eq_refl
                  ltac:(vm_compute; do 2 right; left; reflexivity))
           0%nat
           {| req_to := Some "0xcaller"; req_data := Some "0x5P";
              req_gasLimit := Some (Finite 300000) |}
           eq_refl).
Defined.

(** X20. The delete-stream flow builds one flagged wrapper: outside test
    mode the only submission on the direct-signing path is that of the
    populated batch transaction, with the buffered positive estimate that
    the simulation service returned for it as gas limit. *)
Theorem delete_stream_is_signed_with_buffered_estimate env populate k s j req st :
  transactionsBuilder env = deleteStreamTransactions populate ->
  safe env = false ->
  isTest env = false ->
  In (SendTransaction j req, st) (trace (executeTransactions env k s)) ->
  j = 0%nat /\
  exists context tx simulationRes entry g,
    beforeValue env = Some context /\
    populate context = Returned tx /\
    simulate env [simulationRequest env (walletAddress env) tx] = Returned simulationRes /\
    getIndex simulationRes 0 = Returned entry /\
    getProperty entry "estimatedGas" = Returned (JsNumber g) /\
    Qle_bool g 0 = false /\
    req = {| req_to := to tx;
             req_data := data tx;
             req_gasLimit := Some (getGasBuffer env (JsNumber g)) |}.
Proof.
  intros Hbuilder Hsafe Htest Hin.
  destruct (attempt_requests env k s Hsafe) as [Htrace _].
  specialize (Htrace _ st Hin). clear Hin.
  destruct Htrace as (ws & all & wg & Hws & Hgas & Hj & ->).
  rewrite Hbuilder in Hws. unfold deleteStreamTransactions in Hws.
  destruct (beforeValue env) as [context|]; [|discriminate].
  destruct (populate context) as [tx|e] eqn:Hpop; [|discriminate].
  injection Hws as <-.
  unfold resolveGas, needToSimulate in Hgas. rewrite Htest in Hgas.
  cbn [withoutGas map existsb wrapper applyGasBuffer orb simulationRequests transaction]
    in Hgas.
  destruct (simulate env [simulationRequest env (walletAddress env) tx])
    as [res|e] eqn:Hsim; [|discriminate].
  destruct (assignGasLimits env res 0
              [{| wrapper := {| w_title := "Delete the stream"; transaction := tx;
                                applyGasBuffer := true |};
                  gasLimit := None |}]) as [txs|e] eqn:Hassign; [|discriminate].
  injection Hgas as <-.
  destruct (assignGasLimits_spec env res _ 0 txs j wg Hassign Hj)
    as (wg0 & Hj0 & Hw & _ & Hbuf).
  destruct j as [|[|j]]; try discriminate. injection Hj0 as <-.
  cbn [wrapper applyGasBuffer] in *.
  destruct (Hbuf eq_refl) as (entry & g & Hidx & Hprop & Hpos & Hlimit).
  split; [reflexivity|]. exists context, tx, res, entry, g.
  repeat (split; [first [reflexivity|assumption]|]).
  unfold transactionRequest. rewrite Hw, Hlimit. reflexivity.
Qed.

Lemma delete_stream_is_signed_with_buffered_estimate_witness :
  0%nat = 0%nat /\
  exists context tx simulationRes entry g,
    beforeValue deleteStreamEnv = Some context /\
    sampleDeleteTx context = Returned tx /\
    simulate deleteStreamEnv
      [simulationRequest deleteStreamEnv (walletAddress deleteStreamEnv) tx]
    = Returned simulationRes /\
    getIndex simulationRes 0 = Returned entry /\
    getProperty entry "estimatedGas" = Returned (JsNumber g) /\
    Qle_bool g 0 = false /\
    {| req_to := Some "0xcaller"; req_data := Some "0xde1";
       req_gasLimit := Some (Finite 127) |}
    = {| req_to := to tx;
         req_data := data tx;
         req_gasLimit := Some (getGasBuffer deleteStreamEnv (JsNumber g)) |}.
Proof.
  apply (delete_stream_is_signed_with_buffered_estimate deleteStreamEnv sampleDeleteTx
           0 initialState 0
           {| req_to := Some "0xcaller"; req_data := Some "0xde1";
              req_gasLimit := Some (Finite 127) |}
           (stAwaiting "Delete the stream"
              (initState deleteStreamEnv (attemptWrappers deleteStreamEnv) initialState))).
  - reflexivity.
  - reflexivity.
  - reflexivity.
  - vm_compute. do 3 right. left. reflexivity.
Defined.
